(** * Material layers of a layer stack: model and verified properties

    A shallow embedding of [principled_material_layers/material_layer.py]
    (classes [MaterialLayerRef] and [MaterialLayer]).

    Modelling choices, all taken from the source:
    - a Python object reference to a [MaterialLayer] is the index of its slot
      in the collection of layers, so that two names of one layer alias;
    - methods are state transformers over a [World] (the [id_data] that owns
      the slots); an exception carries the world as it is when raised, since
      Python does not roll mutations back;
    - re-entrant calls (property update callbacks, recursive properties and
      methods) take a bound on their nesting depth, the interpreter's
      recursion limit, and raise [RecursionError] when it is reached;
    - one document with one layer stack is modelled: a reference caches the
      identifier of its stack (written by [set]) and is resolved through the
      stack of the document. *)

From Stdlib Require Import ZArith QArith String Ascii Decimal DecimalString DecimalNat Lia.
From stdpp Require Import base list strings.

(** ** Data model *)

(** The attributes of a [Channel] (channel.py) that the layer code reads. *)
Record Channel := {
  ch_name : string;
  ch_socket_type : string;
  ch_enabled : bool;
  ch_is_baked : bool }.

(** An output socket of the interface of a node tree. *)
Record Socket := {
  sock_name : string;
  sock_type : string;
  hide_value : bool;
  min_value : option Q;
  max_value : option Q;
  default_value : option (list Q) }.

Record Node := {
  node_idname : string;
  node_name : string;
  node_label : string }.

Record NodeTree := {
  nt_name : string;
  nt_outputs : list Socket;
  nt_nodes : list Node }.

(** The preview material: its name, the names of the nodes of its tree and
    the outputs of the group node that are linked to the like-named input of
    the shader node. *)
Record Material := {
  ma_name : string;
  ma_nodes : list string;
  ma_links : list string }.

(** [MaterialLayerRef]: [name] holds the identifier of the layer referred
    to; ["_layer_stack_id"] is a custom property, absent until [set] runs. *)
Record MaterialLayerRef := {
  ref_name : string;
  ref_layer_stack_id : option string }.

Record MaterialLayer := {
  name : string;
  identifier : string;
  enabled : bool;
  opacity : Q;
  layer_type : string;
  channels : list Channel;
  active_channel_index : Z;
  preview_material : option Material;
  node_tree : option NodeTree;
  node_mask : option NodeTree;
  image : option string;
  image_channel : Z;
  is_baked : bool;
  parent : MaterialLayerRef;
  children : list MaterialLayerRef }.

(** The attributes of the [LayerStack] that the layer code reads, its
    collection of layers apart. *)
Record LayerStack := {
  stack_identifier : string;
  stack_channels : list Channel;
  material_name : string }.

(** The [id_data]: the stack it may hold ([pml_layer_stack]), the slots of
    [MaterialLayer] instances stored in it, and the warnings issued so far. *)
Record World := {
  pml_layer_stack : option LayerStack;
  layers : list MaterialLayer;
  warnings : list string }.

(** The defaults of the properties, as declared in the class body. *)
Definition default_ref : MaterialLayerRef :=
  {| ref_name := ""; ref_layer_stack_id := None |}.

Definition default_layer : MaterialLayer :=
  {| name := "Layer"; identifier := ""; enabled := true; opacity := 1%Q;
     layer_type := "MATERIAL_PAINT"; channels := []; active_channel_index := 0%Z;
     preview_material := None; node_tree := None; node_mask := None;
     image := None; image_channel := (-1)%Z; is_baked := false;
     parent := default_ref; children := [] |}.

Definition LAYER_TYPES : list (string * string * string) :=
  [("MATERIAL_PAINT", "Material Paint", "An image-based layer for painting");
   ("MATERIAL_FILL", "Material Fill", "A fill layer")].

Definition _VALID_LAYER_TYPES : list string := map (fun x => x.1.1) LAYER_TYPES.

Definition _PREVIEW_SHADER_NODE_NAME : string := "preview_shader".
Definition _PREVIEW_MA_NODE_NAME : string := "ma_group".

(** *** Field assignment *)

Definition with_name (v : string) (l : MaterialLayer) : MaterialLayer :=
  Build_MaterialLayer v (identifier l) (enabled l) (opacity l) (layer_type l) (channels l) (active_channel_index l) (preview_material l) (node_tree l) (node_mask l) (image l) (image_channel l) (is_baked l) (parent l) (children l).
Definition with_identifier (v : string) (l : MaterialLayer) : MaterialLayer :=
  Build_MaterialLayer (name l) v (enabled l) (opacity l) (layer_type l) (channels l) (active_channel_index l) (preview_material l) (node_tree l) (node_mask l) (image l) (image_channel l) (is_baked l) (parent l) (children l).
Definition with_enabled (v : bool) (l : MaterialLayer) : MaterialLayer :=
  Build_MaterialLayer (name l) (identifier l) v (opacity l) (layer_type l) (channels l) (active_channel_index l) (preview_material l) (node_tree l) (node_mask l) (image l) (image_channel l) (is_baked l) (parent l) (children l).
(** [opacity] is declared with [min=0.0, max=1.0]: a value outside is
    stored as the nearer bound. *)
Definition with_opacity (v : Q) (l : MaterialLayer) : MaterialLayer :=
  Build_MaterialLayer (name l) (identifier l) (enabled l) (if Qle_bool v 0 then 0%Q else if Qle_bool 1 v then 1%Q else v) (layer_type l) (channels l) (active_channel_index l) (preview_material l) (node_tree l) (node_mask l) (image l) (image_channel l) (is_baked l) (parent l) (children l).
Definition with_layer_type (v : string) (l : MaterialLayer) : MaterialLayer :=
  Build_MaterialLayer (name l) (identifier l) (enabled l) (opacity l) v (channels l) (active_channel_index l) (preview_material l) (node_tree l) (node_mask l) (image l) (image_channel l) (is_baked l) (parent l) (children l).
Definition with_channels (v : list Channel) (l : MaterialLayer) : MaterialLayer :=
  Build_MaterialLayer (name l) (identifier l) (enabled l) (opacity l) (layer_type l) v (active_channel_index l) (preview_material l) (node_tree l) (node_mask l) (image l) (image_channel l) (is_baked l) (parent l) (children l).
(** [active_channel_index] is declared with [min=0]: a smaller value is
    stored as 0. *)
Definition with_active_channel_index (v : Z) (l : MaterialLayer) : MaterialLayer :=
  Build_MaterialLayer (name l) (identifier l) (enabled l) (opacity l) (layer_type l) (channels l) (Z.max v 0) (preview_material l) (node_tree l) (node_mask l) (image l) (image_channel l) (is_baked l) (parent l) (children l).
Definition with_preview_material (v : option Material) (l : MaterialLayer) : MaterialLayer :=
  Build_MaterialLayer (name l) (identifier l) (enabled l) (opacity l) (layer_type l) (channels l) (active_channel_index l) v (node_tree l) (node_mask l) (image l) (image_channel l) (is_baked l) (parent l) (children l).
Definition with_node_tree (v : option NodeTree) (l : MaterialLayer) : MaterialLayer :=
  Build_MaterialLayer (name l) (identifier l) (enabled l) (opacity l) (layer_type l) (channels l) (active_channel_index l) (preview_material l) v (node_mask l) (image l) (image_channel l) (is_baked l) (parent l) (children l).
Definition with_node_mask (v : option NodeTree) (l : MaterialLayer) : MaterialLayer :=
  Build_MaterialLayer (name l) (identifier l) (enabled l) (opacity l) (layer_type l) (channels l) (active_channel_index l) (preview_material l) (node_tree l) v (image l) (image_channel l) (is_baked l) (parent l) (children l).
(** [image] and [image_channel]; the latter is declared with
    [min=-1, max=2]. *)
Definition with_image (v : option string) (c : Z) (l : MaterialLayer) : MaterialLayer :=
  Build_MaterialLayer (name l) (identifier l) (enabled l) (opacity l) (layer_type l) (channels l) (active_channel_index l) (preview_material l) (node_tree l) (node_mask l) v (Z.max (-1) (Z.min c 2)) (is_baked l) (parent l) (children l).
Definition with_is_baked (v : bool) (l : MaterialLayer) : MaterialLayer :=
  Build_MaterialLayer (name l) (identifier l) (enabled l) (opacity l) (layer_type l) (channels l) (active_channel_index l) (preview_material l) (node_tree l) (node_mask l) (image l) (image_channel l) v (parent l) (children l).
Definition with_parent (v : MaterialLayerRef) (l : MaterialLayer) : MaterialLayer :=
  Build_MaterialLayer (name l) (identifier l) (enabled l) (opacity l) (layer_type l) (channels l) (active_channel_index l) (preview_material l) (node_tree l) (node_mask l) (image l) (image_channel l) (is_baked l) v (children l).
Definition with_children (v : list MaterialLayerRef) (l : MaterialLayer) : MaterialLayer :=
  Build_MaterialLayer (name l) (identifier l) (enabled l) (opacity l) (layer_type l) (channels l) (active_channel_index l) (preview_material l) (node_tree l) (node_mask l) (image l) (image_channel l) (is_baked l) (parent l) v.

Definition with_layers (v : list MaterialLayer) (w : World) : World :=
  {| pml_layer_stack := pml_layer_stack w; layers := v; warnings := warnings w |}.
Definition with_warnings (v : list string) (w : World) : World :=
  {| pml_layer_stack := pml_layer_stack w; layers := layers w; warnings := v |}.

(** ** Exceptions and the state monad of the methods *)

Inductive Exn :=
  | RuntimeError | ValueError | TypeError | AttributeError | KeyError
  | IndexError | AssertionError | RecursionError.

(** The outcome of a call: it returns [a] in world [w], it raises [e] in
    world [w], or (a [while True] loop only) it does not come back. *)
Inductive Outcome (A : Type) :=
  | Ret (a : A) (w : World)
  | Raise (e : Exn) (w : World)
  | Diverge.
Arguments Ret {A} a w.
Arguments Raise {A} e w.
Arguments Diverge {A}.

Definition M (A : Type) : Type := World -> Outcome A.

#[global] Instance M_ret : MRet M := fun A a w => Ret a w.
#[global] Instance M_bind : MBind M := fun A B f c w =>
  match c w with
  | Ret a w' => f a w'
  | Raise e w' => Raise e w'
  | Diverge => Diverge
  end.

Definition raise {A} (e : Exn) : M A := fun w => Raise e w.
Definition diverge {A} : M A := fun _ => Diverge.
Definition get_world : M World := fun w => Ret w w.
Definition assert (b : bool) : M unit := if b then mret tt else raise AssertionError.
Definition warn (msg : string) : M unit :=
  fun w => Ret tt (with_warnings (warnings w ++ [msg]) w).

(** [for x in xs: body x] *)
Fixpoint for_each {A} (xs : list A) (body : A -> M unit) : M unit :=
  match xs with
  | [] => mret tt
  | x :: xs' => body x;; for_each xs' body
  end.

(** The layer object held in slot [i]. *)
Definition self_layer (i : nat) : M MaterialLayer := fun w =>
  match layers w !! i with
  | Some l => Ret l w
  | None => Raise IndexError w
  end.

(** Assignment to attributes of the layer in slot [i]. *)
Definition modify (i : nat) (f : MaterialLayer -> MaterialLayer) : M unit :=
  fun w => Ret tt (with_layers (alter f i (layers w)) w).

(** [self.layer_stack]: [get_layer_stack_from_prop] gives the stack of the
    [id_data], or [None] when the [id_data] has none. *)
Definition layer_stack : M (option LayerStack) := fun w => Ret (pml_layer_stack w) w.

(** [self.layer_stack.<attribute>]: an [AttributeError] on [None]. *)
Definition the_layer_stack : M LayerStack :=
  s ← layer_stack;
  match s with
  | Some s => mret s
  | None => raise AttributeError
  end.

(** ** Truth value and equality of layers and references *)

Definition str_bool (s : string) : bool := negb (String.eqb s "").

(** [MaterialLayerRef.__bool__] *)
Definition ref_bool (r : MaterialLayerRef) : bool := str_bool (ref_name r).

(** [is_initialized], and [MaterialLayer.__bool__] *)
Definition is_initialized (l : MaterialLayer) : bool := str_bool (identifier l).

(** The objects a comparison can meet. *)
Inductive PyObj :=
  | ObjLayer (l : MaterialLayer)
  | ObjRef (r : MaterialLayerRef)
  | ObjOther.

(** [MaterialLayerRef.__eq__] *)
Definition MaterialLayerRef_eq (self : MaterialLayerRef) (other : PyObj) : bool :=
  if negb (str_bool (ref_name self)) then false
  else match other with
       | ObjRef o => String.eqb (ref_name o) (ref_name self)
       | ObjLayer o => String.eqb (identifier o) (ref_name self)
       | ObjOther => false
       end.

(** [MaterialLayer.__eq__]; [super().__eq__] compares the objects and is
    reached only when [other] is not a layer. *)
Definition MaterialLayer_eq (self : MaterialLayer) (other : PyObj) : bool :=
  match other with
  | ObjLayer o => String.eqb (identifier o) (identifier self)
  | _ => false
  end.

(** [MaterialLayer.__ne__] *)
Definition MaterialLayer_ne (self : MaterialLayer) (other : PyObj) : bool :=
  negb (MaterialLayer_eq self other).

(** ** Collaborators

    Code of the add-on and of Blender that the layer calls and that is not
    part of the file: what it computes is a parameter of the model. *)
Record Host := {
  (** [unique_name_in(layer_stack.layers, 4, attr="identifier")], from the
      identifiers in use *)
  unique_name_in : list string -> string;
  (** [layer_stack.get_channel_default_value(channel)] *)
  get_channel_default_value : LayerStack -> Channel -> option (list Q);
  (** [channel.socket_type_bl_enum], from [channel.socket_type] *)
  socket_type_bl_enum : string -> string;
  (** [group_output_link_default(output)]: links sockets of the Group Output
      node; it acts on the nodes of the tree *)
  group_output_link_default : Socket -> list Node -> list Node;
  (** [set_node_group_vector_defaults(node_tree)]: adds nodes to the tree *)
  set_node_group_vector_defaults : NodeTree -> list Node;
  (** [image_manager.allocate_image_to_layer(layer)]: the image and the
      channel of it given to the layer in slot [i] *)
  allocate_image_to_layer : World -> nat -> string * Z;
  (** [get_addon_preferences().show_previews] *)
  show_previews : bool;
  (** the names of the inputs of the shader node of a preview material *)
  shader_inputs : list string;
  (** [layer_stack.get_layer_above(layer)], [layer_stack.get_layer_below(layer)] *)
  stack_get_layer_above : World -> nat -> option nat;
  stack_get_layer_below : World -> nat -> option nat }.

(** ** Collections keyed by name

    A [CollectionProperty] answers [get], [find] and [in] for a string by
    the first item whose name is that string. *)
Section Collection.
Context {A : Type} (key : A -> string).

Fixpoint coll_find (n : string) (l : list A) : option nat :=
  match l with
  | [] => None
  | x :: l' => if String.eqb (key x) n then Some 0 else S <$> coll_find n l'
  end.

Definition coll_get (n : string) (l : list A) : option A :=
  i ← coll_find n l; l !! i.

Definition coll_contains (n : string) (l : list A) : bool :=
  match coll_find n l with Some _ => true | None => false end.

(** [collection.remove(index)] *)
Definition coll_remove (i : nat) (l : list A) : list A := delete i l.
End Collection.

(** ** Names unique in the stack *)

(** [f"{n:02}"] *)
Definition fmt02 (n : nat) : string :=
  let s := NilEmpty.string_of_uint (Nat.to_uint n) in
  if Nat.ltb n 10 then "0" +:+ s else s.

Definition suffixed (basename : string) (n : nat) : string :=
  basename +:+ "." +:+ fmt02 n.

(** The [while True] loop of [_get_unique_name], from the counter value [n];
    [fuel] bounds the number of iterations of the model. *)
Fixpoint first_free_suffix (fuel : nat) (basename : string)
    (ls : list MaterialLayer) (n : nat) : option string :=
  match fuel with
  | 0 => None
  | S fuel' =>
      let nm := suffixed basename n in
      if negb (coll_contains name nm ls) then Some nm
      else first_free_suffix fuel' basename ls (S n)
  end.

(** [_get_unique_name] *)
Definition _get_unique_name (i : nat) : M string :=
  self ← self_layer i;
  stack ← the_layer_stack;
  w ← get_world;
  let ls := layers w in
  let same := List.find (fun x => String.eqb (name x) (name self)
                                  && MaterialLayer_ne x (ObjLayer self)
                                  && is_initialized x) ls in
  match same with
  | Some _ =>
      match first_free_suffix (S (length ls)) (name self) ls 1 with
      | Some nm => mret nm
      | None => diverge
      end
  | None => mret (name self)
  end.

(** [_node_tree_name] *)
Definition _node_tree_name (l : MaterialLayer) : string := "." +:+ name l.

Definition rename_tree (n : string) (t : NodeTree) : NodeTree :=
  {| nt_name := n; nt_outputs := nt_outputs t; nt_nodes := nt_nodes t |}.

(** [_update_name], the update callback of [name]. Assigning [self.name]
    inside it runs the callback again: [depth] bounds that nesting. *)
Fixpoint _update_name (depth : nat) (i : nat) : M unit :=
  match depth with
  | 0 => raise RecursionError
  | S depth' =>
      unique_name ← _get_unique_name i;
      self ← self_layer i;
      if negb (String.eqb unique_name (name self)) then
        w ← get_world;
        assert (negb (coll_contains name unique_name (layers w)));;
        modify i (with_name unique_name);;
        _update_name depth' i
      else
        match node_tree self with
        | Some t => modify i (with_node_tree (Some (rename_tree (_node_tree_name self) t)))
        | None => mret tt
        end
  end.

(** [self.name = v] *)
Definition set_name (depth : nat) (i : nat) (v : string) : M unit :=
  modify i (with_name v);; _update_name depth i.

(** ** Channels and the outputs of the node tree *)

(** Modelled from the spec: [Channel.init_from_channel] (channel.py is not
    part of the sources at hand). The entry appended is "a copy initialized
    from the template". *)
Definition init_from_channel (template : Channel) : Channel :=
  {| ch_name := ch_name template; ch_socket_type := ch_socket_type template;
     ch_enabled := ch_enabled template; ch_is_baked := ch_is_baked template |}.

(** Modelled from the spec: [Channel.free_bake] (channel.py) frees the baked
    data of the channel, which is then not baked. *)
Definition Channel_free_bake (c : Channel) : Channel :=
  {| ch_name := ch_name c; ch_socket_type := ch_socket_type c;
     ch_enabled := ch_enabled c; ch_is_baked := false |}.

(** Modelled from the spec: [Channel.delete] (channel.py), "each channel's
    own teardown": it releases what the channel holds, its baked data. *)
Definition Channel_delete (c : Channel) : Channel := Channel_free_bake c.

(** The arguments [add_channel] and [remove_channel] tell apart by
    [isinstance]. *)
Inductive PyArg :=
  | ArgChannel (c : Channel)
  | ArgStr (s : string)
  | ArgOther.

Definition new_socket (n ty : string) : Socket :=
  {| sock_name := n; sock_type := ty; hide_value := false;
     min_value := None; max_value := None; default_value := None |}.

Definition socket_retype (ty : string) (o : Socket) : Socket :=
  {| sock_name := sock_name o; sock_type := ty; hide_value := hide_value o;
     min_value := min_value o; max_value := max_value o;
     default_value := default_value o |}.
Definition socket_hide (o : Socket) : Socket :=
  {| sock_name := sock_name o; sock_type := sock_type o; hide_value := true;
     min_value := min_value o; max_value := max_value o;
     default_value := default_value o |}.
Definition socket_range (lo hi : Q) (o : Socket) : Socket :=
  {| sock_name := sock_name o; sock_type := sock_type o; hide_value := hide_value o;
     min_value := Some lo; max_value := Some hi;
     default_value := default_value o |}.
Definition socket_default (v : list Q) (o : Socket) : Socket :=
  {| sock_name := sock_name o; sock_type := sock_type o; hide_value := hide_value o;
     min_value := min_value o; max_value := max_value o;
     default_value := Some v |}.

Definition with_outputs (v : list Socket) (t : NodeTree) : NodeTree :=
  {| nt_name := nt_name t; nt_outputs := v; nt_nodes := nt_nodes t |}.
Definition with_nodes (v : list Node) (t : NodeTree) : NodeTree :=
  {| nt_name := nt_name t; nt_outputs := nt_outputs t; nt_nodes := v |}.

(** A mutation of the node tree that [self.node_tree] points to. *)
Definition modify_tree (i : nat) (f : NodeTree -> NodeTree) : M unit :=
  modify i (fun l => with_node_tree (f <$> node_tree l) l).

(** [self.node_tree.<attribute>]: an [AttributeError] on [None]. *)
Definition the_node_tree (i : nat) : M NodeTree :=
  self ← self_layer i;
  match node_tree self with
  | Some t => mret t
  | None => raise AttributeError
  end.

Section Methods.
Context (host : Host).

(** [_ensure_node_tree_output] *)
Definition _ensure_node_tree_output (i : nat) (channel : Channel) : M unit :=
  t ← the_node_tree i;
  let ty := socket_type_bl_enum host (ch_socket_type channel) in
  k ← match coll_find sock_name (ch_name channel) (nt_outputs t) with
      | Some k =>
          modify_tree i (fun t => with_outputs
            (alter (fun o => if negb (String.eqb (sock_type o) ty)
                             then socket_retype ty o else o) k (nt_outputs t)) t);;
          mret k
      | None =>
          modify_tree i (fun t => with_outputs
            (nt_outputs t ++ [new_socket (ch_name channel) ty]) t);;
          mret (length (nt_outputs t))
      end;
  (if String.eqb (ch_socket_type channel) "VECTOR" then
     modify_tree i (fun t => with_outputs (alter socket_hide k (nt_outputs t)) t)
   else if String.eqb (ch_socket_type channel) "FLOAT_FACTOR" then
     modify_tree i (fun t => with_outputs (alter (socket_range 0 1) k (nt_outputs t)) t)
   else mret tt);;
  stack ← the_layer_stack;
  match get_channel_default_value host stack channel with
  | Some v => modify_tree i (fun t => with_outputs (alter (socket_default v) k (nt_outputs t)) t)
  | None => mret tt
  end;;
  t ← the_node_tree i;
  match nt_outputs t !! k with
  | Some output =>
      modify_tree i (fun t => with_nodes (group_output_link_default host output (nt_nodes t)) t)
  | None => mret tt
  end.

(** [_preview_material_name] *)
Definition _preview_material_name (stack : LayerStack) (l : MaterialLayer) : string :=
  "." +:+ material_name stack +:+ "." +:+ name l +:+ ".preview".

(** [_create_preview_material] *)
Definition _create_preview_material (i : nat) : M unit :=
  self ← self_layer i;
  match node_tree self with
  | None => mret tt
  | Some t =>
      match preview_material self with
      | None =>
          stack ← the_layer_stack;
          modify i (with_preview_material
            (Some {| ma_name := _preview_material_name stack self;
                     ma_nodes := []; ma_links := [] |}))
      | Some _ => mret tt
      end;;
      stack ← the_layer_stack;
      let linked := List.filter (fun n =>
          bool_decide (n ∈ shader_inputs host)
          && match coll_get ch_name n (stack_channels stack) with
             | Some c => ch_enabled c
             | None => false
             end) (sock_name <$> nt_outputs t) in
      modify i (fun l => with_preview_material
        ((fun ma => {| ma_name := ma_name ma;
                       ma_nodes := [_PREVIEW_MA_NODE_NAME; _PREVIEW_SHADER_NODE_NAME;
                                    "Material Output"];
                       ma_links := linked |}) <$> preview_material l) l)
  end.

(** [_refresh_preview_material] *)
Definition _refresh_preview_material (i : nat) : M unit :=
  self ← self_layer i;
  match preview_material self with
  | None => mret tt
  | Some ma =>
      if bool_decide (_PREVIEW_MA_NODE_NAME ∈ ma_nodes ma)
         && bool_decide (_PREVIEW_SHADER_NODE_NAME ∈ ma_nodes ma) then
        let outs := match node_tree self with
                    | Some t => sock_name <$> nt_outputs t
                    | None => []
                    end in
        let linked := List.filter (fun n => bool_decide (n ∈ shader_inputs host)) outs in
        modify i (with_preview_material
          (Some {| ma_name := ma_name ma; ma_nodes := ma_nodes ma;
                   ma_links := list_union (ma_links ma) linked |}))
      else
        warn "Error refreshing preview material. Recreating material node tree.";;
        _create_preview_material i
  end.

(** [_delete_preview_material]: removing the material from [bpy.data]
    leaves the pointer to it empty. *)
Definition _delete_preview_material (i : nat) : M unit :=
  self ← self_layer i;
  match preview_material self with
  | Some _ => modify i (with_preview_material None)
  | None => mret tt
  end.

(** [add_channel] *)
Definition add_channel (i : nat) (arg : PyArg) : M Channel :=
  match arg with
  | ArgChannel channel =>
      self ← self_layer i;
      match coll_get ch_name (ch_name channel) (channels self) with
      | Some existing =>
          warn ("Channel with name " +:+ ch_name channel +:+
                " already exists in layer " +:+ name self);;
          mret existing
      | None =>
          modify i (fun l => with_channels (channels l ++ [init_from_channel channel]) l);;
          _ensure_node_tree_output i channel;;
          _refresh_preview_material i;;
          self ← self_layer i;
          match channels self !! (length (channels self) - 1) with
          | Some added => mret added
          | None => raise IndexError
          end
      end
  | _ => raise TypeError
  end.

(** [remove_channel] *)
Definition remove_channel (i : nat) (arg : PyArg) : M unit :=
  channel_name ← match arg with
                 | ArgChannel c => mret (ch_name c)
                 | ArgStr s => mret s
                 | ArgOther => raise TypeError
                 end;
  self ← self_layer i;
  match coll_get ch_name channel_name (channels self) with
  | None => raise ValueError
  | Some _ =>
      ch_idx ← match coll_find ch_name channel_name (channels self) with
               | Some k => mret k
               | None => raise AssertionError
               end;
      modify i (fun l => with_channels (alter Channel_delete ch_idx (channels l)) l);;
      modify i (fun l => with_channels (coll_remove ch_idx (channels l)) l);;
      t ← the_node_tree i;
      match coll_find sock_name channel_name (nt_outputs t) with
      | Some k => modify_tree i (fun t => with_outputs (coll_remove k (nt_outputs t)) t)
      | None => mret tt
      end;;
      self ← self_layer i;
      let active_index := active_channel_index self in
      let active_index :=
        if (Z.of_nat ch_idx <? active_index)%Z then (active_index - 1)%Z
        else active_index in
      let active_index :=
        Z.max (Z.min active_index (Z.of_nat (length (channels self)) - 1)) 0 in
      modify i (with_active_channel_index active_index)
  end.

(** [clear_channels] *)
Definition clear_channels (i : nat) : M unit :=
  self ← self_layer i;
  for_each (ch_name <$> channels self) (fun ch_name => remove_channel i (ArgStr ch_name)).

End Methods.

(** ** References *)

(** Modelled from the spec: [LayerStack.get_layer_by_id] (the class of the
    stack is not part of the sources at hand) "looks up the layer by
    identifier inside that stack" and gives nothing when the stack has no
    layer of that identifier. *)
Definition get_layer_by_id (w : World) (id : string) : option nat :=
  coll_find identifier id (layers w).

(** [MaterialLayerRef.set], for [None] and for a layer of the stack *)
Definition ref_set (target : option (MaterialLayer * LayerStack)) : MaterialLayerRef :=
  match target with
  | None => {| ref_name := ""; ref_layer_stack_id := Some "" |}
  | Some (l, s) => {| ref_name := identifier l; ref_layer_stack_id := Some (stack_identifier s) |}
  end.

(** [MaterialLayerRef.resolve]. The stack of the reference is the stack of
    the document; the look-up of a relocated stack in the registry of stacks
    is not modelled. *)
Definition resolve (r : MaterialLayerRef) : M (option nat) :=
  if negb (ref_bool r) then raise RuntimeError
  else
    _ ← the_layer_stack;
    match ref_layer_stack_id r with
    | None => raise KeyError
    | Some _ => w ← get_world; mret (get_layer_by_id w (ref_name r))
    end.

(** [ref.resolve().<attribute>]: an [AttributeError] when the reference
    dangles. *)
Definition resolve_layer (r : MaterialLayerRef) : M nat :=
  o ← resolve r;
  match o with
  | Some j => mret j
  | None => raise AttributeError
  end.

(** ** Life cycle *)

(** [any_channel_baked] *)
Definition any_channel_baked (l : MaterialLayer) : bool := existsb ch_is_baked (channels l).

(** [has_image] *)
Definition has_image (l : MaterialLayer) : bool :=
  match image l with Some _ => true | None => false end.

(** [free_bake] *)
Definition free_bake (i : nat) : M unit :=
  modify i (fun l => with_channels
    ((fun ch => if ch_is_baked ch then Channel_free_bake ch else ch) <$> channels l) l);;
  modify i (with_is_baked false);;
  self ← self_layer i;
  assert (negb (any_channel_baked self)).

(** Modelled from the spec: [image_manager.deallocate_layer_image] (the
    image manager is not part of the sources at hand) releases the image
    binding of the layer: "on delete both must reset to (null, -1)". *)
Definition deallocate_layer_image (i : nat) : M unit :=
  modify i (with_image None (-1)%Z).

(** The [active_channel] setter *)
Definition set_active_channel (i : nat) (channel : Channel) : M unit :=
  self ← self_layer i;
  match coll_find ch_name (ch_name channel) (channels self) with
  | None => raise ValueError
  | Some ch_idx => modify i (with_active_channel_index (Z.of_nat ch_idx))
  end.

Section LifeCycle.
Context (host : Host).

(** [initialize]; [layer_stack], the second argument, is the stack of the
    document the slot belongs to. *)
Definition initialize (depth : nat) (i : nat) (name' : string) (layer_type' : string)
    (channels' : option (list Channel)) (enabled_channels_only : bool) : M unit :=
  stack ← layer_stack;
  match stack with
  | None => raise RuntimeError
  | Some _ =>
      self ← self_layer i;
      if is_initialized self then raise RuntimeError
      else if negb (bool_decide (layer_type' ∈ _VALID_LAYER_TYPES)) then raise ValueError
      else
        w ← get_world;
        modify i (with_identifier (unique_name_in host (identifier <$> layers w)));;
        set_name depth i name';;
        modify i (with_layer_type layer_type');;
        modify i (with_enabled true);;
        modify i (with_opacity 1%Q);;
        modify i (with_active_channel_index 0);;
        self ← self_layer i;
        modify i (with_node_tree
          (Some {| nt_name := _node_tree_name self; nt_outputs := []; nt_nodes := [] |}));;
        match channels' with
        | Some chs =>
            for_each chs (fun ch =>
              if ch_enabled ch || negb enabled_channels_only
              then add_channel host i (ArgChannel ch);; mret tt
              else mret tt)
        | None => mret tt
        end;;
        _ ← the_node_tree i;
        modify_tree i (fun t => with_nodes
          (nt_nodes t ++ [{| node_idname := "NodeGroupOutput"; node_name := "layer_output";
                             node_label := "Layer Output" |}]) t);;
        modify_tree i (fun t => with_nodes (set_node_group_vector_defaults host t) t);;
        self ← self_layer i;
        (if String.eqb (layer_type self) "MATERIAL_PAINT" then
           w ← get_world;
           let '(img, c) := allocate_image_to_layer host w i in
           modify i (with_image (Some img) c)
         else mret tt);;
        self ← self_layer i;
        (match node_tree self with
         | Some _ => if show_previews host then _create_preview_material host i else mret tt
         | None => mret tt
         end);;
        self ← self_layer i;
        assert (is_initialized self)
  end.

(** [delete]. The loop over [self.children] runs on the references held
    when it starts: the nested calls reach layers through their identifier
    and this layer has none any more. The update callback of [node_mask],
    [_rebuild_node_tree], returns at once on a layer without identifier. *)
Fixpoint delete (depth : nat) (i : nat) : M unit :=
  match depth with
  | 0 => raise RecursionError
  | S depth' =>
      self ← self_layer i;
      if negb (is_initialized self) then mret tt
      else
        modify i (with_identifier "");;
        modify i (with_parent (ref_set None));;
        free_bake i;;
        self ← self_layer i;
        (if has_image self then _ ← the_layer_stack; deallocate_layer_image i
         else mret tt);;
        self ← self_layer i;
        for_each (children self) (fun child => j ← resolve_layer child; delete depth' j);;
        modify i (with_children []);;
        modify i (fun l => with_channels (Channel_delete <$> channels l) l);;
        modify i (with_channels []);;
        self ← self_layer i;
        (match node_tree self with
         | Some _ => modify i (with_node_tree None)
         | None => mret tt
         end);;
        modify i (with_node_mask None);;
        _delete_preview_material i;;
        set_name depth' i "";;
        self ← self_layer i;
        assert (negb (is_initialized self));;
        assert (negb (has_image self));;
        assert (image_channel self =? -1)%Z
  end.

End LifeCycle.

(** ** Hierarchy *)

(** [acc = f(acc, x)] for [x] in [xs] *)
Fixpoint fold_m {A B} (f : B -> A -> M B) (xs : list A) (acc : B) : M B :=
  match xs with
  | [] => mret acc
  | x :: xs' => acc' ← f acc x; fold_m f xs' acc'
  end.

(** The [descendents] property; [depth] bounds the nesting of the calls. *)
Fixpoint descendents (depth : nat) (i : nat) : M (list nat) :=
  match depth with
  | 0 => raise RecursionError
  | S depth' =>
      self ← self_layer i;
      fold_m (fun descendents_ child_layer_ref =>
                child_layer ← resolve_layer child_layer_ref;
                child ← self_layer child_layer;
                ds ← match children child with
                     | [] => mret descendents_
                     | _ :: _ => more ← descendents depth' child_layer;
                                 mret (descendents_ ++ more)
                     end;
                mret (ds ++ [child_layer]))
             (children self) []
  end.

(** The [stack_depth] property; [depth] bounds the nesting of the calls. *)
Fixpoint stack_depth (depth : nat) (i : nat) : M nat :=
  match depth with
  | 0 => raise RecursionError
  | S depth' =>
      self ← self_layer i;
      if negb (ref_bool (parent self)) then mret 0
      else
        p ← resolve_layer (parent self);
        parent_ ← self_layer p;
        if negb (ref_bool (parent parent_)) then mret 1
        else
          g ← resolve_layer (parent parent_);
          n ← stack_depth depth' g;
          mret (n + 2)
  end.

(** [xs[k]] for a Python integer [k]: a negative index counts from the end. *)
Definition py_getitem {A} (xs : list A) (k : Z) : M A :=
  let n := Z.of_nat (length xs) in
  let k' := if (k <? 0)%Z then (k + n)%Z else k in
  if (k' <? 0)%Z then raise IndexError
  else match xs !! Z.to_nat k' with
       | Some x => mret x
       | None => raise IndexError
       end.

(** [refs.index(layer)]: the first position whose reference equals the
    layer, by [MaterialLayerRef.__eq__]. *)
Fixpoint index_of (refs : list MaterialLayerRef) (l : MaterialLayer) : option nat :=
  match refs with
  | [] => None
  | r :: refs' => if MaterialLayerRef_eq r (ObjLayer l) then Some 0 else S <$> index_of refs' l
  end.

Definition py_index (refs : list MaterialLayerRef) (l : MaterialLayer) : M Z :=
  match index_of refs l with
  | Some k => mret (Z.of_nat k)
  | None => raise ValueError
  end.

(** [collection()]: a collection property is not callable. *)
Definition call_collection {A} (c : list A) : M (list A) := raise TypeError.

(** The part of [get_layer_above] after the children of the parent are
    obtained. *)
Definition layer_above_among (children_ : list MaterialLayerRef) (self : MaterialLayer)
    : M (option nat) :=
  let siblings := List.filter ref_bool children_ in
  idx ← py_index siblings self;
  if (idx + 1 =? Z.of_nat (length siblings))%Z then mret None
  else r ← py_getitem siblings (idx + 1); resolve r.

(** The part of [get_layer_below] after the children of the parent are
    obtained. *)
Definition layer_below_among (children_ : list MaterialLayerRef) (self : MaterialLayer)
    : M (option nat) :=
  let siblings := List.filter ref_bool children_ in
  idx ← py_index siblings self;
  if (idx - 1 =? 0)%Z then mret None
  else r ← py_getitem siblings (idx - 1); resolve r.

Section Navigation.
Context (host : Host).

(** [get_layer_above] *)
Definition get_layer_above (i : nat) : M (option nat) :=
  self ← self_layer i;
  if negb (is_initialized self) then raise RuntimeError
  else if negb (ref_bool (parent self)) then
    _ ← the_layer_stack; w ← get_world; mret (stack_get_layer_above host w i)
  else
    p ← resolve_layer (parent self);
    parent_ ← self_layer p;
    children_ ← call_collection (children parent_);
    layer_above_among children_ self.

(** [get_layer_below] *)
Definition get_layer_below (i : nat) : M (option nat) :=
  self ← self_layer i;
  if negb (is_initialized self) then raise RuntimeError
  else if negb (ref_bool (parent self)) then
    _ ← the_layer_stack; w ← get_world; mret (stack_get_layer_below host w i)
  else
    p ← resolve_layer (parent self);
    parent_ ← self_layer p;
    children_ ← call_collection (children parent_);
    layer_below_among children_ self.

End Navigation.

(** ** Further methods of the layer *)

(** [uses_shared_image] *)
Definition uses_shared_image (l : MaterialLayer) : bool :=
  has_image l && (0 <=? image_channel l)%Z.

(** [is_top_level] *)
Definition is_top_level (l : MaterialLayer) : bool :=
  negb (ref_bool (parent l)) && is_initialized l.

(** The [active_channel] getter *)
Definition active_channel (i : nat) : M (option Channel) :=
  self ← self_layer i;
  match channels self with
  | [] => mret None
  | _ :: _ =>
      c ← py_getitem (channels self) (active_channel_index self);
      mret (Some c)
  end.

Section Conversion.
Context (host : Host).

(** [convert_to] *)
Definition convert_to (i : nat) (layer_type' : string) : M unit :=
  if negb (bool_decide (layer_type' ∈ _VALID_LAYER_TYPES)) then raise ValueError
  else
    self ← self_layer i;
    if String.eqb layer_type' (layer_type self) then mret tt
    else
      layer_stack_ ← layer_stack;
      (if String.eqb layer_type' "MATERIAL_PAINT" && negb (has_image self) then
         match layer_stack_ with
         | None => raise AttributeError
         | Some _ =>
             w ← get_world;
             let '(img, c) := allocate_image_to_layer host w i in
             modify i (with_image (Some img) c)
         end
       else mret tt);;
      modify i (with_layer_type layer_type').

End Conversion.

(** The loop of [get_top_level_layer] with [hops] of its 100 rounds left;
    [layer] is what the last [resolve] gave. *)
Fixpoint top_level_from (hops : nat) (layer : option nat) : M nat :=
  match hops with
  | 0 => raise RuntimeError
  | S hops' =>
      match layer with
      | None => raise AttributeError
      | Some j =>
          l ← self_layer j;
          if negb (ref_bool (parent l)) then mret j
          else p ← resolve (parent l); top_level_from hops' p
      end
  end.

(** [get_top_level_layer] *)
Definition get_top_level_layer (i : nat) : M nat :=
  self ← self_layer i;
  if negb (ref_bool (parent self)) then mret i
  else layer ← resolve (parent self); top_level_from 100 layer.

(** The loop of [is_descendent_of] with [hops] of its 100 rounds left. *)
Fixpoint descends_from (hops : nat) (layer : option nat) (other : PyObj) : M bool :=
  match hops with
  | 0 => raise RuntimeError
  | S hops' =>
      match layer with
      | None => raise AttributeError
      | Some j =>
          l ← self_layer j;
          if negb (ref_bool (parent l)) then mret false
          else if MaterialLayerRef_eq (parent l) other then mret true
          else p ← resolve (parent l); descends_from hops' p other
      end
  end.

(** [is_descendent_of] *)
Definition is_descendent_of (i : nat) (other : PyObj) : M bool :=
  descends_from 100 (Some i) other.

(** Modelled from the spec: a channel is a record "with an enabled flag"
    (channel.py is not part of the sources at hand); [ch.enabled = v] sets
    the flag. *)
Definition channel_enable (v : bool) (c : Channel) : Channel :=
  {| ch_name := ch_name c; ch_socket_type := ch_socket_type c;
     ch_enabled := v; ch_is_baked := ch_is_baked c |}.

Section Replacing.
Context (host : Host).
(** [layer_stack.base_layer], a property of the class of the stack, and the
    order in which a [set] of the given strings is iterated over: neither is
    fixed by the file. *)
Context (base_layer : World -> option MaterialLayer).
Context (set_iter : list string -> list string).

(** [is_base_layer] *)
Definition is_base_layer (i : nat) : M bool :=
  self ← self_layer i;
  _ ← the_layer_stack;
  w ← get_world;
  mret (MaterialLayer_eq self
          match base_layer w with
          | Some b => ObjLayer b
          | None => ObjOther
          end).

(** [replace_node_tree]. A tree is held by value: that the tree given may be
    the very tree the layer has is not told apart, and removing the old tree
    from [bpy.data] leaves no trace but the empty pointer. *)
Definition replace_node_tree (i : nat) (node_tree' : option NodeTree)
    (update_channels : bool) : M unit :=
  self ← self_layer i;
  (match node_tree self with
   | Some _ => modify i (with_node_tree None)
   | None => mret tt
   end);;
  modify i (with_node_tree node_tree');;
  match node_tree' with
  | None => mret tt
  | Some _ =>
      self ← self_layer i;
      modify_tree i (rename_tree (_node_tree_name self));;
      stack ← the_layer_stack;
      let layer_stack_chs := stack_channels stack in
      (if update_channels then
         t ← the_node_tree i;
         base ← is_base_layer i;
         let node_output_names :=
           set_iter ((sock_name <$> nt_outputs t)
                     ++ (if (base : bool) then ch_name <$> List.filter ch_enabled layer_stack_chs
                         else [])) in
         for_each node_output_names (fun ch_name' =>
           self ← self_layer i;
           match coll_get ch_name ch_name' (channels self) with
           | Some _ => mret tt
           | None =>
               match coll_get ch_name ch_name' layer_stack_chs with
               | Some ch => add_channel host i (ArgChannel ch);; mret tt
               | None => mret tt
               end
           end);;
         self ← self_layer i;
         for_each (rev (channels self)) (fun ch =>
           if negb (bool_decide (ch_name ch ∈ node_output_names))
           then remove_channel i (ArgChannel ch)
           else mret tt)
       else mret tt);;
      self ← self_layer i;
      for_each (seq 0 (length (channels self))) (fun k =>
        self ← self_layer i;
        match channels self !! k with
        | Some ch =>
            _ensure_node_tree_output host i ch;;
            match coll_get ch_name (ch_name ch) layer_stack_chs with
            | Some stack_ch =>
                modify i (fun l => with_channels
                  (alter (channel_enable (ch_enabled stack_ch)) k (channels l)) l)
            | None => mret tt
            end
        | None => raise IndexError
        end);;
      modify_tree i (fun t => with_nodes (set_node_group_vector_defaults host t) t);;
      _refresh_preview_material host i
  end.

End Replacing.


(** ** A stack to run the methods on *)

Module Demo.

Definition channel (n ty : string) : Channel :=
  {| ch_name := n; ch_socket_type := ty; ch_enabled := true; ch_is_baked := false |}.

Definition color : Channel := channel "Base Color" "COLOR".
Definition roughness : Channel := channel "Roughness" "FLOAT_FACTOR".
Definition normal : Channel := channel "Normal" "VECTOR".

(** An identifier that no layer has: the first of id.00, id.01, ... *)
Definition fresh_id (ids : list string) : string :=
  default "" (List.find (fun s => negb (bool_decide (s ∈ ids)))
                        (suffixed "id" <$> seq 0 (S (length ids)))).

Definition host : Host :=
  {| unique_name_in := fresh_id;
     get_channel_default_value := fun _ _ => None;
     socket_type_bl_enum := fun s => s;
     group_output_link_default := fun _ ns => ns;
     set_node_group_vector_defaults := fun t => nt_nodes t;
     allocate_image_to_layer := fun _ i => ("image", Z.of_nat (i mod 3));
     show_previews := true;
     shader_inputs := ["Base Color"; "Roughness"; "Normal"];
     stack_get_layer_above := fun _ _ => None;
     stack_get_layer_below := fun _ _ => None |}.

Definition stack : LayerStack :=
  {| stack_identifier := "stack";
     stack_channels := [color; roughness; normal];
     material_name := "Material" |}.

(** A document with a stack and the given slots. *)
Definition world (ls : list MaterialLayer) : World :=
  {| pml_layer_stack := Some stack; layers := ls; warnings := [] |}.

(** A document with a stack and [n] fresh slots. *)
Definition fresh (n : nat) : World := world (replicate n default_layer).

(** A layer in use, of identifier [id], with a node tree of the given
    outputs and no channel. *)
Definition tree (outs : list Socket) : NodeTree :=
  {| nt_name := ".Layer"; nt_outputs := outs; nt_nodes := [] |}.
Definition live (id : string) (outs : list Socket) : MaterialLayer :=
  with_node_tree (Some (tree outs)) (with_identifier id default_layer).


(** A stack of [n] layers in use, each the child of the one before it. *)
Definition chain_layer (k : nat) : MaterialLayer :=
  with_parent (match k with
               | 0 => default_ref
               | S k' => {| ref_name := suffixed "L" k'; ref_layer_stack_id := Some "stack" |}
               end)
    (with_identifier (suffixed "L" k) default_layer).

Definition chain (n : nat) : list MaterialLayer := chain_layer <$> seq 0 n.

(** Two layers, each the parent of the other. *)
Definition cycle : list MaterialLayer :=
  [with_parent {| ref_name := "b"; ref_layer_stack_id := Some "stack" |}
     (with_identifier "a" default_layer);
   with_parent {| ref_name := "a"; ref_layer_stack_id := Some "stack" |}
     (with_identifier "b" default_layer)].


(** root (slot 0) has the children A (1) and B (2); A has the child A1 (3);
    B has the children B1 (4) and B2 (5). *)
Definition node (id : string) (kids : list string) : MaterialLayer :=
  with_children ((fun k => {| ref_name := k; ref_layer_stack_id := Some "stack" |}) <$> kids)
    (with_identifier id default_layer).

Definition family : list MaterialLayer :=
  [node "root" ["A"; "B"]; node "A" ["A1"]; node "B" ["B1"; "B2"];
   node "A1" []; node "B1" []; node "B2" []].


(** root (slot 0) with the children A (1) and B (2), which name it as
    their parent. *)
Definition brood : list MaterialLayer :=
  [node "root" ["A"; "B"];
   with_parent {| ref_name := "root"; ref_layer_stack_id := Some "stack" |} (node "A" []);
   with_parent {| ref_name := "root"; ref_layer_stack_id := Some "stack" |} (node "B" [])].


(** The document after a paint layer with the three channels of the stack
    is initialized in its only slot. *)
Definition painted : World :=
  Eval cbv in
    match initialize host 2 0 "Layer" "MATERIAL_PAINT"
            (Some [color; roughness; normal]) true (fresh 1) with
    | Ret _ w => w
    | _ => fresh 1
    end.

(** A layer in use whose preview material has lost its nodes. *)
Definition damaged : MaterialLayer :=
  with_preview_material
    (Some {| ma_name := ".Material.Layer.preview"; ma_nodes := []; ma_links := [] |})
    (live "id.00" []).


End Demo.

(** ** Notions used to state the properties *)

(** The world [w] with [l] in slot [i]. *)
Definition upd (i : nat) (l : MaterialLayer) (w : World) : World :=
  with_layers (<[i:=l]> (layers w)) w.

(** What [_ensure_node_tree_output] for channel [c] makes of the tree [t]:
    an output of the name of [c] is kept in its place, or else appended. *)
Definition ensured (c : Channel) (t t' : NodeTree) : Prop :=
  nt_name t' = nt_name t
  /\ (((ch_name c ∈ (sock_name <$> nt_outputs t))
       /\ (sock_name <$> nt_outputs t') = (sock_name <$> nt_outputs t))
      \/ ((ch_name c ∉ (sock_name <$> nt_outputs t))
          /\ exists o, nt_outputs t' = nt_outputs t ++ [o] /\ sock_name o = ch_name c)).

(** The tree without its first output of name [n]. *)
Definition remove_output (n : string) (t : NodeTree) : NodeTree :=
  match coll_find sock_name n (nt_outputs t) with
  | Some j => with_outputs (coll_remove j (nt_outputs t)) t
  | None => t
  end.

(** The active index that [remove_channel] computes when it has removed the
    channel at [ch_idx] and [len] channels are left. *)
Definition clamp_index (ch_idx : nat) (a : Z) (len : nat) : Z :=
  Z.max (Z.min (if (Z.of_nat ch_idx <? a)%Z then (a - 1)%Z else a) (Z.of_nat len - 1)) 0.

(** Reading back the digits that [fmt02] writes. *)
Definition parse_nat (s : string) : option nat := Nat.of_uint <$> NilEmpty.uint_of_string s.

(** [k] is the first number from 1 whose suffixed name no layer has. *)
Definition first_free (base : string) (ls : list MaterialLayer) (k : nat) : Prop :=
  1 <= k /\ (suffixed base k ∉ (name <$> ls))
  /\ forall j, 1 <= j < k -> suffixed base j ∈ (name <$> ls).

(** Some other layer in use has the name of [self]: the condition under
    which [_get_unique_name] adds a suffix. *)
Definition collides (ls : list MaterialLayer) (self : MaterialLayer) : Prop :=
  exists x, x ∈ ls /\ name x = name self /\ identifier x <> identifier self
            /\ identifier x <> "".

(** The name that [_get_unique_name] gives [self] among the layers [ls]. *)
Definition unique_name_of (ls : list MaterialLayer) (self : MaterialLayer) (nm : string) : Prop :=
  (~ collides ls self /\ nm = name self)
  \/ (collides ls self /\ exists k, first_free (name self) ls k /\ nm = suffixed (name self) k).

(** The layer [l] once [_update_name] has settled its name to [nm]: the
    node tree, if any, is named after it. *)
Definition renamed (nm : string) (l : MaterialLayer) : MaterialLayer :=
  with_node_tree (rename_tree ("." +:+ nm) <$> node_tree l) (with_name nm l).

(** [Q] holds of the value and the world in which [m] returns from [w],
    whenever it returns. *)
Definition wlp {A} (m : M A) (Q : A -> World -> Prop) (w : World) : Prop :=
  forall a w', m w = Ret a w' -> Q a w'.

(** Slot [i] of the list holds a layer of which [P] is true. *)
Definition slot_at (i : nat) (P : MaterialLayer -> Prop) (ls : list MaterialLayer) : Prop :=
  exists l, ls !! i = Some l /\ P l.

Definition layer_at (i : nat) (P : MaterialLayer -> Prop) (w : World) : Prop :=
  slot_at i P (layers w).

(** The bounds of the active index: between 0 and the last index of the
    channels, and 0 when there is no channel. *)
Definition index_ok (l : MaterialLayer) : Prop :=
  match channels l with
  | [] => active_channel_index l = 0%Z
  | _ :: _ => (0 <= active_channel_index l <= Z.of_nat (length (channels l)) - 1)%Z
  end.

(** Predicates on a layer that look at its channels and its active index only. *)
Definition on_channels (Q : list Channel -> Z -> Prop) (l : MaterialLayer) : Prop :=
  Q (channels l) (active_channel_index l).

(** The operations of the channel-index invariant, and a run of them on the
    layer of slot [i]. *)
Inductive Op :=
  | OpInitialize (name' layer_type' : string) (channels' : option (list Channel))
      (enabled_channels_only : bool)
  | OpAddChannel (arg : PyArg)
  | OpRemoveChannel (arg : PyArg)
  | OpClearChannels.

Definition run_op (host : Host) (depth i : nat) (op : Op) : M unit :=
  match op with
  | OpInitialize n t c e => initialize host depth i n t c e
  | OpAddChannel a => add_channel host i a;; mret tt
  | OpRemoveChannel a => remove_channel i a
  | OpClearChannels => clear_channels i
  end.

(** The number of ancestors of the layer of slot [i], by a walk up the
    parent links of at most [fuel] layers. *)
Fixpoint count_ancestors (fuel : nat) (w : World) (i : nat) : option nat :=
  match fuel with
  | 0 => None
  | S fuel' =>
      match layers w !! i with
      | None => None
      | Some l =>
          if negb (ref_bool (parent l)) then Some 0
          else match resolve_layer (parent l) w with
               | Ret p _ => S <$> count_ancestors fuel' w p
               | _ => None
               end
      end
  end.

(** For each reference in order: the descendents of the child it resolves
    to, by [rec], then the child itself. *)
Fixpoint emit_children (rec : nat -> option (list nat)) (w : World)
    (rs : list MaterialLayerRef) : option (list nat) :=
  match rs with
  | [] => Some []
  | r :: rs' =>
      match resolve_layer r w with
      | Ret c _ =>
          ds ← rec c; rest ← emit_children rec w rs'; Some (ds ++ c :: rest)
      | _ => None
      end
  end.

(** The list of descendents as the specification defines it, for a
    hierarchy of height below [fuel] whose children all resolve. *)
Fixpoint descendents_spec (fuel : nat) (w : World) (i : nat) : option (list nat) :=
  match fuel with
  | 0 => None
  | S fuel' =>
      l ← layers w !! i; emit_children (descendents_spec fuel' w) w (children l)
  end.

(** The layer [l] with other channels, node tree and preview material. *)
Definition reshape (chs : list Channel) (t : NodeTree) (pm : option Material)
    (l : MaterialLayer) : MaterialLayer :=
  with_preview_material pm (with_node_tree (Some t) (with_channels chs l)).

(** What [initialize] makes of the layer [l]: the fields it assigns. *)
Definition initialized_from (host : Host) (ty : string) (ids : list string)
    (l l1 : MaterialLayer) : Prop :=
  identifier l1 = unique_name_in host ids
  /\ enabled l1 = true /\ opacity l1 = 1%Q /\ layer_type l1 = ty
  /\ active_channel_index l1 = 0%Z
  /\ parent l1 = parent l /\ children l1 = children l
  /\ node_mask l1 = node_mask l /\ is_baked l1 = is_baked l
  /\ (has_image l1 = true \/ (image l1 = image l /\ image_channel l1 = image_channel l)).

(** What [delete] leaves of the layer [l]. *)
Definition deleted (l : MaterialLayer) : MaterialLayer :=
  {| name := ""; identifier := ""; enabled := enabled l; opacity := opacity l;
     layer_type := layer_type l; channels := [];
     active_channel_index := active_channel_index l;
     preview_material := None; node_tree := None; node_mask := None;
     image := None; image_channel := (-1)%Z; is_baked := false;
     parent := ref_set None; children := [] |}.

(** The layer that [initialize] with type [ty] followed by [delete] leaves
    in the slot. *)
Definition recycled (ty : string) : MaterialLayer :=
  {| name := ""; identifier := ""; enabled := true; opacity := 1%Q;
     layer_type := ty; channels := []; active_channel_index := 0%Z;
     preview_material := None; node_tree := None; node_mask := None;
     image := None; image_channel := (-1)%Z; is_baked := false;
     parent := {| ref_name := ""; ref_layer_stack_id := Some "" |};
     children := [] |}.

(** The layer [n] parent links above the layer of slot [i]. *)
Fixpoint nth_ancestor (n : nat) (w : World) (i : nat) : option nat :=
  match n with
  | 0 => Some i
  | S n' =>
      l ← layers w !! i;
      match resolve_layer (parent l) w with
      | Ret p _ => nth_ancestor n' w p
      | _ => None
      end
  end.

(** The names held by the parent references on the first [n] links up
    from the layer of slot [i]. *)
Fixpoint parent_names (n : nat) (w : World) (i : nat) : list string :=
  match n with
  | 0 => []
  | S n' =>
      match layers w !! i with
      | None => []
      | Some l =>
          ref_name (parent l) ::
          match resolve_layer (parent l) w with
          | Ret p _ => parent_names n' w p
          | _ => []
          end
      end
  end.

(** What [_ensure_node_tree_output] for channel [c] makes of the output [o]
    it found or created. *)
Definition ensured_socket (host : Host) (s : LayerStack) (c : Channel) (o : Socket) : Socket :=
  let ty := socket_type_bl_enum host (ch_socket_type c) in
  let o := if negb (String.eqb (sock_type o) ty) then socket_retype ty o else o in
  let o := if String.eqb (ch_socket_type c) "VECTOR" then socket_hide o
           else if String.eqb (ch_socket_type c) "FLOAT_FACTOR" then socket_range 0 1 o
           else o in
  match get_channel_default_value host s c with
  | Some v => socket_default v o
  | None => o
  end.

(** The identifier of the layer is [id0], or it is empty: what a slot of
    identifier [id0] can become while layers are deleted. *)
Definition blank_or (id0 : string) (l : MaterialLayer) : Prop :=
  identifier l = id0 \/ identifier l = "".

(** Every slot of [w] is still there in [w'], with its identifier or none. *)
Definition blanked (w w' : World) : Prop :=
  forall k l, layers w !! k = Some l -> layer_at k (blank_or (identifier l)) w'.

(** What [delete] leaves of a layer in use, but for its name, its type, its
    opacity, whether it is enabled, and its active channel index. *)
Definition cleared (l : MaterialLayer) : Prop :=
  identifier l = "" /\ image l = None /\ image_channel l = (-1)%Z
  /\ channels l = [] /\ children l = [] /\ ref_bool (parent l) = false
  /\ node_tree l = None /\ node_mask l = None /\ preview_material l = None
  /\ is_baked l = false.

(** The names [ns] with those of the channels [cs] appended in order, each
    name once. *)
Definition add_names (ns : list string) (cs : list Channel) : list string :=
  foldl (fun ns c => if bool_decide (ch_name c ∈ ns) then ns else ns ++ [ch_name c]) ns cs.

(** The channels that [initialize] adds of those it is given. *)
Definition requested (chans : option (list Channel)) (enabled_channels_only : bool)
    : list Channel :=
  match chans with
  | Some chs => List.filter (fun ch => ch_enabled ch || negb enabled_channels_only) chs
  | None => []
  end.

(** No two channels of the layer have the same name. *)
Definition unique_names : MaterialLayer -> Prop :=
  on_channels (fun chs _ => NoDup (ch_name <$> chs)).

(** The channel [c] of a layer with the [enabled] of the channel of its name
    in the stack, if there is one. *)
Definition sync_enabled (s : LayerStack) (c : Channel) : Channel :=
  match coll_get ch_name (ch_name c) (stack_channels s) with
  | Some stack_ch => channel_enable (ch_enabled stack_ch) c
  | None => c
  end.



(** * Properties *)

(** ** The monad *)

Lemma bind_unfold {A B} (c : M A) (f : A -> M B) (w : World) :
  (c ≫= f) w = match c w with
               | Ret a w' => f a w'
               | Raise e w' => Raise e w'
               | Diverge => Diverge
               end.
Proof. reflexivity. Qed.

Lemma bind_Ret {A B} (c : M A) (f : A -> M B) (w w' : World) (a : A) :
  c w = Ret a w' -> (c ≫= f) w = f a w'.
Proof. intros H. by rewrite bind_unfold, H. Qed.

Lemma bind_Raise {A B} (c : M A) (f : A -> M B) (w w' : World) (e : Exn) :
  c w = Raise e w' -> (c ≫= f) w = Raise e w'.
Proof. intros H. by rewrite bind_unfold, H. Qed.

Lemma self_layer_Some (i : nat) (w : World) (l : MaterialLayer) :
  layers w !! i = Some l -> self_layer i w = Ret l w.
Proof. intros H. unfold self_layer. by rewrite H. Qed.

Lemma modify_unfold (i : nat) (f : MaterialLayer -> MaterialLayer) (w : World) :
  modify i f w = Ret tt (with_layers (alter f i (layers w)) w).
Proof. reflexivity. Qed.

Lemma with_layers_id (w : World) : with_layers (layers w) w = w.
Proof. by destruct w. Qed.

(** ** Collections keyed by name *)

Section CollectionFacts.
Context {A : Type} (key : A -> string).

Lemma coll_find_Some (n : string) (l : list A) (k : nat) :
  coll_find key n l = Some k ->
  exists x, l !! k = Some x /\ key x = n
            /\ forall j y, j < k -> l !! j = Some y -> key y <> n.
Proof.
  revert k. induction l as [|a l IH]; intros k; simpl; [done|].
  destruct (String.eqb (key a) n) eqn:E.
  - intros [= <-]. exists a. apply String.eqb_eq in E. split_and!; [done|done|lia].
  - destruct (coll_find key n l) as [k'|] eqn:F; simpl; [|done].
    intros [= <-]. destruct (IH k' eq_refl) as (x & Hx & Hk & Hlt).
    exists x. split_and!; [done|done|].
    intros [|j] y Hj; simpl.
    + intros [= ->]. by apply String.eqb_neq.
    + apply Hlt. lia.
Qed.

Lemma coll_find_None (n : string) (l : list A) :
  coll_find key n l = None <-> n ∉ key <$> l.
Proof.
  induction l as [|a l IH]; simpl.
  - split; [intros _; apply not_elem_of_nil | done].
  - rewrite not_elem_of_cons. destruct (String.eqb (key a) n) eqn:E.
    + apply String.eqb_eq in E. split; [done | intros [? _]; congruence].
    + apply String.eqb_neq in E. destruct (coll_find key n l); simpl.
      * split; [done | intros [_ H]; by apply IH in H].
      * split; [intros _; split; [congruence | by apply IH] | done].
Qed.

Lemma coll_find_lt (n : string) (l : list A) (k : nat) :
  coll_find key n l = Some k -> k < length l.
Proof.
  intros H. destruct (coll_find_Some _ _ _ H) as (x & Hx & _).
  by eapply lookup_lt_Some.
Qed.

Lemma coll_get_Some (n : string) (l : list A) (x : A) :
  coll_get key n l = Some x -> x ∈ l /\ key x = n.
Proof.
  unfold coll_get. destruct (coll_find key n l) as [k|] eqn:F; simpl; [|done].
  intros Hk. destruct (coll_find_Some _ _ _ F) as (y & Hy & Hn & _).
  assert (y = x) as -> by congruence.
  split; [by eapply list_elem_of_lookup_2 | done].
Qed.

Lemma coll_get_is_Some (n : string) (l : list A) :
  n ∈ key <$> l -> is_Some (coll_get key n l).
Proof.
  intros Hin. unfold coll_get.
  destruct (coll_find key n l) as [k|] eqn:F; simpl.
  - destruct (coll_find_Some _ _ _ F) as (y & Hy & _). by rewrite Hy.
  - by apply coll_find_None in F.
Qed.

Lemma coll_contains_true (n : string) (l : list A) :
  coll_contains key n l = true <-> n ∈ key <$> l.
Proof.
  unfold coll_contains. destruct (coll_find key n l) eqn:F.
  - split; [intros _ | done].
    destruct (decide (n ∈ key <$> l)) as [|Hn]; [done|].
    apply coll_find_None in Hn. congruence.
  - split; [done|]. intros Hin. by apply coll_find_None in F.
Qed.

Lemma coll_contains_false (n : string) (l : list A) :
  coll_contains key n l = false <-> n ∉ key <$> l.
Proof.
  rewrite <- coll_contains_true. by destruct (coll_contains key n l).
Qed.

Lemma coll_find_app_new (n : string) (l : list A) (x : A) :
  n ∉ key <$> l -> key x = n -> coll_find key n (l ++ [x]) = Some (length l).
Proof.
  intros Hn Hx. induction l as [|a l IH]; simpl.
  - by rewrite Hx, String.eqb_refl.
  - simpl in Hn. apply not_elem_of_cons in Hn as [Hne Hn].
    destruct (String.eqb (key a) n) eqn:E.
    + apply String.eqb_eq in E. congruence.
    + by rewrite IH.
Qed.
End CollectionFacts.

(** ** Equality of layers *)

(** C9. Two layers compare equal exactly when their identifiers are the
    same string; hence two uninitialized layers are equal, and an
    initialized layer is never equal to an uninitialized one. *)
Theorem MaterialLayer_eq_identifier (a b : MaterialLayer) :
  (MaterialLayer_eq a (ObjLayer b) = true <-> identifier a = identifier b)
  /\ (is_initialized a = false -> is_initialized b = false ->
      MaterialLayer_eq a (ObjLayer b) = true)
  /\ (is_initialized a = true -> is_initialized b = false ->
      MaterialLayer_eq a (ObjLayer b) = false).
Proof.
  assert (Hiff : MaterialLayer_eq a (ObjLayer b) = true <-> identifier a = identifier b).
  { simpl. rewrite String.eqb_eq. split; congruence. }
  assert (Hun : forall l, is_initialized l = false <-> identifier l = "").
  { intros l. unfold is_initialized, str_bool. rewrite negb_false_iff. apply String.eqb_eq. }
  split_and!; [done | |].
  - intros Ha Hb. apply Hiff. apply Hun in Ha, Hb. congruence.
  - intros Ha Hb. apply Hun in Hb. apply not_true_is_false. intros He.
    apply Hiff in He. rewrite <- He in Hb. apply Hun in Hb. congruence.
Qed.

Lemma MaterialLayer_eq_identifier_witness :
  MaterialLayer_eq default_layer (ObjLayer (with_name "Other" default_layer)) = true
  /\ MaterialLayer_eq (with_identifier "ab12" default_layer) (ObjLayer default_layer) = false.
Proof.
  split.
  - apply (MaterialLayer_eq_identifier default_layer (with_name "Other" default_layer));
      reflexivity.
  - apply (MaterialLayer_eq_identifier (with_identifier "ab12" default_layer) default_layer);
      reflexivity.
Defined.

(** ** Failure of [initialize] *)

(** C10. When [initialize] is refused because the layer has no stack, is
    already initialized, or is given an unknown layer type, it raises in the
    world it was called in: no stored field of any layer has changed. *)
Theorem initialize_atomic_on_failure (host : Host) (depth i : nat)
    (name' layer_type' : string) (channels' : option (list Channel))
    (enabled_channels_only : bool) (w : World) (l : MaterialLayer) :
  layers w !! i = Some l ->
  pml_layer_stack w = None \/ is_initialized l = true
    \/ layer_type' ∉ _VALID_LAYER_TYPES ->
  exists e, (e = RuntimeError \/ e = ValueError)
    /\ initialize host depth i name' layer_type' channels' enabled_channels_only w
       = Raise e w.
Proof.
  intros Hl Hcase. unfold initialize. rewrite bind_unfold. unfold layer_stack.
  destruct (pml_layer_stack w) as [s|] eqn:Hs.
  - rewrite (bind_Ret _ _ _ _ _ (self_layer_Some _ _ _ Hl)).
    destruct (is_initialized l) eqn:Hi.
    + exists RuntimeError. by split; [left|].
    + destruct Hcase as [|[|Hty]]; [done|done|].
      rewrite bool_decide_eq_false_2 by done. exists ValueError. by split; [right|].
  - exists RuntimeError. by split; [left|].
Qed.

Lemma initialize_atomic_on_failure_witness :
  exists e, (e = RuntimeError \/ e = ValueError)
    /\ initialize Demo.host 2 0 "Layer" "MATERIAL_MASK" None true (Demo.fresh 1)
       = Raise e (Demo.fresh 1).
Proof.
  apply (initialize_atomic_on_failure Demo.host 2 0 "Layer" "MATERIAL_MASK" None true
           (Demo.fresh 1) default_layer).
  - reflexivity.
  - right; right. apply (bool_decide_unpack _). vm_compute. exact I.
Defined.

(** ** Adding a channel that is there already *)

(** C7. [add_channel] with a channel whose name a channel of the layer has
    does not raise: it returns that channel, and the world after the call is
    the world before it with one warning more. *)
Theorem add_channel_existing (host : Host) (i : nat) (c : Channel) (w : World)
    (l : MaterialLayer) :
  layers w !! i = Some l ->
  ch_name c ∈ ch_name <$> channels l ->
  exists existing msg,
    coll_get ch_name (ch_name c) (channels l) = Some existing
    /\ existing ∈ channels l /\ ch_name existing = ch_name c
    /\ add_channel host i (ArgChannel c) w
       = Ret existing (with_warnings (warnings w ++ [msg]) w)
    /\ layers (with_warnings (warnings w ++ [msg]) w) = layers w
    /\ pml_layer_stack (with_warnings (warnings w ++ [msg]) w) = pml_layer_stack w.
Proof.
  intros Hl Hin.
  destruct (coll_get_is_Some ch_name _ _ Hin) as [existing Hex].
  destruct (coll_get_Some ch_name _ _ _ Hex) as [Hmem Hname].
  exists existing. eexists. split_and!; [done|done|done| |done|done].
  unfold add_channel. rewrite (bind_Ret _ _ _ _ _ (self_layer_Some _ _ _ Hl)).
  rewrite Hex. reflexivity.
Qed.

Lemma add_channel_existing_witness :
  exists existing msg,
    coll_get ch_name "Roughness" [Demo.color; Demo.roughness] = Some existing
    /\ existing ∈ [Demo.color; Demo.roughness] /\ ch_name existing = "Roughness"
    /\ add_channel Demo.host 0 (ArgChannel (Demo.channel "Roughness" "FLOAT"))
         (Demo.world [with_channels [Demo.color; Demo.roughness] default_layer])
       = Ret existing
           (with_warnings ([] ++ [msg])
              (Demo.world [with_channels [Demo.color; Demo.roughness] default_layer]))
    /\ layers (with_warnings ([] ++ [msg])
                 (Demo.world [with_channels [Demo.color; Demo.roughness] default_layer]))
       = [with_channels [Demo.color; Demo.roughness] default_layer]
    /\ pml_layer_stack (with_warnings ([] ++ [msg])
                 (Demo.world [with_channels [Demo.color; Demo.roughness] default_layer]))
       = Some Demo.stack.
Proof.
  apply (add_channel_existing Demo.host 0 (Demo.channel "Roughness" "FLOAT")
           (Demo.world [with_channels [Demo.color; Demo.roughness] default_layer])
           (with_channels [Demo.color; Demo.roughness] default_layer)).
  - reflexivity.
  - apply (bool_decide_unpack _). vm_compute. exact I.
Defined.

(** ** Running the methods on the layer of a slot *)

Lemma upd_id i l w : layers w !! i = Some l -> upd i l w = w.
Proof. intros H. unfold upd. rewrite list_insert_id by done. apply with_layers_id. Qed.

Lemma upd_upd i l1 l2 w : upd i l2 (upd i l1 w) = upd i l2 w.
Proof. unfold upd, with_layers; simpl. by rewrite list_insert_insert_eq. Qed.

Lemma layers_upd i l w : i < length (layers w) -> layers (upd i l w) !! i = Some l.
Proof. intros H. simpl. by apply list_lookup_insert_eq. Qed.

Lemma self_layer_upd i l w :
  i < length (layers w) -> self_layer i (upd i l w) = Ret l (upd i l w).
Proof. intros H. apply self_layer_Some. by apply layers_upd. Qed.

Lemma modify_upd i f l w :
  modify i f (upd i l w) = Ret tt (upd i (f l) w).
Proof.
  unfold modify, upd, with_layers; simpl. do 2 f_equal.
  rewrite !list_insert_alter, list_alter_alter_eq. reflexivity.
Qed.

Lemma the_layer_stack_upd i l w s :
  pml_layer_stack w = Some s -> the_layer_stack (upd i l w) = Ret s (upd i l w).
Proof. intros H. unfold the_layer_stack. rewrite bind_unfold. unfold layer_stack. simpl. by rewrite H. Qed.

Lemma the_node_tree_upd i l w t :
  i < length (layers w) -> node_tree l = Some t -> the_node_tree i (upd i l w) = Ret t (upd i l w).
Proof. intros H Ht. unfold the_node_tree. rewrite bind_unfold, self_layer_upd by done. by rewrite Ht. Qed.

Lemma modify_tree_upd i f l w :
  modify_tree i f (upd i l w) = Ret tt (upd i (with_node_tree (f <$> node_tree l) l) w).
Proof. unfold modify_tree. by rewrite modify_upd. Qed.


Lemma warn_upd i l w msg :
  warn msg (upd i l w) = Ret tt (upd i l (with_warnings (warnings w ++ [msg]) w)).
Proof. reflexivity. Qed.

Lemma mret_unfold {A} (a : A) (w : World) : (mret a : M A) w = Ret a w.
Proof. reflexivity. Qed.

Ltac mstep :=
  first [ rewrite self_layer_upd by done
        | rewrite modify_tree_upd
        | rewrite modify_upd
        | erewrite the_layer_stack_upd by done
        | erewrite the_node_tree_upd by
            (try done; simpl;
             repeat match goal with H : node_tree _ = Some _ |- _ => rewrite H end;
             simpl; reflexivity)
        | rewrite warn_upd
        | rewrite mret_unfold
        | rewrite bind_unfold ];
  cbv beta iota.

Lemma fmap_alter_key {A} (key : A -> string) (f : A -> A) (k : nat) (l : list A) :
  (forall x, key (f x) = key x) -> key <$> alter f k l = key <$> l.
Proof.
  intros Hf. revert k. induction l as [|a l IH]; intros [|k]; simpl; try done.
  - by rewrite Hf.
  - f_equal. apply IH.
Qed.

Lemma alter_app_last {A} (f : A -> A) (l : list A) (x : A) :
  alter f (length l) (l ++ [x]) = l ++ [f x].
Proof. induction l as [|a l IH]; simpl; [done|]. f_equal. apply IH. Qed.

Lemma ensure_output_run (host : Host) i c w l t s :
  i < length (layers w) -> pml_layer_stack w = Some s -> node_tree l = Some t ->
  exists t', _ensure_node_tree_output host i c (upd i l w)
             = Ret tt (upd i (with_node_tree (Some t') l) w)
             /\ ensured c t t'.
Proof.
  intros Hi Hs Ht. unfold _ensure_node_tree_output. repeat mstep.
  destruct (coll_find sock_name (ch_name c) (nt_outputs t)) as [k|] eqn:Hf.
  - assert (Hin : ch_name c ∈ sock_name <$> nt_outputs t).
    { apply (coll_contains_true sock_name). unfold coll_contains. by rewrite Hf. }
    repeat mstep.
    destruct (String.eqb (ch_socket_type c) "VECTOR");
      [|destruct (String.eqb (ch_socket_type c) "FLOAT_FACTOR")];
      repeat mstep;
      (destruct (get_channel_default_value host s c); repeat mstep;
       simpl; rewrite ?Ht; simpl;
       match goal with
       | |- context [ match ?o with Some _ => _ | None => _ end ] => destruct o
       end; repeat mstep; simpl; rewrite ?Ht; simpl;
       (eexists; split; [reflexivity|]; split; [done|]; left; split; [done|]; simpl;
        rewrite ?fmap_alter_key; try done;
        try (by intros []); intros o; by destruct (negb _))).
  - assert (Hin : ch_name c ∉ sock_name <$> nt_outputs t) by (by apply coll_find_None).
    repeat mstep.
    destruct (String.eqb (ch_socket_type c) "VECTOR");
      [|destruct (String.eqb (ch_socket_type c) "FLOAT_FACTOR")];
      repeat mstep;
      (destruct (get_channel_default_value host s c); repeat mstep;
       simpl; rewrite ?Ht; simpl; rewrite ?alter_app_last;
       rewrite lookup_app_r, Nat.sub_diag by done; simpl;
       repeat mstep; simpl; rewrite ?Ht; simpl; rewrite ?alter_app_last;
       (eexists; split; [reflexivity|]; split; [done|]; right; split; [done|]; simpl;
        eexists; split; [reflexivity|done])).
Qed.


Lemma with_preview_material_id l : with_preview_material (preview_material l) l = l.
Proof. by destruct l. Qed.

Lemma with_warnings_id w : with_warnings (warnings w) w = w.
Proof. by destruct w. Qed.

Lemma create_preview_run (host : Host) i w l s :
  i < length (layers w) -> pml_layer_stack w = Some s ->
  exists pm, _create_preview_material host i (upd i l w)
             = Ret tt (upd i (with_preview_material pm l) w)
             /\ (is_Some (node_tree l) -> is_Some pm).
Proof.
  intros Hi Hs. unfold _create_preview_material. repeat mstep.
  destruct (node_tree l) as [t|] eqn:Ht.
  - destruct (preview_material l) as [ma|] eqn:Hm; repeat mstep; simpl; rewrite ?Hm; simpl;
      (eexists; split; [reflexivity|done]).
  - repeat mstep. exists (preview_material l). rewrite with_preview_material_id.
    split; [done|]. by intros [? [=]].
Qed.

Lemma refresh_preview_run (host : Host) i w l s :
  i < length (layers w) -> pml_layer_stack w = Some s ->
  exists pm ws, _refresh_preview_material host i (upd i l w)
             = Ret tt (upd i (with_preview_material pm l) (with_warnings ws w))
             /\ (is_Some (preview_material l) -> is_Some (node_tree l) -> is_Some pm).
Proof.
  intros Hi Hs. unfold _refresh_preview_material. repeat mstep.
  destruct (preview_material l) as [ma|] eqn:Hm.
  - destruct (bool_decide _ && bool_decide _).
    + repeat mstep. eexists _, (warnings w). rewrite with_warnings_id.
      split; [reflexivity|]. by eexists.
    + repeat mstep.
      edestruct (create_preview_run host i
                   (with_warnings (warnings w ++
                      ["Error refreshing preview material. Recreating material node tree."]) w)
                   l s) as (pm & Hrun & Hpm); [done|done|].
      rewrite Hrun. exists pm. eexists. split; [reflexivity|]. intros _. apply Hpm.
  - repeat mstep. exists None, (warnings w). rewrite with_warnings_id.
    split; [|by intros [? [=]]].
    by rewrite <- Hm, with_preview_material_id.
Qed.

Lemma coll_get_None {A} (key : A -> string) n (l : list A) :
  n ∉ key <$> l -> coll_get key n l = None.
Proof. intros H. unfold coll_get. apply coll_find_None in H. by rewrite H. Qed.

Lemma add_channel_new_run (host : Host) i c w l t s :
  i < length (layers w) -> pml_layer_stack w = Some s -> node_tree l = Some t ->
  ch_name c ∉ ch_name <$> channels l ->
  exists t' pm ws,
    add_channel host i (ArgChannel c) (upd i l w)
    = Ret (init_from_channel c)
        (upd i (with_preview_material pm (with_node_tree (Some t')
                  (with_channels (channels l ++ [init_from_channel c]) l)))
           (with_warnings ws w))
    /\ ensured c t t'
    /\ (is_Some (preview_material l) -> is_Some pm).
Proof.
  intros Hi Hs Ht Hc. unfold add_channel. repeat mstep.
  rewrite (coll_get_None _ _ _ Hc). repeat mstep.
  match goal with
  | |- context [ _ensure_node_tree_output host i c (upd i ?L ?W) ] =>
      destruct (ensure_output_run host i c W L t s) as (t' & Hrun & Hens); [done..|]
  end.
  rewrite Hrun. repeat mstep.
  match goal with
  | |- context [ _refresh_preview_material host i (upd i ?L ?W) ] =>
      destruct (refresh_preview_run host i W L s) as (pm & ws & Hrun2 & Hpm); [done..|]
  end.
  rewrite Hrun2. repeat mstep. simpl.
  rewrite length_app, Nat.add_sub, lookup_app_r, Nat.sub_diag by done. simpl.
  exists t', pm, ws. split; [reflexivity|]. split; [done|].
  intros Hsome. apply Hpm; [done|]. by eexists.
Qed.

Lemma coll_remove_app_last {A} (l : list A) (x : A) : coll_remove (length l) (l ++ [x]) = l.
Proof. induction l as [|a l IH]; simpl; [done|]. f_equal. apply IH. Qed.

Lemma coll_remove_alter {A} (f : A -> A) (k : nat) (l : list A) :
  coll_remove k (alter f k l) = coll_remove k l.
Proof. revert k. induction l as [|a l IH]; intros [|k]; simpl; try done. f_equal. apply IH. Qed.

Lemma remove_channel_run i n w l t k :
  i < length (layers w) -> node_tree l = Some t ->
  coll_find ch_name n (channels l) = Some k ->
  remove_channel i (ArgStr n) (upd i l w)
  = Ret tt (upd i (with_active_channel_index
                     (clamp_index k (active_channel_index l) (length (channels l) - 1))
                     (with_node_tree (Some (remove_output n t))
                        (with_channels (coll_remove k (channels l)) l))) w).
Proof.
  intros Hi Ht Hk. unfold remove_channel. repeat mstep.
  assert (Hg : is_Some (coll_get ch_name n (channels l))).
  { apply coll_get_is_Some. apply (coll_contains_true ch_name). unfold coll_contains.
    by rewrite Hk. }
  destruct Hg as [x Hx]. rewrite Hx, Hk. repeat mstep. unfold remove_output.
  assert (Hlen : length (coll_remove k (alter Channel_delete k (channels l)))
                 = length (channels l) - 1).
  { unfold coll_remove. rewrite length_delete; [by rewrite length_alter|].
    apply lookup_lt_is_Some. rewrite length_alter. by eapply coll_find_lt. }
  destruct (coll_find sock_name n (nt_outputs t)) as [j|] eqn:Hj; repeat mstep; simpl;
    rewrite ?Ht, ?Hlen; simpl.
  - by rewrite coll_remove_alter.
  - rewrite coll_remove_alter. do 3 f_equal. rewrite <- Ht. by destruct l.
Qed.


(** ** Adding a channel and removing it again *)

(** C6, amended. On a layer with a node tree, for a channel whose name
    neither a channel of the layer nor an output of the tree has,
    [add_channel] followed by [remove_channel] of that name returns, and
    leaves the list of channels and the outputs of the tree as they were. *)
Theorem add_remove_channel_restores (host : Host) (i : nat) (c : Channel) (w : World)
    (l : MaterialLayer) (t : NodeTree) (s : LayerStack) :
  layers w !! i = Some l -> pml_layer_stack w = Some s ->
  node_tree l = Some t ->
  ch_name c ∉ ch_name <$> channels l ->
  ch_name c ∉ sock_name <$> nt_outputs t ->
  exists added w1 w2 l2 t2,
    add_channel host i (ArgChannel c) w = Ret added w1
    /\ remove_channel i (ArgStr (ch_name c)) w1 = Ret tt w2
    /\ layers w2 !! i = Some l2
    /\ channels l2 = channels l
    /\ node_tree l2 = Some t2 /\ nt_outputs t2 = nt_outputs t.
Proof.
  intros Hl Hs Ht Hc Ho.
  assert (Hi : i < length (layers w)) by (by eapply lookup_lt_Some).
  rewrite <- (upd_id _ _ _ Hl).
  destruct (add_channel_new_run host i c w l t s) as (t' & pm & ws & Hadd & Hens & _);
    [done..|].
  destruct Hens as [Hname [[Hin _]|[_ (o & Hout & Hon)]]]; [done|].
  eexists _, _, _, _, _. split; [apply Hadd|].
  rewrite (remove_channel_run i (ch_name c) _ _ t' (length (channels l))); cycle 1.
  { done. } { done. }
  { simpl. by apply coll_find_app_new. }
  split; [reflexivity|]. split; [by apply layers_upd|]. simpl.
  split; [apply coll_remove_app_last|]. split; [reflexivity|].
  unfold remove_output. rewrite Hout.
  rewrite (coll_find_app_new sock_name _ _ _ Ho Hon). simpl.
  apply coll_remove_app_last.
Qed.

Lemma add_remove_channel_restores_witness :
  exists added w1 w2 l2 t2,
    add_channel Demo.host 0 (ArgChannel Demo.roughness)
      (Demo.world [Demo.live "id.00" [new_socket "Base Color" "COLOR"]]) = Ret added w1
    /\ remove_channel 0 (ArgStr "Roughness") w1 = Ret tt w2
    /\ layers w2 !! 0 = Some l2
    /\ channels l2 = []
    /\ node_tree l2 = Some t2 /\ nt_outputs t2 = [new_socket "Base Color" "COLOR"].
Proof.
  apply (add_remove_channel_restores Demo.host 0 Demo.roughness
           (Demo.world [Demo.live "id.00" [new_socket "Base Color" "COLOR"]])
           (Demo.live "id.00" [new_socket "Base Color" "COLOR"])
           (Demo.tree [new_socket "Base Color" "COLOR"]) Demo.stack).
  - reflexivity.
  - reflexivity.
  - reflexivity.
  - apply (bool_decide_unpack _). vm_compute. exact I.
  - apply (bool_decide_unpack _). vm_compute. exact I.
Defined.

(** C6 as stated fails: the tree of the layer has an output "Base Color"
    that no channel of the layer stands for; adding the channel "Base Color"
    reuses that output and removing the channel takes the output away. *)
Lemma add_remove_channel_drops_output :
  ("Base Color" ∉ (ch_name <$> channels (Demo.live "id.00" [new_socket "Base Color" "COLOR"])))
  /\ exists added w1 w2 l2 t2,
       add_channel Demo.host 0 (ArgChannel Demo.color)
         (Demo.world [Demo.live "id.00" [new_socket "Base Color" "COLOR"]]) = Ret added w1
       /\ remove_channel 0 (ArgStr "Base Color") w1 = Ret tt w2
       /\ layers w2 !! 0 = Some l2
       /\ channels l2 = []
       /\ node_tree l2 = Some t2
       /\ nt_outputs t2 = []
       /\ nt_outputs t2 <> [new_socket "Base Color" "COLOR"].
Proof.
  split.
  - apply (bool_decide_unpack _). vm_compute. exact I.
  - eexists _, _, _, _, _.
    split; [cbv; reflexivity|]. split; [cbv; reflexivity|].
    split; [reflexivity|]. split; [reflexivity|]. split; [reflexivity|].
    split; [reflexivity|]. discriminate.
Qed.

(** ** Names unique in the stack *)

Lemma parse_fmt02 (n : nat) : parse_nat (fmt02 n) = Some n.
Proof.
  unfold parse_nat, fmt02. destruct (n <? 10).
  - change (NilEmpty.uint_of_string ("0" +:+ ?x))
      with (NilEmpty.uint_of_string (String "0"%char x)).
    cbn [NilEmpty.uint_of_string]. rewrite NilEmpty.usu. simpl.
    f_equal. apply DecimalNat.Unsigned.of_to.
  - rewrite NilEmpty.usu. simpl. f_equal. apply DecimalNat.Unsigned.of_to.
Qed.

Lemma fmt02_inj (n m : nat) : fmt02 n = fmt02 m -> n = m.
Proof.
  intros H. apply (f_equal parse_nat) in H. rewrite !parse_fmt02 in H. congruence.
Qed.

Lemma append_inj_l (b x y : string) : b +:+ x = b +:+ y -> x = y.
Proof. induction b as [|a b IH]; simpl; [done|]. intros [= H]. by apply IH. Qed.

Lemma suffixed_inj (b : string) (n m : nat) : suffixed b n = suffixed b m -> n = m.
Proof.
  unfold suffixed. intros H. apply append_inj_l in H. simpl in H.
  injection H as H. by apply fmt02_inj.
Qed.

Lemma first_free_suffix_Some fuel base ls n nm :
  first_free_suffix fuel base ls n = Some nm ->
  exists k, n <= k < n + fuel /\ nm = suffixed base k /\ (nm ∉ (name <$> ls))
            /\ forall j, n <= j < k -> suffixed base j ∈ (name <$> ls).
Proof.
  revert n. induction fuel as [|fuel IH]; intros n; simpl; [done|].
  destruct (coll_contains name (suffixed base n) ls) eqn:E; simpl.
  - intros H. destruct (IH _ H) as (k & Hk & -> & Hnot & Hlt).
    exists k. split_and!; [lia|lia|done|done|].
    intros j Hj. destruct (decide (j = n)) as [->|]; [by apply coll_contains_true|].
    apply Hlt. lia.
  - intros [= <-]. exists n. split_and!; [lia|lia|done| |intros; lia].
    by apply coll_contains_false.
Qed.

Lemma first_free_suffix_None fuel base ls n :
  first_free_suffix fuel base ls n = None ->
  forall j, n <= j < n + fuel -> suffixed base j ∈ (name <$> ls).
Proof.
  revert n. induction fuel as [|fuel IH]; intros n; simpl; [intros; lia|].
  destruct (coll_contains name (suffixed base n) ls) eqn:E; simpl; [|done].
  intros H j Hj. destruct (decide (j = n)) as [->|]; [by apply coll_contains_true|].
  apply (IH _ H). lia.
Qed.

Lemma first_free_suffix_total base ls n :
  is_Some (first_free_suffix (S (length ls)) base ls n).
Proof.
  destruct (first_free_suffix (S (length ls)) base ls n) eqn:E; [by eexists|].
  exfalso. pose proof (first_free_suffix_None _ _ _ _ E) as Hall.
  assert (Hsub : (suffixed base <$> seq n (S (length ls))) ⊆+ (name <$> ls)).
  { apply NoDup_submseteq.
    - apply NoDup_fmap_2; [|apply NoDup_seq]. intros ??. apply suffixed_inj.
    - intros x Hx. apply list_elem_of_fmap in Hx as (j & -> & Hj).
      apply elem_of_seq in Hj. apply Hall. lia. }
  apply submseteq_length in Hsub. rewrite !length_fmap, length_seq in Hsub. lia.
Qed.

Lemma str_bool_true s : str_bool s = true <-> s <> "".
Proof. unfold str_bool. rewrite negb_true_iff. apply String.eqb_neq. Qed.

Lemma str_bool_false s : str_bool s = false <-> s = "".
Proof. unfold str_bool. rewrite negb_false_iff. apply String.eqb_eq. Qed.

Lemma find_same_Some ls self x :
  List.find (fun x => String.eqb (name x) (name self)
                      && MaterialLayer_ne x (ObjLayer self)
                      && is_initialized x) ls = Some x ->
  collides ls self.
Proof.
  intros H. apply find_some in H as [Hin Hx].
  apply andb_prop in Hx as [Hx Hinit]. apply andb_prop in Hx as [Hn Hne].
  exists x. split_and!.
  - by apply list_elem_of_In.
  - by apply String.eqb_eq.
  - unfold MaterialLayer_ne, MaterialLayer_eq in Hne. apply negb_true_iff in Hne.
    apply String.eqb_neq in Hne. congruence.
  - by apply str_bool_true.
Qed.

Lemma find_same_None ls self :
  List.find (fun x => String.eqb (name x) (name self)
                      && MaterialLayer_ne x (ObjLayer self)
                      && is_initialized x) ls = None ->
  ~ collides ls self.
Proof.
  intros H (x & Hin & Hn & Hne & Hinit).
  apply list_elem_of_In in Hin. pose proof (find_none _ _ H x Hin) as Hx. simpl in Hx.
  apply String.eqb_eq in Hn. rewrite Hn in Hx. simpl in Hx.
  apply str_bool_true in Hinit. unfold is_initialized in Hx. rewrite Hinit, andb_true_r in Hx.
  apply negb_false_iff, String.eqb_eq in Hx. congruence.
Qed.

Lemma get_world_unfold w : get_world w = Ret w w.
Proof. reflexivity. Qed.

Lemma get_unique_name_run i w l s :
  i < length (layers w) -> pml_layer_stack w = Some s ->
  exists nm, _get_unique_name i (upd i l w) = Ret nm (upd i l w)
             /\ unique_name_of (<[i:=l]> (layers w)) l nm.
Proof.
  intros Hi Hs. unfold _get_unique_name. repeat mstep.
  rewrite get_world_unfold. cbv beta iota zeta.
  change (layers (upd i l w)) with (<[i:=l]> (layers w)).
  destruct (List.find _ _) as [x|] eqn:Hfind.
  - apply find_same_Some in Hfind.
    destruct (first_free_suffix_total (name l) (<[i:=l]> (layers w)) 1) as [nm Hnm].
    rewrite Hnm. exists nm. split; [reflexivity|]. right. split; [done|].
    apply first_free_suffix_Some in Hnm as (k & Hk & -> & Hnot & Hlt).
    exists k. split; [|done]. split_and!; [lia|done|]. intros j Hj. apply Hlt. lia.
  - apply find_same_None in Hfind. exists (name l). split; [reflexivity|]. by left.
Qed.

Lemma assert_true_unfold w : assert true w = Ret tt w.
Proof. reflexivity. Qed.

Lemma with_name_id l : with_name (name l) l = l.
Proof. by destruct l. Qed.

Lemma renamed_None nm l : node_tree l = None -> renamed nm l = with_name nm l.
Proof. intros H. unfold renamed. rewrite H. destruct l; simpl in *. by subst. Qed.

Lemma not_collides_after_rename i ls l nm :
  i < length ls ->
  nm ∉ (name <$> <[i:=l]> ls) ->
  ~ collides (<[i:=with_name nm l]> ls) (with_name nm l).
Proof.
  intros Hi Hnot (x & Hin & Hn & Hne & _). simpl in Hn, Hne.
  apply list_elem_of_lookup in Hin as [j Hj].
  destruct (decide (j = i)) as [->|Hji].
  - rewrite list_lookup_insert_eq in Hj by done. injection Hj as <-. by simpl in Hne.
  - rewrite list_lookup_insert_ne in Hj by done.
    apply Hnot. apply list_elem_of_fmap. exists x. split; [done|].
    apply list_elem_of_lookup. exists j. by rewrite list_lookup_insert_ne.
Qed.

Lemma unique_name_of_fresh ls l : ~ collides ls l -> forall nm, unique_name_of ls l nm -> nm = name l.
Proof. intros Hn nm [[_ ->]|[Hc _]]; [done|by destruct Hn]. Qed.

Lemma update_name_unfold depth i :
  _update_name (S depth) i =
  (unique_name ← _get_unique_name i;
   self ← self_layer i;
   if negb (String.eqb unique_name (name self)) then
     w ← get_world;
     assert (negb (coll_contains name unique_name (layers w)));;
     modify i (with_name unique_name);;
     _update_name depth i
   else
     match node_tree self with
     | Some t => modify i (with_node_tree (Some (rename_tree (_node_tree_name self) t)))
     | None => mret tt
     end).
Proof. reflexivity. Qed.

Lemma update_name_run depth i w l s :
  2 <= depth -> i < length (layers w) -> pml_layer_stack w = Some s ->
  exists nm, _update_name depth i (upd i l w) = Ret tt (upd i (renamed nm l) w)
             /\ unique_name_of (<[i:=l]> (layers w)) l nm.
Proof.
  intros Hd Hi Hs. destruct depth as [|[|depth]]; [lia|lia|].
  assert (Hstep : forall d l', ~ collides (<[i:=l']> (layers w)) l' ->
            _update_name (S d) i (upd i l' w) = Ret tt (upd i (renamed (name l') l') w)).
  { intros d l' Hfresh. rewrite update_name_unfold.
    destruct (get_unique_name_run i w l' s Hi Hs) as (nm & Hrun & Hnm).
    rewrite bind_unfold, Hrun. cbv beta iota. repeat mstep.
    rewrite (unique_name_of_fresh _ _ Hfresh _ Hnm), String.eqb_refl. simpl.
    unfold renamed, _node_tree_name. rewrite with_name_id.
    destruct (node_tree l') as [t|] eqn:Ht.
    - by rewrite modify_upd.
    - rewrite mret_unfold. simpl. f_equal. f_equal. destruct l'; simpl in *; by subst. }
  destruct (get_unique_name_run i w l s Hi Hs) as (nm & Hrun & Hnm).
  exists nm. split; [|done].
  destruct Hnm as [[Hfresh ->]|[Hc (k & (Hk1 & Hnot & Hlt) & ->)]].
  - rewrite (Hstep _ _ Hfresh). done.
  - rewrite update_name_unfold. rewrite bind_unfold, Hrun. cbv beta iota. repeat mstep.
    assert (Hne : suffixed (name l) k <> name l).
    { intros Heq. apply Hnot. rewrite Heq. apply list_elem_of_fmap. exists l.
      split; [done|]. apply list_elem_of_lookup. exists i. by apply list_lookup_insert_eq. }
    apply String.eqb_neq in Hne. rewrite Hne. cbn [negb].
    rewrite bind_unfold, get_world_unfold. cbv beta iota.
    change (layers (upd i l w)) with (<[i:=l]> (layers w)).
    rewrite (proj2 (coll_contains_false name _ _) Hnot). cbn [negb].
    rewrite bind_unfold, assert_true_unfold. cbv beta iota. repeat mstep.
    rewrite Hstep; [|by apply not_collides_after_rename].
    simpl. reflexivity.
Qed.

Lemma set_name_run depth i v w l s :
  2 <= depth -> layers w !! i = Some l -> pml_layer_stack w = Some s ->
  exists nm, set_name depth i v w = Ret tt (upd i (renamed nm (with_name v l)) w)
             /\ unique_name_of (<[i:=with_name v l]> (layers w)) (with_name v l) nm.
Proof.
  intros Hd Hl Hs. assert (Hi : i < length (layers w)) by (by eapply lookup_lt_Some).
  replace (set_name depth i v w) with (set_name depth i v (upd i l w))
    by (by rewrite upd_id).
  unfold set_name. repeat mstep.
  by apply (update_name_run depth i w (with_name v l) s).
Qed.

Lemma suffixed_01 v : suffixed v 1 = v +:+ ".01".
Proof. reflexivity. Qed.
Lemma suffixed_02 v : suffixed v 2 = v +:+ ".02".
Proof. reflexivity. Qed.

Lemma string_length_append (a b : string) :
  String.length (a +:+ b) = String.length a + String.length b.
Proof. induction a as [|c a IH]; simpl; [done|]. by rewrite IH. Qed.

Lemma suffixed_ne v k : suffixed v k <> v.
Proof.
  unfold suffixed. intros Heq. apply (f_equal String.length) in Heq.
  rewrite string_length_append in Heq. simpl in Heq. lia.
Qed.

(** C5. Giving the layer of a slot the name [v] ends with a name that no
    other layer in use has. The name is [v] itself unless another layer in use
    (one with an identifier, so not a free or deleted slot) is called [v];
    then it is [v] with the first free two-digit suffix counted from 01:
    [v.01] when no layer has that name, [v.02] when [v.01] is taken and
    [v.02] is not. *)
Theorem set_name_unique (depth i : nat) (v : string) (w : World) (l : MaterialLayer)
    (s : LayerStack) :
  2 <= depth -> layers w !! i = Some l -> pml_layer_stack w = Some s ->
  exists final,
    set_name depth i v w = Ret tt (upd i (renamed final (with_name v l)) w)
    /\ name (renamed final (with_name v l)) = final
    /\ (~ collides (<[i:=with_name v l]> (layers w)) (with_name v l) -> final = v)
    /\ (collides (<[i:=with_name v l]> (layers w)) (with_name v l) ->
        (exists k, first_free v (<[i:=with_name v l]> (layers w)) k /\ final = suffixed v k)
        /\ ((v +:+ ".01") ∉ (name <$> layers w) -> final = v +:+ ".01")
        /\ ((v +:+ ".01") ∈ (name <$> <[i:=with_name v l]> (layers w)) ->
            (v +:+ ".02") ∉ (name <$> layers w) -> final = v +:+ ".02"))
    /\ (forall j x, j <> i -> layers w !! j = Some x ->
        identifier x <> "" -> identifier x <> identifier l -> name x <> final).
Proof.
  intros Hd Hl Hs. assert (Hi : i < length (layers w)) by (by eapply lookup_lt_Some).
  destruct (set_name_run depth i v w l s Hd Hl Hs) as (final & Hrun & Hun).
  assert (Hother : forall n, n <> v -> n ∉ (name <$> layers w) ->
                     n ∉ (name <$> <[i:=with_name v l]> (layers w))).
  { intros n Hnv Hn Hin. apply list_elem_of_fmap in Hin as (x & -> & Hx).
    apply list_elem_of_lookup in Hx as [j Hj].
    destruct (decide (j = i)) as [->|Hji].
    - rewrite list_lookup_insert_eq in Hj by done. injection Hj as <-. by simpl in Hnv.
    - rewrite list_lookup_insert_ne in Hj by done. apply Hn.
      apply list_elem_of_fmap. exists x. split; [done|]. by eapply list_elem_of_lookup_2. }
  assert (Hself : v ∈ (name <$> <[i:=with_name v l]> (layers w))).
  { apply list_elem_of_fmap. exists (with_name v l). split; [done|].
    apply list_elem_of_lookup. exists i. by apply list_lookup_insert_eq. }
  exists final. split; [done|]. split; [done|]. split_and!.
  - intros Hfresh. by apply (unique_name_of_fresh _ _ Hfresh).
  - intros Hc. destruct Hun as [[Hfresh _]|[_ (k & Hff & ->)]]; [done|]. simpl in Hff.
    split; [by exists k|]. destruct Hff as (Hk1 & Hnot & Hlt). simpl. split.
    + intros H01. destruct (decide (k = 1)) as [->|]; [done|].
      exfalso. apply (Hother (suffixed v 1)); [apply suffixed_ne|done|apply Hlt; lia].
    + intros H01 H02. destruct (decide (k = 2)) as [->|]; [done|].
      destruct (decide (k = 1)) as [->|]; [done|].
      exfalso. apply (Hother (suffixed v 2)); [apply suffixed_ne|done|apply Hlt; lia].
  - intros j x Hji Hj Hinit Hne Hname.
    assert (Hx : x ∈ <[i:=with_name v l]> (layers w)).
    { apply list_elem_of_lookup. exists j. by rewrite list_lookup_insert_ne. }
    destruct Hun as [[Hfresh ->]|[_ (k & (_ & Hnot & _) & ->)]]; simpl in *.
    + apply Hfresh. exists x. simpl. done.
    + apply Hnot. apply list_elem_of_fmap. by exists x.
Qed.

Lemma set_name_unique_witness :
  exists final,
    set_name 2 1 "Layer"
      (Demo.world [with_identifier "id.00" default_layer; with_identifier "id.01" default_layer])
    = Ret tt (upd 1 (renamed final (with_name "Layer" (with_identifier "id.01" default_layer)))
                (Demo.world [with_identifier "id.00" default_layer;
                             with_identifier "id.01" default_layer]))
    /\ final = "Layer.01".
Proof.
  destruct (set_name_unique 2 1 "Layer"
              (Demo.world [with_identifier "id.00" default_layer;
                           with_identifier "id.01" default_layer])
              (with_identifier "id.01" default_layer) Demo.stack)
    as (final & Hrun & _ & _ & Hcollide & _).
  - lia.
  - reflexivity.
  - reflexivity.
  - exists final. split; [exact Hrun|].
    apply Hcollide.
    + exists (with_identifier "id.00" default_layer).
      split; [apply list_elem_of_here|]. split; [reflexivity|]. split; discriminate.
    + apply (bool_decide_unpack _). vm_compute. exact I.
Defined.

(** The scenario of the specification: two layers asked to be "Layer" are
    "Layer" and "Layer.01", a third is "Layer.02"; once the first is deleted
    its slot holds no name, and a layer created in it is "Layer" again. *)
Example naming_scenario :
  exists w1 w2 w3 w4 w5,
    initialize Demo.host 2 0 "Layer" "MATERIAL_PAINT" None true (Demo.fresh 3) = Ret tt w1
    /\ initialize Demo.host 2 1 "Layer" "MATERIAL_PAINT" None true w1 = Ret tt w2
    /\ initialize Demo.host 2 2 "Layer" "MATERIAL_PAINT" None true w2 = Ret tt w3
    /\ name <$> layers w3 = ["Layer"; "Layer.01"; "Layer.02"]
    /\ delete 2 0 w3 = Ret tt w4
    /\ name <$> layers w4 = [""; "Layer.01"; "Layer.02"]
    /\ initialize Demo.host 2 0 "Layer" "MATERIAL_PAINT" None true w4 = Ret tt w5
    /\ name <$> layers w5 = ["Layer"; "Layer.01"; "Layer.02"].
Proof.
  eexists _, _, _, _, _.
  split; [vm_compute; reflexivity|]. split; [vm_compute; reflexivity|].
  split; [vm_compute; reflexivity|]. split; [reflexivity|].
  split; [vm_compute; reflexivity|]. split; [reflexivity|].
  split; [vm_compute; reflexivity|]. reflexivity.
Qed.

(** ** The active channel index *)

Section Wlp.
Context {A B : Type}.

Lemma wlp_bind (m : M A) (f : A -> M B) Q w :
  wlp m (fun a w1 => wlp (f a) Q w1) w -> wlp (m ≫= f) Q w.
Proof.
  intros H b w' Hrun. rewrite bind_unfold in Hrun.
  destruct (m w) as [a w1| |] eqn:E; [|done..]. by eapply H.
Qed.

Lemma wlp_ret (a : A) (Q : A -> World -> Prop) w : Q a w -> wlp (mret a) Q w.
Proof. intros H a' w' [= <- <-]. done. Qed.

Lemma wlp_raise (e : Exn) (Q : A -> World -> Prop) w : wlp (raise e) Q w.
Proof. by intros a' w' [=]. Qed.

Lemma wlp_diverge (Q : A -> World -> Prop) w : wlp diverge Q w.
Proof. by intros a' w' [=]. Qed.

Lemma wlp_mono (m : M A) (Q Q' : A -> World -> Prop) w :
  wlp m Q w -> (forall a w', Q a w' -> Q' a w') -> wlp m Q' w.
Proof. intros H HQ a w' Hrun. by apply HQ, H. Qed.
End Wlp.

Lemma wlp_self_layer i (Q : MaterialLayer -> World -> Prop) w :
  (forall l, layers w !! i = Some l -> Q l w) -> wlp (self_layer i) Q w.
Proof.
  intros H l w'. unfold self_layer. destruct (layers w !! i) eqn:E; [|done].
  intros [= <- <-]. by apply H.
Qed.

Lemma wlp_modify i f (Q : unit -> World -> Prop) w :
  Q tt (with_layers (alter f i (layers w)) w) -> wlp (modify i f) Q w.
Proof. intros H [] w' [= <-]. done. Qed.

Lemma wlp_layer_stack (Q : option LayerStack -> World -> Prop) w :
  Q (pml_layer_stack w) w -> wlp layer_stack Q w.
Proof. intros H a w' [= <- <-]. done. Qed.

Lemma wlp_the_layer_stack (Q : LayerStack -> World -> Prop) w :
  (forall s, pml_layer_stack w = Some s -> Q s w) -> wlp the_layer_stack Q w.
Proof.
  intros H. unfold the_layer_stack. apply wlp_bind, wlp_layer_stack.
  destruct (pml_layer_stack w) eqn:E; [apply wlp_ret; auto | apply wlp_raise].
Qed.

Lemma wlp_the_node_tree i (Q : NodeTree -> World -> Prop) w :
  (forall l t, layers w !! i = Some l -> node_tree l = Some t -> Q t w) ->
  wlp (the_node_tree i) Q w.
Proof.
  intros H. unfold the_node_tree. apply wlp_bind, wlp_self_layer. intros l Hl.
  destruct (node_tree l) eqn:E; [apply wlp_ret; eauto | apply wlp_raise].
Qed.

Lemma wlp_get_world (Q : World -> World -> Prop) w : Q w w -> wlp get_world Q w.
Proof. intros H a w' [= <- <-]. done. Qed.

Lemma wlp_warn msg (Q : unit -> World -> Prop) w :
  Q tt (with_warnings (warnings w ++ [msg]) w) -> wlp (warn msg) Q w.
Proof. intros H [] w' [= <-]. done. Qed.

Lemma wlp_assert b (Q : unit -> World -> Prop) w :
  (b = true -> Q tt w) -> wlp (assert b) Q w.
Proof. intros H. destruct b; [apply wlp_ret; auto | apply wlp_raise]. Qed.

Lemma wlp_for_each {A} (xs : list A) (body : A -> M unit) (Inv : World -> Prop) w :
  Inv w -> (forall x w1, Inv w1 -> wlp (body x) (fun _ => Inv) w1) ->
  wlp (for_each xs body) (fun _ => Inv) w.
Proof.
  intros HI Hbody. revert w HI. induction xs as [|x xs IH]; intros w HI; simpl.
  - by apply wlp_ret.
  - apply wlp_bind. eapply wlp_mono; [by apply Hbody|]. intros ? w1 H1. by apply IH.
Qed.

Lemma slot_at_alter i f (P P' : MaterialLayer -> Prop) ls :
  slot_at i P' ls -> (forall l, P' l -> P (f l)) -> slot_at i P (alter f i ls).
Proof.
  intros (l & Hl & HP) Hf. exists (f l). split; [|by apply Hf].
  by rewrite list_lookup_alter_eq, Hl.
Qed.

Lemma slot_at_lookup i (P : MaterialLayer -> Prop) ls l :
  ls !! i = Some l -> P l -> slot_at i P ls.
Proof. intros Hl HP. by exists l. Qed.

Lemma layer_at_alter i f (P P' : MaterialLayer -> Prop) w :
  layer_at i P' w -> (forall l, P' l -> P (f l)) ->
  layer_at i P (with_layers (alter f i (layers w)) w).
Proof. apply slot_at_alter. Qed.

Lemma layer_at_lookup i P w l : layer_at i P w -> layers w !! i = Some l -> P l.
Proof. intros (l' & Hl' & HP) Hl. congruence. Qed.

Ltac wlp_step :=
  lazymatch goal with
  | |- wlp (mbind _ _) _ _ => apply wlp_bind
  | |- wlp (mret _) _ _ => apply wlp_ret
  | |- wlp (raise _) _ _ => apply wlp_raise
  | |- wlp diverge _ _ => apply wlp_diverge
  | |- wlp (self_layer _) _ _ => apply wlp_self_layer; intros ? ?
  | |- wlp (modify_tree _ _) _ _ =>
      apply wlp_modify; cbn [layers with_layers with_warnings pml_layer_stack warnings]
  | |- wlp (modify _ _) _ _ =>
      apply wlp_modify; cbn [layers with_layers with_warnings pml_layer_stack warnings]
  | |- wlp layer_stack _ _ => apply wlp_layer_stack
  | |- wlp the_layer_stack _ _ => apply wlp_the_layer_stack; intros ? ?
  | |- wlp (the_node_tree _) _ _ => apply wlp_the_node_tree; intros ? ? ? ?
  | |- wlp get_world _ _ => apply wlp_get_world
  | |- wlp (warn _) _ _ =>
      apply wlp_warn; cbn [layers with_layers with_warnings pml_layer_stack warnings]
  | |- wlp (assert _) _ _ => apply wlp_assert; intros ?
  | |- wlp (match ?x with _ => _ end) _ _ => destruct x eqn:?
  | |- wlp (let '(_, _) := ?x in _) _ _ => destruct x eqn:?
  end.

Ltac frame_done :=
  cbv beta in *; unfold layer_at in *;
  cbn [layers with_layers with_warnings pml_layer_stack warnings] in *;
  rewrite ?list_alter_alter_eq;
  first [ eassumption
        | eapply slot_at_alter;
          [eassumption
          |let l := fresh in let H := fresh in
           intros l H; unfold on_channels in *; simpl; first [exact H | done]]
        | eapply slot_at_lookup;
          [rewrite list_lookup_alter_eq;
           match goal with H : _ !! _ = Some _ |- _ => rewrite H end; reflexivity
          |unfold on_channels; simpl; done] ].

Lemma ensure_output_frame (host : Host) i c Q w :
  layer_at i (on_channels Q) w ->
  wlp (_ensure_node_tree_output host i c) (fun _ => layer_at i (on_channels Q)) w.
Proof.
  intros H. unfold _ensure_node_tree_output. repeat wlp_step; frame_done.
Qed.


Lemma create_preview_frame (host : Host) i Q w :
  layer_at i (on_channels Q) w ->
  wlp (_create_preview_material host i) (fun _ => layer_at i (on_channels Q)) w.
Proof.
  intros H. unfold _create_preview_material. repeat wlp_step; frame_done.
Qed.

Lemma refresh_preview_frame (host : Host) i Q w :
  layer_at i (on_channels Q) w ->
  wlp (_refresh_preview_material host i) (fun _ => layer_at i (on_channels Q)) w.
Proof.
  intros H. unfold _refresh_preview_material. repeat wlp_step; try frame_done.
  apply create_preview_frame. frame_done.
Qed.

Lemma index_ok_app l c :
  index_ok l -> index_ok (with_channels (channels l ++ [c]) l).
Proof.
  unfold index_ok. simpl. destruct (channels l) as [|a chs]; simpl.
  - intros ->. lia.
  - rewrite length_app. simpl. lia.
Qed.

Lemma index_zero_ok l : active_channel_index l = 0%Z -> index_ok l.
Proof. unfold index_ok. intros ->. destruct (channels l); simpl; lia. Qed.

(** [add_channel] leaves the active index alone and at most appends a channel. *)
Lemma add_channel_frame (host : Host) i arg chs a w :
  layer_at i (on_channels (fun chs' a' => chs' = chs /\ a' = a)) w ->
  wlp (add_channel host i arg)
      (fun _ => layer_at i (on_channels (fun chs' a' =>
                  (chs' = chs \/ exists c, chs' = chs ++ [c]) /\ a' = a))) w.
Proof.
  intros H. unfold add_channel. destruct arg as [c| |]; [|apply wlp_raise..].
  repeat wlp_step.
  - destruct H as (l' & Hl' & Hc & Ha). exists l'. split; [done|]. split; [by left|done].
  - eapply wlp_mono.
    { apply (ensure_output_frame host i c
               (fun chs' a' => chs' = chs ++ [init_from_channel c] /\ a' = a)).
      eapply layer_at_alter; [exact H|]. intros l0 [Hc Ha]. split; simpl; congruence. }
    intros ? w1 H1. cbv beta. repeat wlp_step. eapply wlp_mono.
    { apply refresh_preview_frame, H1. }
    intros ? w2 H2. cbv beta. repeat wlp_step.
    destruct H2 as (l' & Hl' & Hc & Ha). exists l'. split; [done|].
    split; [right; by eexists|done].
Qed.

Lemma add_channel_index_ok (host : Host) i arg w :
  layer_at i index_ok w ->
  wlp (add_channel host i arg) (fun _ => layer_at i index_ok) w.
Proof.
  intros (l & Hl & Hok).
  eapply wlp_mono.
  { apply (add_channel_frame host i arg (channels l) (active_channel_index l)).
    by exists l. }
  intros ? w1 (l1 & Hl1 & Hc & Ha). cbv beta in *. exists l1. split; [done|].
  unfold index_ok in *. rewrite Ha. destruct Hc as [->|[c ->]]; [done|].
  destruct (channels l) as [|x chs]; simpl in *; [lia|]. rewrite length_app. simpl. lia.
Qed.

Lemma add_channel_index (host : Host) i arg a w :
  layer_at i (on_channels (fun _ a' => a' = a)) w ->
  wlp (add_channel host i arg) (fun _ => layer_at i (on_channels (fun _ a' => a' = a))) w.
Proof.
  intros (l & Hl & Ha).
  eapply wlp_mono.
  { apply (add_channel_frame host i arg (channels l) a). by exists l. }
  intros ? w1 (l1 & Hl1 & Hc & Ha1). cbv beta in *. by exists l1.
Qed.

Lemma layer_at_alter_lookup i f (P : MaterialLayer -> Prop) w l :
  layers w !! i = Some l -> P (f l) ->
  layer_at i P (with_layers (alter f i (layers w)) w).
Proof.
  intros Hl HP. exists (f l). split; [|done]. simpl. by rewrite list_lookup_alter_eq, Hl.
Qed.

Lemma index_ok_clamp (x : Z) (l : MaterialLayer) :
  index_ok (with_active_channel_index
              (Z.max (Z.min x (Z.of_nat (length (channels l)) - 1)) 0) l).
Proof. unfold index_ok. simpl. destruct (channels l); simpl; lia. Qed.

Lemma remove_channel_index_ok i arg w :
  wlp (remove_channel i arg) (fun _ => layer_at i index_ok) w.
Proof.
  unfold remove_channel. repeat wlp_step.
  all: cbv beta; eapply layer_at_alter_lookup; [eassumption|].
  all: apply index_ok_clamp.
Qed.

Lemma clear_channels_index_ok i w :
  layer_at i index_ok w ->
  wlp (clear_channels i) (fun _ => layer_at i index_ok) w.
Proof.
  intros H. unfold clear_channels. repeat wlp_step.
  apply wlp_for_each; [done|]. intros n w1 _. apply remove_channel_index_ok.
Qed.


Lemma get_unique_name_pure i w :
  wlp (_get_unique_name i) (fun _ w' => w' = w) w.
Proof. unfold _get_unique_name. repeat wlp_step; reflexivity. Qed.

Lemma update_name_frame depth i Q w :
  layer_at i (on_channels Q) w ->
  wlp (_update_name depth i) (fun _ => layer_at i (on_channels Q)) w.
Proof.
  revert w. induction depth as [|depth IH]; intros w H; [apply wlp_raise|].
  rewrite update_name_unfold. apply wlp_bind.
  eapply wlp_mono; [apply get_unique_name_pure|]. intros nm w' ->. cbv beta.
  repeat wlp_step; try frame_done.
  apply IH. frame_done.
Qed.

Lemma set_name_frame depth i v Q w :
  layer_at i (on_channels Q) w ->
  wlp (set_name depth i v) (fun _ => layer_at i (on_channels Q)) w.
Proof.
  intros H. unfold set_name. repeat wlp_step. apply update_name_frame. frame_done.
Qed.

Lemma initialize_index (host : Host) depth i name' ty chans eco w :
  wlp (initialize host depth i name' ty chans eco)
      (fun _ => layer_at i (on_channels (fun _ a => a = 0%Z))) w.
Proof.
  unfold initialize. repeat wlp_step.
  eapply wlp_mono.
  { apply (set_name_frame depth i name' (fun _ _ => True)). frame_done. }
  intros ? w1 H1. cbv beta in H1. repeat wlp_step.
  all: try (eapply wlp_mono;
            [apply (wlp_for_each _ _ (layer_at i (on_channels (fun _ a => a = 0%Z))));
             [frame_done
             |let ch := fresh "ch" in
              intros ch ? ?; destruct (ch_enabled ch || negb eco); repeat wlp_step;
              [eapply wlp_mono; [by apply add_channel_index|];
               intros; by apply wlp_ret
              |done]]
            |intros ? ? ?; cbv beta]).
  all: repeat wlp_step.
  all: try (eapply wlp_mono;
            [apply (create_preview_frame host i (fun _ a => a = 0%Z)); frame_done|];
            intros ? ? ?; cbv beta; repeat wlp_step).
  all: frame_done.
Qed.


Lemma clamp_index_nonneg k a len : (0 <= clamp_index k a len)%Z.
Proof. unfold clamp_index. lia. Qed.



(** ** The depth of a layer *)

Lemma resolve_layer_pure r w p w' : resolve_layer r w = Ret p w' -> w' = w.
Proof.
  unfold resolve_layer, resolve. rewrite bind_unfold.
  destruct (negb (ref_bool r)); [done|]. rewrite bind_unfold.
  unfold the_layer_stack. rewrite bind_unfold. unfold layer_stack.
  destruct (pml_layer_stack w); [|done]. rewrite mret_unfold.
  destruct (ref_layer_stack_id r); [|done].
  rewrite bind_unfold, get_world_unfold, mret_unfold.
  destruct (get_layer_by_id w (ref_name r)); [|done]. by intros [= _ <-].
Qed.

Lemma stack_depth_unfold depth i :
  stack_depth (S depth) i =
  (self ← self_layer i;
   if negb (ref_bool (parent self)) then mret 0
   else
     p ← resolve_layer (parent self);
     parent_ ← self_layer p;
     if negb (ref_bool (parent parent_)) then mret 1
     else
       g ← resolve_layer (parent parent_);
       n ← stack_depth depth g;
       mret (n + 2)).
Proof. reflexivity. Qed.

(** C3, amended. When the walk up the parent links of a layer reaches a
    layer without parent after [n] ancestors, [stack_depth] is [n], whatever
    [n] is; the recursion nests once for every two ancestors. There is no
    bound of 100 ancestors. *)
Theorem stack_depth_counts_ancestors (depth fuel : nat) (w : World) (i n : nat) :
  count_ancestors fuel w i = Some n -> n / 2 < depth ->
  stack_depth depth i w = Ret n w.
Proof.
  revert fuel i n. induction depth as [|depth IH]; intros fuel i n Hc Hd; [lia|].
  rewrite stack_depth_unfold.
  destruct fuel as [|fuel]; [done|]. simpl in Hc.
  destruct (layers w !! i) as [l|] eqn:Hl; [|done].
  rewrite (bind_Ret _ _ _ _ _ (self_layer_Some _ _ _ Hl)).
  destruct (negb (ref_bool (parent l))); [by injection Hc as <-|].
  destruct (resolve_layer (parent l) w) as [p w1| |] eqn:Hp; [|done..].
  assert (w1 = w) as -> by (by eapply resolve_layer_pure).
  rewrite (bind_Ret _ _ _ _ _ Hp).
  destruct (count_ancestors fuel w p) as [m|] eqn:Hm; [|done]. injection Hc as <-.
  destruct fuel as [|fuel]; [done|]. simpl in Hm.
  destruct (layers w !! p) as [lp|] eqn:Hlp; [|done].
  rewrite (bind_Ret _ _ _ _ _ (self_layer_Some _ _ _ Hlp)).
  destruct (negb (ref_bool (parent lp))); [by injection Hm as <-|].
  destruct (resolve_layer (parent lp) w) as [g w1| |] eqn:Hg; [|done..].
  assert (w1 = w) as -> by (by eapply resolve_layer_pure).
  rewrite (bind_Ret _ _ _ _ _ Hg).
  destruct (count_ancestors fuel w g) as [k|] eqn:Hk; [|done]. injection Hm as <-.
  assert (Hdk : k / 2 < depth).
  { replace (S (S k)) with (k + 1 * 2) in Hd by lia. rewrite Nat.div_add in Hd by lia. lia. }
  rewrite (bind_Ret _ _ _ _ _ (IH _ _ _ Hk Hdk)). rewrite mret_unfold.
  f_equal. lia.
Qed.

Lemma stack_depth_counts_ancestors_witness :
  stack_depth 2 3 (Demo.world (Demo.chain 4)) = Ret 3 (Demo.world (Demo.chain 4)).
Proof.
  apply (stack_depth_counts_ancestors 2 4 (Demo.world (Demo.chain 4)) 3 3).
  - vm_compute. reflexivity.
  - vm_compute. lia.
Defined.

(** C3 as stated fails: a layer with 101 ancestors has a [stack_depth] of
    101, and no fault is raised. *)
Lemma stack_depth_101_ancestors :
  count_ancestors 102 (Demo.world (Demo.chain 102)) 101 = Some 101
  /\ stack_depth 51 101 (Demo.world (Demo.chain 102)) = Ret 101 (Demo.world (Demo.chain 102)).
Proof. split; vm_compute; reflexivity. Qed.

(** On a cycle of ancestors [stack_depth] ends only by the recursion limit,
    whatever that limit is. *)
Lemma stack_depth_cycle (depth : nat) :
  stack_depth depth 0 (Demo.world Demo.cycle) = Raise RecursionError (Demo.world Demo.cycle).
Proof.
  induction depth as [|depth IH]; [reflexivity|].
  rewrite stack_depth_unfold.
  rewrite (bind_Ret _ _ (Demo.world Demo.cycle) (Demo.world Demo.cycle)
             (with_parent {| ref_name := "b"; ref_layer_stack_id := Some "stack" |}
                (with_identifier "a" default_layer))) by reflexivity.
  cbn [negb ref_bool parent with_parent str_bool ref_name String.eqb Ascii.eqb Bool.eqb].
  rewrite (bind_Ret _ _ (Demo.world Demo.cycle) (Demo.world Demo.cycle) 1) by reflexivity.
  rewrite (bind_Ret _ _ (Demo.world Demo.cycle) (Demo.world Demo.cycle)
             (with_parent {| ref_name := "a"; ref_layer_stack_id := Some "stack" |}
                (with_identifier "b" default_layer))) by reflexivity.
  cbn [negb ref_bool parent with_parent str_bool ref_name String.eqb Ascii.eqb Bool.eqb].
  rewrite (bind_Ret _ _ (Demo.world Demo.cycle) (Demo.world Demo.cycle) 0) by reflexivity.
  by rewrite (bind_Raise _ _ _ _ _ IH).
Qed.

(** ** The descendents of a layer *)

Lemma descendents_unfold depth i :
  descendents (S depth) i =
  (self ← self_layer i;
   fold_m (fun descendents_ child_layer_ref =>
             child_layer ← resolve_layer child_layer_ref;
             child ← self_layer child_layer;
             ds ← match children child with
                  | [] => mret descendents_
                  | _ :: _ => more ← descendents depth child_layer;
                              mret (descendents_ ++ more)
                  end;
             mret (ds ++ [child_layer]))
          (children self) []).
Proof. reflexivity. Qed.

Lemma descendents_spec_leaf fuel w c l ds :
  layers w !! c = Some l -> children l = [] ->
  descendents_spec fuel w c = Some ds -> ds = [].
Proof.
  intros Hl Hc. destruct fuel as [|fuel]; simpl; [done|]. rewrite Hl. simpl.
  rewrite Hc. simpl. by intros [= <-].
Qed.

(** C4. For a layer whose children, and theirs in turn, all resolve,
    [descendents] returns the list that the recursive definition gives: for
    each child in child order, the descendents of the child and then the
    child. For root with children A, B, where A has the child A1 and B the
    children B1, B2, that is A1, A, B1, B2, B. *)
Theorem descendents_youngest_first (depth fuel : nat) (w : World) (i : nat)
    (ds : list nat) :
  descendents_spec fuel w i = Some ds -> fuel <= depth ->
  descendents depth i w = Ret ds w.
Proof.
  revert fuel i ds. induction depth as [|depth IH]; intros fuel i ds Hs Hd.
  { destruct fuel; [done|lia]. }
  destruct fuel as [|fuel]; [done|]. simpl in Hs.
  destruct (layers w !! i) as [l|] eqn:Hl; [|done]. simpl in Hs.
  rewrite descendents_unfold, (bind_Ret _ _ _ _ _ (self_layer_Some _ _ _ Hl)).
  assert (Hfold : forall rs acc rest,
            emit_children (descendents_spec fuel w) w rs = Some rest ->
            fold_m (fun descendents_ child_layer_ref =>
                      child_layer ← resolve_layer child_layer_ref;
                      child ← self_layer child_layer;
                      ds ← match children child with
                           | [] => mret descendents_
                           | _ :: _ => more ← descendents depth child_layer;
                                       mret (descendents_ ++ more)
                           end;
                      mret (ds ++ [child_layer])) rs acc w
            = Ret (acc ++ rest) w).
  { induction rs as [|r rs IHrs]; intros acc rest; simpl.
    - intros [= <-]. by rewrite app_nil_r.
    - destruct (resolve_layer r w) as [c w1| |] eqn:Hr; [|done..].
      assert (w1 = w) as -> by (by eapply resolve_layer_pure).
      destruct (descendents_spec fuel w c) as [dc|] eqn:Hdc; [|done]. simpl.
      destruct (emit_children (descendents_spec fuel w) w rs) as [rest'|] eqn:Hrest;
        [|done]. simpl. intros [= <-].
      rewrite bind_unfold, (bind_Ret _ _ _ _ _ Hr).
      assert (Hc : exists lc, layers w !! c = Some lc).
      { destruct fuel; [done|]. simpl in Hdc. destruct (layers w !! c); [by eexists|done]. }
      destruct Hc as [lc Hlc].
      rewrite (bind_Ret _ _ _ _ _ (self_layer_Some _ _ _ Hlc)).
      destruct (children lc) as [|k ks] eqn:Hkids.
      + rewrite bind_unfold, !mret_unfold.
        rewrite (descendents_spec_leaf _ _ _ _ _ Hlc Hkids Hdc).
        rewrite (IHrs _ _ eq_refl). f_equal. by rewrite <- app_assoc.
      + rewrite bind_unfold, (bind_Ret _ _ _ _ _ (IH fuel c dc Hdc ltac:(lia))).
        rewrite !mret_unfold.
        rewrite (IHrs _ _ eq_refl). f_equal. by rewrite <- !app_assoc. }
  by rewrite (Hfold _ [] _ Hs).
Qed.

Lemma descendents_youngest_first_witness :
  descendents 3 0 (Demo.world Demo.family) = Ret [3; 1; 4; 5; 2] (Demo.world Demo.family).
Proof.
  apply (descendents_youngest_first 3 3 (Demo.world Demo.family) 0 [3; 1; 4; 5; 2]).
  - vm_compute. reflexivity.
  - lia.
Defined.

(** ** The layer below *)

(** On a layer that is not initialized [get_layer_below] raises. *)
Lemma get_layer_below_uninitialized (host : Host) (i : nat) (w : World) (l : MaterialLayer) :
  layers w !! i = Some l -> is_initialized l = false ->
  get_layer_below host i w = Raise RuntimeError w.
Proof.
  intros Hl Hi. unfold get_layer_below.
  rewrite (bind_Ret _ _ _ _ _ (self_layer_Some _ _ _ Hl)). by rewrite Hi.
Qed.

(** On an initialized layer whose parent resolves, [get_layer_below] stops at
    the call of the collection of children. *)
Lemma get_layer_below_nested (host : Host) (i p : nat) (w : World) (l lp : MaterialLayer) :
  layers w !! i = Some l -> is_initialized l = true -> ref_bool (parent l) = true ->
  resolve_layer (parent l) w = Ret p w -> layers w !! p = Some lp ->
  get_layer_below host i w = Raise TypeError w.
Proof.
  intros Hl Hi Hp Hr Hlp. unfold get_layer_below.
  rewrite (bind_Ret _ _ _ _ _ (self_layer_Some _ _ _ Hl)). rewrite Hi, Hp. simpl.
  rewrite (bind_Ret _ _ _ _ _ Hr), (bind_Ret _ _ _ _ _ (self_layer_Some _ _ _ Hlp)).
  reflexivity.
Qed.

(** The test [idx-1 == 0] answers [None] for the layer at index 1 of its
    siblings, which has a sibling below it. *)
Lemma layer_below_among_index_1 (children_ : list MaterialLayerRef) (self : MaterialLayer)
    (w : World) :
  index_of (List.filter ref_bool children_) self = Some 1 ->
  layer_below_among children_ self w = Ret None w.
Proof.
  intros H. unfold layer_below_among, py_index. rewrite H. reflexivity.
Qed.

(** For the layer at index 0 the test fails and [siblings[-1]], the last of
    the siblings, is resolved. *)
Lemma layer_below_among_index_0 (children_ : list MaterialLayerRef) (self : MaterialLayer)
    (w : World) (r : MaterialLayerRef) :
  index_of (List.filter ref_bool children_) self = Some 0 ->
  last (List.filter ref_bool children_) = Some r ->
  layer_below_among children_ self w = resolve r w.
Proof.
  intros H Hlast. unfold layer_below_among, py_index. rewrite H.
  rewrite bind_unfold, mret_unfold. cbv beta iota.
  change (Z.of_nat 0 - 1 =? 0)%Z with false. cbv iota.
  rewrite bind_unfold. unfold py_getitem.
  change (Z.of_nat 0 - 1 <? 0)%Z with true. cbv iota zeta.
  set (sibs := List.filter ref_bool children_) in *.
  assert (Hlen : 0 < length sibs).
  { destruct sibs; [done|simpl; lia]. }
  replace (Z.of_nat 0 - 1 + Z.of_nat (length sibs) <? 0)%Z with false
    by (symmetry; apply Z.ltb_ge; lia).
  replace (Z.to_nat (Z.of_nat 0 - 1 + Z.of_nat (length sibs))) with (length sibs - 1) by lia.
  rewrite last_lookup in Hlast. replace (length sibs - 1) with (pred (length sibs)) by lia.
  rewrite Hlast. by rewrite mret_unfold.
Qed.

(** C2 at a parent with the children A, B: asked for the layer below B,
    [get_layer_below] raises [TypeError]; and were the children obtained,
    the rest of the method would answer [None] for B, which has A below it,
    and B for A, which is the lowest. *)
Theorem get_layer_below_of_second_child :
  get_layer_below Demo.host 2 (Demo.world Demo.brood) = Raise TypeError (Demo.world Demo.brood)
  /\ layer_below_among [{| ref_name := "A"; ref_layer_stack_id := Some "stack" |};
                        {| ref_name := "B"; ref_layer_stack_id := Some "stack" |}]
       (with_parent {| ref_name := "root"; ref_layer_stack_id := Some "stack" |} (Demo.node "B" []))
       (Demo.world Demo.brood)
     = Ret None (Demo.world Demo.brood)
  /\ layer_below_among [{| ref_name := "A"; ref_layer_stack_id := Some "stack" |};
                        {| ref_name := "B"; ref_layer_stack_id := Some "stack" |}]
       (with_parent {| ref_name := "root"; ref_layer_stack_id := Some "stack" |} (Demo.node "A" []))
       (Demo.world Demo.brood)
     = Ret (Some 2) (Demo.world Demo.brood).
Proof. split_and!; vm_compute; reflexivity. Qed.

(** ** Initializing and deleting a layer *)

Lemma reshape_id l t : node_tree l = Some t -> reshape (channels l) t (preview_material l) l = l.
Proof. intros H. destruct l; simpl in *. by subst. Qed.

Lemma add_channel_warns (host : Host) i c w l existing :
  layers w !! i = Some l ->
  coll_get ch_name (ch_name c) (channels l) = Some existing ->
  add_channel host i (ArgChannel c) w
  = Ret existing
      (with_warnings (warnings w ++ ["Channel with name " +:+ ch_name c +:+
                                     " already exists in layer " +:+ name l]) w).
Proof.
  intros Hl Hex. unfold add_channel.
  rewrite (bind_Ret _ _ _ _ _ (self_layer_Some _ _ _ Hl)). by rewrite Hex.
Qed.

Lemma add_channel_run (host : Host) i c w l t s :
  i < length (layers w) -> pml_layer_stack w = Some s -> node_tree l = Some t ->
  exists r chs t' pm ws,
    add_channel host i (ArgChannel c) (upd i l w)
    = Ret r (upd i (reshape chs t' pm l) (with_warnings ws w)).
Proof.
  intros Hi Hs Ht.
  destruct (decide (ch_name c ∈ (ch_name <$> channels l))) as [Hin|Hnin].
  - destruct (coll_get_is_Some ch_name _ _ Hin) as [ex Hex].
    exists ex, (channels l), t, (preview_material l). eexists.
    rewrite (add_channel_warns host i c (upd i l w) l ex); [|by apply layers_upd|done].
    rewrite (reshape_id _ _ Ht). reflexivity.
  - destruct (add_channel_new_run host i c w l t s) as (t' & pm & ws & Hrun & _); [done..|].
    eexists _, _, t', pm, ws. by rewrite Hrun.
Qed.

Lemma add_channels_run (host : Host) i (chs : list Channel) eco w l t s :
  i < length (layers w) -> pml_layer_stack w = Some s -> node_tree l = Some t ->
  exists chs' t' pm ws,
    for_each chs (fun ch =>
      if ch_enabled ch || negb eco
      then add_channel host i (ArgChannel ch);; mret tt
      else mret tt) (upd i l w)
    = Ret tt (upd i (reshape chs' t' pm l) (with_warnings ws w)).
Proof.
  intros Hi Hs. revert w l t Hi Hs. induction chs as [|c chs IH]; intros w l t Hi Hs Ht.
  - simpl. exists (channels l), t, (preview_material l), (warnings w).
    by rewrite mret_unfold, (reshape_id _ _ Ht), with_warnings_id.
  - cbn [for_each]. rewrite bind_unfold.
    destruct (ch_enabled c || negb eco).
    + destruct (add_channel_run host i c w l t s Hi Hs Ht) as (r & chs1 & t1 & pm1 & ws1 & Hrun).
      rewrite bind_unfold, Hrun, mret_unfold.
      destruct (IH (with_warnings ws1 w) (reshape chs1 t1 pm1 l) t1)
        as (chs2 & t2 & pm2 & ws2 & Hrest); [done..|].
      rewrite Hrest. by exists chs2, t2, pm2, ws2.
    + rewrite mret_unfold. by apply (IH w l t).
Qed.

Lemma opt_add_channels_run (host : Host) i (chans : option (list Channel)) eco w l t s :
  i < length (layers w) -> pml_layer_stack w = Some s -> node_tree l = Some t ->
  exists chs' t' pm ws,
    match chans with
    | Some chs =>
        for_each chs (fun ch =>
          if ch_enabled ch || negb eco
          then add_channel host i (ArgChannel ch);; mret tt
          else mret tt)
    | None => mret tt
    end (upd i l w)
    = Ret tt (upd i (reshape chs' t' pm l) (with_warnings ws w)).
Proof.
  intros Hi Hs Ht. destruct chans as [chs|].
  - by eapply add_channels_run.
  - exists (channels l), t, (preview_material l), (warnings w).
    by rewrite mret_unfold, (reshape_id _ _ Ht), with_warnings_id.
Qed.

Lemma set_name_run_upd depth i v w l s :
  2 <= depth -> i < length (layers w) -> pml_layer_stack w = Some s ->
  exists nm, set_name depth i v (upd i l w)
             = Ret tt (upd i (renamed nm (with_name v l)) w)
             /\ unique_name_of (<[i:=with_name v l]> (layers w)) (with_name v l) nm.
Proof.
  intros Hd Hi Hs.
  destruct (set_name_run depth i v (upd i l w) l s Hd) as (nm & Hrun & Hnm);
    [by apply layers_upd|done|].
  exists nm. rewrite Hrun, upd_upd. split; [done|].
  simpl in Hnm. by rewrite list_insert_insert_eq in Hnm.
Qed.

Lemma initialize_run (host : Host) depth i name' ty chans eco w l s :
  2 <= depth ->
  i < length (layers w) -> pml_layer_stack w = Some s ->
  is_initialized l = false -> ty ∈ _VALID_LAYER_TYPES ->
  unique_name_in host (identifier <$> <[i:=l]> (layers w)) <> "" ->
  exists l1 ws,
    initialize host depth i name' ty chans eco (upd i l w)
    = Ret tt (upd i l1 (with_warnings ws w))
    /\ initialized_from host ty (identifier <$> <[i:=l]> (layers w)) l l1.
Proof.
  intros Hd Hi Hs Hun Hty Hid.
  unfold initialize. rewrite bind_unfold. unfold layer_stack at 1.
  cbn [pml_layer_stack upd with_layers]. rewrite Hs. cbv beta iota.
  repeat mstep. rewrite Hun.
  rewrite (bool_decide_eq_true_2 _ Hty). cbn [negb].
  rewrite bind_unfold, get_world_unfold. cbv beta iota.
  repeat mstep.
  match goal with
  | |- context [ set_name depth i name' (upd i ?L ?W) ] =>
      destruct (set_name_run_upd depth i name' W L s Hd Hi Hs) as (nm & Hname & _)
  end.
  rewrite Hname. repeat mstep.
  match goal with
  | |- context [ match chans with Some _ => _ | None => _ end (upd i ?L ?W) ] =>
      destruct (opt_add_channels_run host i chans eco W L
                  {| nt_name := _node_tree_name
                       (with_active_channel_index 0 (with_opacity 1 (with_enabled true
                          (with_layer_type ty (renamed nm (with_name name'
                             (with_identifier
                                (unique_name_in host (identifier <$> layers (upd i l w)))
                                l)))))));
                     nt_outputs := []; nt_nodes := [] |} s Hi Hs eq_refl)
        as (chs' & t' & pm & ws & Hloop)
  end.
  rewrite Hloop. unfold reshape. repeat mstep.
  cbn [layer_type with_preview_material with_node_tree with_channels
       with_active_channel_index with_opacity with_enabled with_layer_type].
  assert (Hinit : forall l', identifier l' = unique_name_in host (identifier <$> <[i:=l]> (layers w)) ->
                    is_initialized l' = true).
  { intros l' Hl'. unfold is_initialized. rewrite Hl'. by apply str_bool_true. }
  destruct (String.eqb ty "MATERIAL_PAINT") eqn:Hpaint.
  - rewrite bind_unfold, get_world_unfold. cbv beta iota.
    destruct (allocate_image_to_layer host _ i) as [img c]. repeat mstep.
    cbn [node_tree with_image with_preview_material with_node_tree fmap option_fmap option_map].
    destruct (show_previews host).
    + match goal with
      | |- context [ _create_preview_material host i (upd i ?L ?W) ] =>
          destruct (create_preview_run host i W L s) as (pm' & Hprev & _); [done..|]
      end.
      rewrite Hprev. repeat mstep. rewrite Hinit by reflexivity.
      rewrite assert_true_unfold. eexists _, ws. split; [reflexivity|].
      unfold initialized_from. simpl. split_and!; try done. by left.
    + repeat mstep. rewrite Hinit by reflexivity.
      rewrite assert_true_unfold. eexists _, ws. split; [reflexivity|].
      unfold initialized_from. simpl. split_and!; try done. by left.
  - repeat mstep.
    cbn [node_tree with_image with_preview_material with_node_tree fmap option_fmap option_map].
    destruct (show_previews host).
    + match goal with
      | |- context [ _create_preview_material host i (upd i ?L ?W) ] =>
          destruct (create_preview_run host i W L s) as (pm' & Hprev & _); [done..|]
      end.
      rewrite Hprev. repeat mstep. rewrite Hinit by reflexivity.
      rewrite assert_true_unfold. eexists _, ws. split; [reflexivity|].
      unfold initialized_from. simpl. split_and!; try done. by right.
    + repeat mstep. rewrite Hinit by reflexivity.
      rewrite assert_true_unfold. eexists _, ws. split; [reflexivity|].
      unfold initialized_from. simpl. split_and!; try done. by right.
Qed.

Lemma delete_unfold depth i :
  delete (S depth) i =
  (self ← self_layer i;
   if negb (is_initialized self) then mret tt
   else
     modify i (with_identifier "");;
     modify i (with_parent (ref_set None));;
     free_bake i;;
     self ← self_layer i;
     (if has_image self then _ ← the_layer_stack; deallocate_layer_image i
      else mret tt);;
     self ← self_layer i;
     for_each (children self) (fun child => j ← resolve_layer child; delete depth j);;
     modify i (with_children []);;
     modify i (fun l => with_channels (Channel_delete <$> channels l) l);;
     modify i (with_channels []);;
     self ← self_layer i;
     (match node_tree self with
      | Some _ => modify i (with_node_tree None)
      | None => mret tt
      end);;
     modify i (with_node_mask None);;
     _delete_preview_material i;;
     set_name depth i "";;
     self ← self_layer i;
     assert (negb (is_initialized self));;
     assert (negb (has_image self));;
     assert (image_channel self =? -1)%Z).
Proof. reflexivity. Qed.

Lemma free_bake_none (chs : list Channel) :
  existsb ch_is_baked ((fun ch => if ch_is_baked ch then Channel_free_bake ch else ch) <$> chs)
  = false.
Proof.
  induction chs as [|c chs IH]; [done|]. rewrite fmap_cons. simpl. rewrite IH.
  by destruct (ch_is_baked c) eqn:E; simpl; rewrite ?E.
Qed.

Lemma free_bake_run i w l :
  i < length (layers w) ->
  free_bake i (upd i l w)
  = Ret tt (upd i (with_is_baked false (with_channels
              ((fun ch => if ch_is_baked ch then Channel_free_bake ch else ch) <$> channels l)
              l)) w).
Proof.
  intros Hi. unfold free_bake. repeat mstep. unfold any_channel_baked. simpl.
  by rewrite free_bake_none.
Qed.

Lemma set_name_empty depth i w l s :
  2 <= depth -> i < length (layers w) -> pml_layer_stack w = Some s ->
  identifier l = "" -> node_tree l = None ->
  (forall j x, j <> i -> layers w !! j = Some x -> identifier x <> "" -> name x <> "") ->
  set_name depth i "" (upd i l w) = Ret tt (upd i (with_name "" l) w).
Proof.
  intros Hd Hi Hs Hid Hnt Hnames.
  destruct (set_name_run_upd depth i "" w l s) as (nm & Hrun & Hnm); [done..|].
  rewrite Hrun. f_equal. f_equal.
  assert (nm = "") as ->.
  { apply (unique_name_of_fresh _ _) in Hnm; [done|].
    intros (x & Hx & Hn & Hne & Hin). simpl in Hn, Hne.
    apply list_elem_of_lookup in Hx as [j Hj].
    destruct (decide (j = i)) as [->|Hji].
    - rewrite list_lookup_insert_eq in Hj by done. injection Hj as <-.
      by simpl in Hne.
    - rewrite list_lookup_insert_ne in Hj by done.
      by apply (Hnames j x). }
  rewrite renamed_None by done. destruct l; reflexivity.
Qed.

Lemma delete_run_leaf depth i w l s :
  3 <= depth -> i < length (layers w) -> pml_layer_stack w = Some s ->
  is_initialized l = true -> children l = [] ->
  (has_image l = true \/ image_channel l = (-1)%Z) ->
  (forall j x, j <> i -> layers w !! j = Some x -> identifier x <> "" -> name x <> "") ->
  delete depth i (upd i l w) = Ret tt (upd i (deleted l) w).
Proof.
  intros Hd Hi Hs Hinit Hkids Himg Hnames.
  destruct depth as [|depth]; [lia|]. rewrite delete_unfold.
  repeat mstep. rewrite Hinit. cbn [negb]. repeat mstep.
  rewrite free_bake_run by done. repeat mstep.
  assert (Hch : image l = None -> image_channel l = (-1)%Z).
  { intros Him. destruct Himg as [Himg|Himg]; [|done].
    unfold has_image in Himg. by rewrite Him in Himg. }
  match goal with
  | |- context [ has_image ?L ] => change (has_image L) with (has_image l)
  end.
  unfold has_image at 1.
  destruct (image l) eqn:Him;
    repeat mstep; try unfold deallocate_layer_image; repeat mstep;
    cbn [children with_image with_is_baked with_channels with_parent with_identifier].
  all: rewrite Hkids; cbn [for_each]; repeat mstep;
    cbn [node_tree with_children with_image with_is_baked with_channels with_parent
         with_identifier];
    (destruct (node_tree l) eqn:Hnt; repeat mstep;
     unfold _delete_preview_material; repeat mstep;
     cbn [preview_material with_node_mask with_node_tree with_children with_image
          with_is_baked with_channels with_parent with_identifier];
     (destruct (preview_material l) eqn:Hpm; repeat mstep;
      (rewrite (set_name_empty depth i w _ s) by (try done; lia));
      repeat mstep; unfold is_initialized, has_image; simpl;
      rewrite ?Hch by done; simpl;
      rewrite ?bind_unfold, ?mret_unfold; do 2 f_equal; unfold deleted;
      try specialize (Hch eq_refl); clear Himg Hinit Hnames;
      destruct l; simpl in *; subst; reflexivity)).
Qed.

(** C1, amended. On a free slot without children of a document with a
    stack (its image channel -1 when it has no image, and no layer in use
    having the empty name), [initialize] followed by [delete] returns and
    leaves the slot with: identifier empty, image null, image channel -1, no
    channel, parent unset, no child, no node tree, node mask or preview
    material, not baked, and the empty name. The layer type, [enabled],
    [opacity] and the active channel index are those that [initialize] set
    (the type asked for, true, 1.0 and 0), not those from before it. Every
    other slot is as it was. *)
Theorem initialize_then_delete (host : Host) (depth i : nat) (name' ty : string)
    (chans : option (list Channel)) (eco : bool) (w : World) (l : MaterialLayer)
    (s : LayerStack) :
  3 <= depth ->
  layers w !! i = Some l -> pml_layer_stack w = Some s ->
  is_initialized l = false -> ty ∈ _VALID_LAYER_TYPES ->
  unique_name_in host (identifier <$> layers w) <> "" ->
  children l = [] ->
  (image l = None -> image_channel l = (-1)%Z) ->
  (forall x, x ∈ layers w -> identifier x <> "" -> name x <> "") ->
  exists w1 w2,
    initialize host depth i name' ty chans eco w = Ret tt w1
    /\ delete depth i w1 = Ret tt w2
    /\ layers w2 = <[i:=recycled ty]> (layers w)
    /\ pml_layer_stack w2 = pml_layer_stack w.
Proof.
  intros Hd Hl Hs Hun Hty Hid Hkids Himg Hnames.
  assert (Hi : i < length (layers w)) by (by eapply lookup_lt_Some).
  destruct (initialize_run host depth i name' ty chans eco w l s) as (l1 & ws & Hrun & Hfrom);
    [lia|done..| |].
  { by rewrite list_insert_id. }
  rewrite (upd_id _ _ _ Hl) in Hrun. rewrite list_insert_id in Hfrom by done.
  destruct Hfrom as (Hid1 & Hen & Hop & Hty1 & Hidx & Hpar & Hkids1 & Hmask & Hbaked & Himg1).
  assert (Hdel : delete depth i (upd i l1 (with_warnings ws w))
                 = Ret tt (upd i (deleted l1) (with_warnings ws w))).
  { apply (delete_run_leaf depth i (with_warnings ws w) l1 s).
    - lia.
    - done.
    - done.
    - unfold is_initialized. rewrite Hid1. by apply str_bool_true.
    - congruence.
    - destruct Himg1 as [?|[Him Hch]]; [by left|].
      destruct (image l) eqn:E; [left; unfold has_image; by rewrite Him|right].
      rewrite Hch. by apply Himg.
    - intros j x _ Hj. apply Hnames. by eapply list_elem_of_lookup_2. }
  eexists _, _. split; [exact Hrun|]. split; [exact Hdel|].
  split; [|done]. simpl. f_equal.
  unfold deleted, recycled. by rewrite Hen, Hop, Hty1, Hidx.
Qed.

Lemma initialize_then_delete_witness :
  exists w1 w2,
    initialize Demo.host 3 0 "Layer" "MATERIAL_PAINT"
      (Some [Demo.color; Demo.roughness; Demo.normal]) true (Demo.fresh 1) = Ret tt w1
    /\ delete 3 0 w1 = Ret tt w2
    /\ layers w2 = <[0:=recycled "MATERIAL_PAINT"]> (layers (Demo.fresh 1))
    /\ pml_layer_stack w2 = pml_layer_stack (Demo.fresh 1).
Proof.
  apply (initialize_then_delete Demo.host 3 0 "Layer" "MATERIAL_PAINT"
           (Some [Demo.color; Demo.roughness; Demo.normal]) true (Demo.fresh 1)
           default_layer Demo.stack).
  - lia.
  - reflexivity.
  - reflexivity.
  - reflexivity.
  - apply (bool_decide_unpack _). vm_compute. exact I.
  - vm_compute. discriminate.
  - reflexivity.
  - reflexivity.
  - intros x Hx Hid. apply list_elem_of_singleton in Hx. subst x. by destruct Hid.
Defined.

(** C1 as stated fails: a fresh slot (name "Layer", type MATERIAL_PAINT) is
    initialized as a fill layer and deleted; its name is then empty and its
    type MATERIAL_FILL, so it is not the layer it was before. *)
Lemma initialize_then_delete_not_restored :
  exists w1 w2 l2,
    layers (Demo.fresh 1) !! 0 = Some default_layer
    /\ initialize Demo.host 3 0 "Layer" "MATERIAL_FILL" None true (Demo.fresh 1) = Ret tt w1
    /\ delete 3 0 w1 = Ret tt w2
    /\ layers w2 !! 0 = Some l2
    /\ name l2 = "" /\ name default_layer = "Layer"
    /\ layer_type l2 = "MATERIAL_FILL" /\ layer_type default_layer = "MATERIAL_PAINT"
    /\ l2 <> default_layer.
Proof.
  eexists _, _, _. split; [reflexivity|].
  split; [vm_compute; reflexivity|]. split; [vm_compute; reflexivity|].
  split; [reflexivity|]. split_and!; try reflexivity. discriminate.
Qed.

(** ** The active channel index across the life cycle *)

Lemma slot_at_alter_any k j f (P : MaterialLayer -> Prop) ls :
  slot_at k P ls -> (forall l, P l -> P (f l)) -> slot_at k P (alter f j ls).
Proof.
  intros H Hf. destruct (decide (j = k)) as [->|Hne]; [by eapply slot_at_alter|].
  destruct H as (l & Hl & HP). exists l. split; [|done].
  by rewrite list_lookup_alter_ne.
Qed.

Ltac frame_any :=
  cbv beta in *; unfold layer_at in *;
  cbn [layers with_layers with_warnings pml_layer_stack warnings] in *;
  repeat (apply slot_at_alter_any;
          [|let l := fresh in let H := fresh in
            intros l H; unfold on_channels in *; simpl; exact H]);
  eassumption.

Lemma update_name_frame_any depth j k Q w :
  layer_at k (on_channels Q) w ->
  wlp (_update_name depth j) (fun _ => layer_at k (on_channels Q)) w.
Proof.
  revert w. induction depth as [|depth IH]; intros w H; [apply wlp_raise|].
  rewrite update_name_unfold. apply wlp_bind.
  eapply wlp_mono; [apply get_unique_name_pure|]. intros nm w' ->. cbv beta.
  repeat wlp_step; try frame_any.
  apply IH. frame_any.
Qed.

Lemma resolve_layer_wlp r w : wlp (resolve_layer r) (fun _ w' => w' = w) w.
Proof. intros p w' H. by eapply resolve_layer_pure. Qed.

(** [delete] never assigns the active channel index, of any slot. *)
Lemma delete_index_frame depth j k a w :
  layer_at k (on_channels (fun _ a' => a' = a)) w ->
  wlp (delete depth j) (fun _ => layer_at k (on_channels (fun _ a' => a' = a))) w.
Proof.
  revert j w. induction depth as [|depth IH]; intros j w H; [apply wlp_raise|].
  rewrite delete_unfold. unfold free_bake, deallocate_layer_image, _delete_preview_material,
    set_name.
  repeat wlp_step; try frame_any.
  all: try (eapply wlp_mono;
            [apply (wlp_for_each _ _ (layer_at k (on_channels (fun _ a' => a' = a))));
             [frame_any
             |let child := fresh "child" in let w1 := fresh "w" in
              let Hinv := fresh "Hinv" in let p := fresh "p" in let w2 := fresh "w" in
              intros child w1 Hinv; apply wlp_bind; eapply wlp_mono;
              [apply resolve_layer_wlp|]; intros p w2 ->; by apply IH]
            |intros ? ? ?; cbv beta]).
  all: repeat wlp_step.
  all: try (eapply wlp_mono;
            [apply (update_name_frame_any depth j k (fun _ a' => a' = a)); frame_any|];
            intros ? ? ?; cbv beta; repeat wlp_step).
  all: frame_any.
Qed.

(** [delete] of a layer in use empties its channels and keeps its active
    index. *)
Lemma delete_clears_channels depth i a w l :
  layers w !! i = Some l -> is_initialized l = true -> active_channel_index l = a ->
  wlp (delete depth i)
      (fun _ => layer_at i (on_channels (fun chs a' => chs = [] /\ a' = a))) w.
Proof.
  intros Hl Hinit Ha. destruct depth as [|depth]; [apply wlp_raise|].
  assert (H : layer_at i (on_channels (fun _ a' => a' = a)) w) by (by exists l).
  rewrite delete_unfold. unfold free_bake, deallocate_layer_image, _delete_preview_material,
    set_name.
  apply wlp_bind, wlp_self_layer. intros l0 Hl0.
  assert (l0 = l) as -> by congruence. rewrite Hinit. cbn [negb].
  repeat wlp_step.
  all: try (eapply wlp_mono;
            [apply (wlp_for_each _ _ (layer_at i (on_channels (fun _ a' => a' = a))));
             [frame_any
             |let child := fresh "child" in let w1 := fresh "w" in
              let Hinv := fresh "Hinv" in let p := fresh "p" in let w2 := fresh "w" in
              intros child w1 Hinv; apply wlp_bind; eapply wlp_mono;
              [apply resolve_layer_wlp|]; intros p w2 ->; by apply delete_index_frame]
            |intros ? ? ?; cbv beta]).
  all: repeat wlp_step.
  all: try (eapply wlp_mono;
            [apply (update_name_frame depth i (fun chs a' => chs = [] /\ a' = a)); frame_done|];
            intros ? ? ?; cbv beta; repeat wlp_step).
  all: frame_done.
Qed.

(** C8, amended. From a layer whose active index is in bounds, every run
    of [initialize], [add_channel], [remove_channel] and [clear_channels] in
    which each call returns ends with the active index in bounds: between 0
    and the last index of the channels, and 0 when there is no channel. And
    [remove_channel], having removed the channel at [k], sets the active
    index to the old one, less one when [k] came before it, clamped into the
    bounds of the channels that are left. [delete] is not among them: when
    it returns from a layer in use, the channels are gone and the active
    index is the one from before. *)
Theorem active_index_in_bounds (host : Host) (depth i : nat) :
  (forall (ops : list Op) (w w' : World),
     layer_at i index_ok w ->
     for_each ops (run_op host depth i) w = Ret tt w' ->
     layer_at i index_ok w')
  /\ (forall (n : string) (w : World) (l : MaterialLayer) (t : NodeTree) (k : nat),
        layers w !! i = Some l -> node_tree l = Some t ->
        coll_find ch_name n (channels l) = Some k ->
        exists w' l',
          remove_channel i (ArgStr n) w = Ret tt w'
          /\ layers w' !! i = Some l'
          /\ channels l' = coll_remove k (channels l)
          /\ active_channel_index l'
             = clamp_index k (active_channel_index l) (length (channels l')))
  /\ (forall (w w' : World) (l : MaterialLayer),
        layers w !! i = Some l -> is_initialized l = true ->
        delete depth i w = Ret tt w' ->
        exists l',
          layers w' !! i = Some l' /\ channels l' = []
          /\ active_channel_index l' = active_channel_index l).
Proof.
  split; [|split].
  - intros ops w w' Hok Hrun.
    refine (wlp_for_each ops (run_op host depth i) (layer_at i index_ok) w Hok _ tt w' Hrun).
    intros op w1 H1. destruct op; simpl.
    + eapply wlp_mono; [apply initialize_index|].
      intros ? w2 (l2 & Hl2 & H2). exists l2. split; [done|]. by apply index_zero_ok.
    + apply wlp_bind. eapply wlp_mono; [by apply add_channel_index_ok|].
      intros ? w2 H2. by apply wlp_ret.
    + apply remove_channel_index_ok.
    + by apply clear_channels_index_ok.
  - intros n w l t k Hl Ht Hk.
    assert (Hi : i < length (layers w)) by (by eapply lookup_lt_Some).
    eexists _, _. split.
    { rewrite <- (upd_id _ _ _ Hl) at 1. by apply remove_channel_run. }
    split; [by apply layers_upd|]. split; [reflexivity|]. simpl.
    assert (Hlen : length (coll_remove k (channels l)) = length (channels l) - 1).
    { unfold coll_remove. apply length_delete, lookup_lt_is_Some. by eapply coll_find_lt. }
    rewrite Hlen. pose proof (clamp_index_nonneg k (active_channel_index l)
                                (length (channels l) - 1)). lia.
  - intros w w' l Hl Hinit Hrun.
    destruct (delete_clears_channels depth i (active_channel_index l) w l Hl Hinit eq_refl
                tt w' Hrun) as (l' & Hl' & Hc & Ha).
    by exists l'.
Qed.

Lemma active_index_in_bounds_witness :
  layer_at 0 index_ok
    (Demo.world [with_active_channel_index 0
                   (with_channels [Demo.color] (Demo.live "id.00" []))]).
Proof.
  apply (proj1 (active_index_in_bounds Demo.host 2 0)
           [OpRemoveChannel (ArgStr "Roughness")]
           (Demo.world [with_active_channel_index 1
                          (with_channels [Demo.color; Demo.roughness]
                             (Demo.live "id.00" []))])).
  - eexists. split; [reflexivity|]. vm_compute. split; discriminate.
  - vm_compute. reflexivity.
Defined.

(** C8 as stated fails for [delete]: a layer with three channels whose
    active channel is the third is deleted; its channels are gone and its
    active index is still 2. *)
Lemma delete_keeps_active_index :
  exists w1 w2 w3 l2 l3,
    initialize Demo.host 2 0 "Layer" "MATERIAL_PAINT"
      (Some [Demo.color; Demo.roughness; Demo.normal]) true (Demo.fresh 1) = Ret tt w1
    /\ set_active_channel 0 Demo.normal w1 = Ret tt w2
    /\ layers w2 !! 0 = Some l2 /\ index_ok l2
    /\ delete 2 0 w2 = Ret tt w3
    /\ layers w3 !! 0 = Some l3
    /\ channels l3 = [] /\ active_channel_index l3 = 2%Z
    /\ ~ index_ok l3.
Proof.
  eexists _, _, _, _, _.
  split; [vm_compute; reflexivity|]. split; [vm_compute; reflexivity|].
  split; [reflexivity|]. split; [vm_compute; split; discriminate|].
  split; [vm_compute; reflexivity|]. split; [reflexivity|].
  split; [reflexivity|]. split; [reflexivity|]. vm_compute. discriminate.
Qed.

(** ** Walking up the parents *)

Lemma resolve_layer_Ret r w p w' :
  resolve_layer r w = Ret p w' ->
  ref_bool r = true /\ resolve r w = Ret (Some p) w /\ w' = w
  /\ get_layer_by_id w (ref_name r) = Some p.
Proof.
  unfold resolve_layer, resolve. rewrite bind_unfold.
  destruct (ref_bool r); cbn [negb]; [|done].
  rewrite bind_unfold. unfold the_layer_stack. rewrite bind_unfold. unfold layer_stack.
  destruct (pml_layer_stack w); cbv beta iota; [|done].
  rewrite mret_unfold. cbv beta iota.
  destruct (ref_layer_stack_id r); [|done].
  rewrite bind_unfold, get_world_unfold. cbv beta iota. rewrite mret_unfold.
  destruct (get_layer_by_id w (ref_name r)) as [q|]; [|done].
  rewrite mret_unfold. intros [= -> ->]. done.
Qed.

Lemma top_level_from_run w hops fuel j n :
  count_ancestors fuel w j = Some n ->
  top_level_from hops (Some j) w
  = if n <? hops then match nth_ancestor n w j with
                      | Some r => Ret r w
                      | None => Raise AttributeError w
                      end
    else Raise RuntimeError w.
Proof.
  revert fuel j n. induction hops as [|hops IH]; intros fuel j n Hn.
  - simpl. by destruct (n <? 0) eqn:E; [apply Nat.ltb_lt in E; lia|].
  - destruct fuel as [|fuel]; [done|]. simpl in Hn. cbn [top_level_from].
    rewrite bind_unfold. unfold self_layer.
    destruct (layers w !! j) as [l|] eqn:Hl; [|done].
    destruct (ref_bool (parent l)) eqn:Hp; cbn [negb] in *.
    + destruct (resolve_layer (parent l) w) as [p w1| |] eqn:Hr; [|done..].
      destruct (count_ancestors fuel w p) as [n'|] eqn:Hc; [|done].
      injection Hn as <-.
      destruct (resolve_layer_Ret _ _ _ _ Hr) as (_ & Hres & -> & _).
      rewrite bind_unfold, Hres. rewrite (IH fuel p n' Hc).
      change (S n' <? S hops) with (n' <? hops).
      cbn [nth_ancestor]. rewrite Hl. simpl. by rewrite Hr.
    + injection Hn as <-. by rewrite mret_unfold.
Qed.

Lemma count_ancestors_nth fuel w i n :
  count_ancestors fuel w i = Some n ->
  exists r l, nth_ancestor n w i = Some r /\ layers w !! r = Some l
              /\ ref_bool (parent l) = false.
Proof.
  revert i n. induction fuel as [|fuel IH]; intros i n Hn; [done|].
  simpl in Hn. destruct (layers w !! i) as [l|] eqn:Hl; [|done].
  destruct (ref_bool (parent l)) eqn:Hp; cbn [negb] in *.
  - destruct (resolve_layer (parent l) w) as [p w1| |] eqn:Hr; [|done..].
    destruct (count_ancestors fuel w p) as [n'|] eqn:Hc; [|done].
    injection Hn as <-. destruct (IH p n' Hc) as (r & lr & Hnth & Hlr & Hpr).
    exists r, lr. split; [|done]. cbn [nth_ancestor]. rewrite Hl. simpl. by rewrite Hr.
  - injection Hn as <-. by exists i, l.
Qed.

(** X1. For a layer with [n] ancestors, the parent references resolving up
    to an [n]-th ancestor without parent, [get_top_level_layer] returns that
    ancestor (the layer itself when [n] is 0) if [n] is at most 100, and
    raises [RuntimeError] if [n] is more than 100. The document is not
    changed. *)
Theorem get_top_level_layer_bounded (fuel : nat) (w : World) (i n : nat) :
  count_ancestors fuel w i = Some n ->
  exists r l, nth_ancestor n w i = Some r /\ layers w !! r = Some l
    /\ ref_bool (parent l) = false
    /\ get_top_level_layer i w = if n <=? 100 then Ret r w else Raise RuntimeError w.
Proof.
  intros Hn. destruct (count_ancestors_nth _ _ _ _ Hn) as (r & lr & Hnth & Hlr & Hpr).
  exists r, lr. split_and!; [done..|].
  destruct fuel as [|fuel]; [done|]. simpl in Hn. unfold get_top_level_layer.
  rewrite bind_unfold. unfold self_layer.
  destruct (layers w !! i) as [l|] eqn:Hl; [|done].
  destruct (ref_bool (parent l)) eqn:Hp; cbn [negb] in *.
  - destruct (resolve_layer (parent l) w) as [p w1| |] eqn:Hr; [|done..].
    destruct (count_ancestors fuel w p) as [n'|] eqn:Hc; [|done].
    injection Hn as <-.
    destruct (resolve_layer_Ret _ _ _ _ Hr) as (_ & Hres & -> & _).
    rewrite bind_unfold, Hres. rewrite (top_level_from_run _ _ _ _ _ Hc).
    change (S n' <=? 100) with (n' <? 100).
    cbn [nth_ancestor] in Hnth. rewrite Hl in Hnth. simpl in Hnth. rewrite Hr in Hnth.
    by rewrite Hnth.
  - injection Hn as <-. simpl in Hnth. injection Hnth as <-. by rewrite mret_unfold.
Qed.

Lemma nth_ancestor_S n w i a :
  nth_ancestor (S n) w i = Some a ->
  exists l p, layers w !! i = Some l /\ ref_bool (parent l) = true
    /\ resolve (parent l) w = Ret (Some p) w
    /\ get_layer_by_id w (ref_name (parent l)) = Some p
    /\ resolve_layer (parent l) w = Ret p w
    /\ nth_ancestor n w p = Some a.
Proof.
  cbn [nth_ancestor]. destruct (layers w !! i) as [l|] eqn:Hl; [|done]. simpl.
  destruct (resolve_layer (parent l) w) as [p w1| |] eqn:Hr; [|done..].
  destruct (resolve_layer_Ret _ _ _ _ Hr) as (Hb & Hres & -> & Hid).
  intros Hn. by exists l, p.
Qed.

Lemma top_level_from_gives_up w hops j a :
  nth_ancestor hops w j = Some a ->
  top_level_from hops (Some j) w = Raise RuntimeError w.
Proof.
  revert j. induction hops as [|hops IH]; intros j Hn; [done|].
  destruct (nth_ancestor_S _ _ _ _ Hn) as (l & p & Hl & Hb & Hres & _ & _ & Hn').
  cbn [top_level_from]. rewrite bind_unfold. unfold self_layer. rewrite Hl, Hb. cbn [negb].
  rewrite bind_unfold, Hres. by apply IH.
Qed.

(** X2. When the parent references can be followed for 101 links from the
    layer, each layer on the way having a parent that resolves (so on every
    cycle of parents), [get_top_level_layer] ends with a [RuntimeError]; the
    document is not changed. *)
Theorem get_top_level_layer_gives_up (w : World) (i a : nat) :
  nth_ancestor 101 w i = Some a ->
  get_top_level_layer i w = Raise RuntimeError w.
Proof.
  intros Hn.
  destruct (nth_ancestor_S _ _ _ _ Hn) as (l & p & Hl & Hb & Hres & _ & _ & Hn').
  unfold get_top_level_layer. rewrite bind_unfold. unfold self_layer. rewrite Hl, Hb.
  cbn [negb]. rewrite bind_unfold, Hres. by eapply top_level_from_gives_up.
Qed.

Lemma get_top_level_layer_gives_up_witness :
  get_top_level_layer 0 (Demo.world Demo.cycle) = Raise RuntimeError (Demo.world Demo.cycle).
Proof.
  apply (get_top_level_layer_gives_up (Demo.world Demo.cycle) 0 1).
  vm_compute. reflexivity.
Defined.

Lemma get_top_level_layer_bounded_witness :
  exists r l, nth_ancestor 2 (Demo.world (Demo.chain 3)) 2 = Some r
    /\ layers (Demo.world (Demo.chain 3)) !! r = Some l
    /\ ref_bool (parent l) = false
    /\ get_top_level_layer 2 (Demo.world (Demo.chain 3))
       = if 2 <=? 100 then Ret r (Demo.world (Demo.chain 3))
         else Raise RuntimeError (Demo.world (Demo.chain 3)).
Proof.
  apply (get_top_level_layer_bounded 5 (Demo.world (Demo.chain 3)) 2 2).
  vm_compute. reflexivity.
Defined.

Lemma parent_eq_layer r (o : MaterialLayer) :
  ref_bool r = true ->
  MaterialLayerRef_eq r (ObjLayer o) = String.eqb (identifier o) (ref_name r).
Proof. unfold MaterialLayerRef_eq, ref_bool. by intros ->. Qed.

Lemma descends_from_run w (o : MaterialLayer) hops fuel j n :
  count_ancestors fuel w j = Some n -> n < hops ->
  descends_from hops (Some j) (ObjLayer o) w
  = Ret (bool_decide (identifier o ∈ parent_names n w j)) w.
Proof.
  revert fuel j n. induction hops as [|hops IH]; intros fuel j n Hn Hlt; [lia|].
  destruct fuel as [|fuel]; [done|]. simpl in Hn. cbn [descends_from].
  rewrite bind_unfold. unfold self_layer.
  destruct (layers w !! j) as [l|] eqn:Hl; [|done].
  destruct (ref_bool (parent l)) eqn:Hp; cbn [negb] in *.
  - destruct (resolve_layer (parent l) w) as [p w1| |] eqn:Hr; [|done..].
    destruct (count_ancestors fuel w p) as [n'|] eqn:Hc; [|done].
    injection Hn as <-.
    destruct (resolve_layer_Ret _ _ _ _ Hr) as (_ & Hres & -> & _).
    cbn [parent_names]. rewrite Hl, Hr. rewrite parent_eq_layer by done.
    destruct (String.eqb (identifier o) (ref_name (parent l))) eqn:E.
    + apply String.eqb_eq in E. rewrite mret_unfold. f_equal. symmetry.
      apply bool_decide_eq_true_2. rewrite E. apply list_elem_of_here.
    + apply String.eqb_neq in E. rewrite bind_unfold, Hres.
      rewrite (IH fuel p n' Hc) by lia. f_equal. apply bool_decide_ext.
      rewrite elem_of_cons. split; [by right|]. by intros [?|?].
  - injection Hn as <-. rewrite mret_unfold. reflexivity.
Qed.

(** X3. For a layer with [n] ancestors, [n] below 100, [is_descendent_of]
    returns: true exactly when the identifier of the other layer is the name
    held by one of the [n] parent references on the way up. The document is
    not changed. *)
Theorem is_descendent_of_ancestors (fuel : nat) (w : World) (i n : nat) (o : MaterialLayer) :
  count_ancestors fuel w i = Some n -> n < 100 ->
  is_descendent_of i (ObjLayer o) w
  = Ret (bool_decide (identifier o ∈ parent_names n w i)) w.
Proof. intros Hn Hlt. by eapply descends_from_run. Qed.

Lemma is_descendent_of_ancestors_witness :
  is_descendent_of 2 (ObjLayer (Demo.chain_layer 0)) (Demo.world (Demo.chain 3))
  = Ret (bool_decide (identifier (Demo.chain_layer 0)
                        ∈ parent_names 2 (Demo.world (Demo.chain 3)) 2))
      (Demo.world (Demo.chain 3)).
Proof.
  apply (is_descendent_of_ancestors 5 (Demo.world (Demo.chain 3)) 2 2 (Demo.chain_layer 0)).
  - vm_compute. reflexivity.
  - lia.
Defined.

Lemma descends_from_gives_up w (o : MaterialLayer) hops j a :
  nth_ancestor hops w j = Some a ->
  identifier o ∉ parent_names hops w j ->
  descends_from hops (Some j) (ObjLayer o) w = Raise RuntimeError w.
Proof.
  revert j. induction hops as [|hops IH]; intros j Hn Hnot; [done|].
  destruct (nth_ancestor_S _ _ _ _ Hn) as (l & p & Hl & Hb & Hres & _ & Hr & Hn').
  cbn [descends_from]. rewrite bind_unfold. unfold self_layer. rewrite Hl, Hb. cbn [negb].
  cbn [parent_names] in Hnot. rewrite Hl, Hr in Hnot.
  apply not_elem_of_cons in Hnot as [Hne Hnot].
  rewrite parent_eq_layer by done.
  apply String.eqb_neq in Hne. rewrite Hne.
  rewrite bind_unfold, Hres. by apply IH.
Qed.

(** X4. When the parent references can be followed for 100 links from the
    layer and none of them holds the identifier of the other layer,
    [is_descendent_of] ends with a [RuntimeError]. *)
Theorem is_descendent_of_gives_up (w : World) (i a : nat) (o : MaterialLayer) :
  nth_ancestor 100 w i = Some a ->
  identifier o ∉ parent_names 100 w i ->
  is_descendent_of i (ObjLayer o) w = Raise RuntimeError w.
Proof. intros Hn Hnot. by eapply descends_from_gives_up. Qed.

Lemma is_descendent_of_gives_up_witness :
  is_descendent_of 0 (ObjLayer default_layer) (Demo.world Demo.cycle)
  = Raise RuntimeError (Demo.world Demo.cycle).
Proof.
  apply (is_descendent_of_gives_up (Demo.world Demo.cycle) 0 0 default_layer).
  - vm_compute. reflexivity.
  - apply (bool_decide_unpack _). vm_compute. exact I.
Defined.

(** X5. For a layer in use, [is_top_level] is true exactly when
    [stack_depth] returns 0. Such a layer is its own top-level layer, and
    [is_descendent_of] answers false for it, whatever the other object. *)
Theorem is_top_level_depth_0 (depth i : nat) (w : World) (l : MaterialLayer) :
  layers w !! i = Some l -> is_initialized l = true ->
  (is_top_level l = true <-> stack_depth (S depth) i w = Ret 0 w)
  /\ (is_top_level l = true ->
      get_top_level_layer i w = Ret i w
      /\ forall other, is_descendent_of i other w = Ret false w).
Proof.
  intros Hl Hinit. unfold is_top_level. rewrite Hinit, andb_true_r. split.
  - rewrite stack_depth_unfold, bind_unfold. unfold self_layer. rewrite Hl.
    destruct (ref_bool (parent l)) eqn:Hp; cbn [negb]; [|done].
    split; [done|]. rewrite bind_unfold.
    destruct (resolve_layer (parent l) w) as [p w1| |]; [|done..].
    rewrite bind_unfold. destruct (layers w1 !! p) as [lp|]; [|done].
    destruct (negb (ref_bool (parent lp))); [done|]. rewrite bind_unfold.
    destruct (resolve_layer (parent lp) w1) as [g w2| |]; [|done..].
    rewrite bind_unfold. destruct (stack_depth depth g w2) as [m w3| |]; [|done..].
    rewrite mret_unfold. intros [= ?]. lia.
  - intros Hp. apply negb_true_iff in Hp. split; [|intros other].
    + unfold get_top_level_layer. rewrite bind_unfold. unfold self_layer.
      by rewrite Hl, Hp.
    + unfold is_descendent_of. cbn [descends_from]. rewrite bind_unfold.
      unfold self_layer. by rewrite Hl, Hp.
Qed.

Lemma is_top_level_depth_0_witness :
  (is_top_level (Demo.chain_layer 0) = true
   <-> stack_depth 2 0 (Demo.world (Demo.chain 3)) = Ret 0 (Demo.world (Demo.chain 3)))
  /\ (is_top_level (Demo.chain_layer 0) = true ->
      get_top_level_layer 0 (Demo.world (Demo.chain 3)) = Ret 0 (Demo.world (Demo.chain 3))
      /\ forall other, is_descendent_of 0 other (Demo.world (Demo.chain 3))
                       = Ret false (Demo.world (Demo.chain 3))).
Proof.
  apply (is_top_level_depth_0 1 0 (Demo.world (Demo.chain 3)) (Demo.chain_layer 0));
    reflexivity.
Defined.

(** ** References *)

(** X6. A reference equals itself exactly when it is set; equality of two
    references is symmetric; a reference equals a layer only if the layer is
    in use and its identifier is the name that the reference holds; it
    equals no object of another kind. *)
Theorem MaterialLayerRef_eq_facts (a b : MaterialLayerRef) (l : MaterialLayer) :
  MaterialLayerRef_eq a (ObjRef a) = ref_bool a
  /\ MaterialLayerRef_eq a (ObjRef b) = MaterialLayerRef_eq b (ObjRef a)
  /\ (MaterialLayerRef_eq a (ObjLayer l) = true ->
      is_initialized l = true /\ identifier l = ref_name a)
  /\ MaterialLayerRef_eq a ObjOther = false.
Proof.
  unfold MaterialLayerRef_eq, ref_bool, is_initialized. split_and!.
  - destruct (str_bool (ref_name a)); cbn [negb]; [apply String.eqb_refl|done].
  - destruct (str_bool (ref_name a)) eqn:Ea, (str_bool (ref_name b)) eqn:Eb; cbn [negb].
    + apply String.eqb_sym.
    + apply str_bool_false in Eb. apply str_bool_true in Ea. rewrite Eb.
      apply String.eqb_neq. congruence.
    + apply str_bool_false in Ea. apply str_bool_true in Eb. rewrite Ea.
      symmetry. apply String.eqb_neq. congruence.
    + done.
  - destruct (str_bool (ref_name a)) eqn:Ea; cbn [negb]; [|done].
    intros E. apply String.eqb_eq in E. by rewrite E.
  - by destruct (negb _).
Qed.

Lemma coll_find_first {A} (key : A -> string) (n : string) (l : list A) (k : nat) (x : A) :
  l !! k = Some x -> key x = n ->
  (forall j y, j < k -> l !! j = Some y -> key y <> n) ->
  coll_find key n l = Some k.
Proof.
  revert k. induction l as [|a l IH]; intros k Hk Hx Hlt; [done|]. simpl.
  destruct k as [|k].
  - injection Hk as ->. apply String.eqb_eq in Hx. by rewrite Hx.
  - assert (E : String.eqb (key a) n = false).
    { apply String.eqb_neq. apply (Hlt 0 a); [lia|done]. }
    rewrite E. rewrite (IH k); [done|done|done|].
    intros j y Hj Hy. apply (Hlt (S j) y); [lia|done].
Qed.

(** X7. A reference set to a layer in use of the document, the first slot
    with its identifier, is truthy, equals the layer and resolves to its
    slot. A reference set to [None] is falsy, and resolving it raises
    [RuntimeError]. The document is not changed. *)
Theorem ref_set_resolve (w : World) (i : nat) (l : MaterialLayer) (s : LayerStack) :
  layers w !! i = Some l -> pml_layer_stack w = Some s ->
  is_initialized l = true ->
  (forall j x, j < i -> layers w !! j = Some x -> identifier x <> identifier l) ->
  ref_bool (ref_set (Some (l, s))) = true
  /\ MaterialLayerRef_eq (ref_set (Some (l, s))) (ObjLayer l) = true
  /\ resolve (ref_set (Some (l, s))) w = Ret (Some i) w
  /\ ref_bool (ref_set None) = false
  /\ resolve (ref_set None) w = Raise RuntimeError w.
Proof.
  intros Hl Hs Hinit Hfirst. unfold is_initialized in Hinit.
  split_and!; try done.
  - unfold MaterialLayerRef_eq. simpl. rewrite Hinit. apply String.eqb_refl.
  - unfold resolve, ref_bool. cbn [ref_set ref_name ref_layer_stack_id].
    rewrite Hinit. cbn [negb]. rewrite bind_unfold. unfold the_layer_stack.
    rewrite bind_unfold. unfold layer_stack. rewrite Hs. cbv beta iota.
    rewrite mret_unfold. cbv beta iota. rewrite bind_unfold, get_world_unfold.
    cbv beta iota. rewrite mret_unfold. do 2 f_equal. unfold get_layer_by_id.
    by apply (coll_find_first identifier _ _ i l).
Qed.

Lemma ref_set_resolve_witness :
  ref_bool (ref_set (Some (Demo.chain_layer 1, Demo.stack))) = true
  /\ MaterialLayerRef_eq (ref_set (Some (Demo.chain_layer 1, Demo.stack)))
       (ObjLayer (Demo.chain_layer 1)) = true
  /\ resolve (ref_set (Some (Demo.chain_layer 1, Demo.stack))) (Demo.world (Demo.chain 3))
     = Ret (Some 1) (Demo.world (Demo.chain 3))
  /\ ref_bool (ref_set None) = false
  /\ resolve (ref_set None) (Demo.world (Demo.chain 3))
     = Raise RuntimeError (Demo.world (Demo.chain 3)).
Proof.
  apply (ref_set_resolve (Demo.world (Demo.chain 3)) 1 (Demo.chain_layer 1) Demo.stack).
  - reflexivity.
  - reflexivity.
  - reflexivity.
  - intros j x Hj Hx. assert (j = 0) as -> by lia. vm_compute in Hx.
    injection Hx as <-. vm_compute. discriminate.
Defined.

(** ** Channels *)

(** X8. On a layer without a channel of name [n]: [remove_channel] with
    [n], or with a channel of that name, raises [ValueError], and so does
    the assignment of such a channel as the active channel; [remove_channel]
    with what is neither a channel nor a string, and [add_channel] with what
    is not a channel, raise [TypeError]. Each time the document is as it was
    before the call. *)
Theorem channel_calls_fail_clean (host : Host) (i : nat) (w : World) (l : MaterialLayer)
    (n : string) (c : Channel) :
  layers w !! i = Some l ->
  n ∉ (ch_name <$> channels l) -> ch_name c = n ->
  remove_channel i (ArgStr n) w = Raise ValueError w
  /\ remove_channel i (ArgChannel c) w = Raise ValueError w
  /\ set_active_channel i c w = Raise ValueError w
  /\ remove_channel i ArgOther w = Raise TypeError w
  /\ add_channel host i (ArgStr n) w = Raise TypeError w
  /\ add_channel host i ArgOther w = Raise TypeError w.
Proof.
  intros Hl Hn Hc. unfold remove_channel, set_active_channel.
  rewrite !bind_unfold, !mret_unfold. cbv beta iota. rewrite !bind_unfold.
  unfold self_layer. rewrite Hl, Hc. cbv beta iota.
  rewrite (coll_get_None _ _ _ Hn). apply coll_find_None in Hn. rewrite Hn. done.
Qed.

Lemma channel_calls_fail_clean_witness :
  remove_channel 0 (ArgStr "Normal") (Demo.world [Demo.live "id.00" []])
  = Raise ValueError (Demo.world [Demo.live "id.00" []])
  /\ remove_channel 0 (ArgChannel Demo.normal) (Demo.world [Demo.live "id.00" []])
     = Raise ValueError (Demo.world [Demo.live "id.00" []])
  /\ set_active_channel 0 Demo.normal (Demo.world [Demo.live "id.00" []])
     = Raise ValueError (Demo.world [Demo.live "id.00" []])
  /\ remove_channel 0 ArgOther (Demo.world [Demo.live "id.00" []])
     = Raise TypeError (Demo.world [Demo.live "id.00" []])
  /\ add_channel Demo.host 0 (ArgStr "Normal") (Demo.world [Demo.live "id.00" []])
     = Raise TypeError (Demo.world [Demo.live "id.00" []])
  /\ add_channel Demo.host 0 ArgOther (Demo.world [Demo.live "id.00" []])
     = Raise TypeError (Demo.world [Demo.live "id.00" []]).
Proof.
  apply (channel_calls_fail_clean Demo.host 0 (Demo.world [Demo.live "id.00" []])
           (Demo.live "id.00" []) "Normal" Demo.normal).
  - reflexivity.
  - apply (bool_decide_unpack _). vm_compute. exact I.
  - reflexivity.
Defined.

(** X9. On a layer without node tree, [remove_channel] of a name that the
    layer has a channel of raises [AttributeError] when the first channel of
    that name is removed already: the document it leaves differs from the
    one before by that channel only, and the active index is not adjusted. *)
Theorem remove_channel_without_tree (i : nat) (w : World) (l : MaterialLayer)
    (n : string) (k : nat) :
  layers w !! i = Some l -> node_tree l = None ->
  coll_find ch_name n (channels l) = Some k ->
  remove_channel i (ArgStr n) w
  = Raise AttributeError (upd i (with_channels (coll_remove k (channels l)) l) w).
Proof.
  intros Hl Ht Hk. rewrite <- (upd_id i l w Hl) at 1.
  assert (Hi : i < length (layers w)) by (by eapply lookup_lt_Some).
  unfold remove_channel. repeat mstep.
  assert (Hg : is_Some (coll_get ch_name n (channels l))).
  { apply coll_get_is_Some. apply (coll_contains_true ch_name). unfold coll_contains.
    by rewrite Hk. }
  destruct Hg as [x Hx]. rewrite Hx, Hk. repeat mstep.
  unfold the_node_tree. repeat mstep. simpl. rewrite Ht.
  by rewrite coll_remove_alter.
Qed.

Lemma remove_channel_without_tree_witness :
  remove_channel 0 (ArgStr "Roughness")
    (Demo.world [with_channels [Demo.color; Demo.roughness] default_layer])
  = Raise AttributeError
      (upd 0 (with_channels
                (coll_remove 1 (channels (with_channels [Demo.color; Demo.roughness]
                                            default_layer)))
                (with_channels [Demo.color; Demo.roughness] default_layer))
         (Demo.world [with_channels [Demo.color; Demo.roughness] default_layer])).
Proof.
  apply (remove_channel_without_tree 0
           (Demo.world [with_channels [Demo.color; Demo.roughness] default_layer])
           (with_channels [Demo.color; Demo.roughness] default_layer) "Roughness" 1);
    reflexivity.
Defined.

Lemma clamp_index_last a : clamp_index 0 a 0 = 0%Z.
Proof. unfold clamp_index. lia. Qed.

Lemma clear_loop_run i w (chs : list Channel) :
  i < length (layers w) ->
  forall l t, channels l = chs -> node_tree l = Some t ->
  for_each (ch_name <$> chs) (fun ch_name => remove_channel i (ArgStr ch_name)) (upd i l w)
  = Ret tt (upd i
      match chs with
      | [] => l
      | _ :: _ =>
          with_active_channel_index 0
            (with_node_tree
               (Some (foldl (fun t n => remove_output n t) t (ch_name <$> chs)))
               (with_channels [] l))
      end w).
Proof.
  intros Hi. induction chs as [|c chs IH]; intros l t Hc Ht; [done|].
  rewrite fmap_cons. cbn [for_each]. rewrite bind_unfold.
  rewrite (remove_channel_run i (ch_name c) w l t 0 Hi Ht);
    [|by rewrite Hc; simpl; rewrite String.eqb_refl].
  rewrite Hc. cbn [coll_remove delete list_delete length Nat.sub foldl].
  rewrite Nat.sub_0_r.
  erewrite IH; [|reflexivity|reflexivity].
  destruct chs as [|c' chs'].
  - simpl. rewrite clamp_index_last. do 2 f_equal.
  - do 2 f_equal.
Qed.

(** X10. On a layer with a node tree [clear_channels] returns. It leaves no
    channel; the active index is 0 when there was a channel and as before
    when there was none; the node tree has lost, for each name of a channel
    in turn, its first output of that name; the rest of the layer and of the
    document is as before. *)
Theorem clear_channels_empties (i : nat) (w : World) (l : MaterialLayer) (t : NodeTree) :
  layers w !! i = Some l -> node_tree l = Some t ->
  exists l1 t1,
    clear_channels i w = Ret tt (upd i l1 w)
    /\ channels l1 = []
    /\ active_channel_index l1
       = match channels l with [] => active_channel_index l | _ :: _ => 0%Z end
    /\ node_tree l1 = Some t1
    /\ t1 = foldl (fun t n => remove_output n t) t (ch_name <$> channels l)
    /\ with_active_channel_index 0 (with_node_tree None (with_channels [] l1))
       = with_active_channel_index 0 (with_node_tree None (with_channels [] l)).
Proof.
  intros Hl Ht. assert (Hi : i < length (layers w)) by (by eapply lookup_lt_Some).
  assert (Hrun : clear_channels i (upd i l w) = Ret tt (upd i
      match channels l with
      | [] => l
      | _ :: _ =>
          with_active_channel_index 0
            (with_node_tree
               (Some (foldl (fun t n => remove_output n t) t (ch_name <$> channels l)))
               (with_channels [] l))
      end w)).
  { unfold clear_channels. repeat mstep.
    by rewrite (clear_loop_run i w (channels l) Hi l t eq_refl Ht). }
  rewrite (upd_id i l w Hl) in Hrun at 1. rewrite Hrun.
  destruct (channels l) as [|c chs] eqn:Hc.
  - exists l, t. split_and!; done.
  - eexists _, _. split; [reflexivity|]. split_and!; done.
Qed.

Lemma clear_channels_empties_witness :
  exists l1 t1,
    clear_channels 0
      (Demo.world [with_channels [Demo.color] (Demo.live "id.00" [])])
    = Ret tt (upd 0 l1 (Demo.world [with_channels [Demo.color] (Demo.live "id.00" [])]))
    /\ channels l1 = []
    /\ active_channel_index l1
       = match channels (with_channels [Demo.color] (Demo.live "id.00" [])) with
         | [] => active_channel_index (with_channels [Demo.color] (Demo.live "id.00" []))
         | _ :: _ => 0%Z
         end
    /\ node_tree l1 = Some t1
    /\ t1 = foldl (fun t n => remove_output n t) (Demo.tree [])
              (ch_name <$> channels (with_channels [Demo.color] (Demo.live "id.00" [])))
    /\ with_active_channel_index 0 (with_node_tree None (with_channels [] l1))
       = with_active_channel_index 0
           (with_node_tree None
              (with_channels [] (with_channels [Demo.color] (Demo.live "id.00" [])))).
Proof.
  apply (clear_channels_empties 0
           (Demo.world [with_channels [Demo.color] (Demo.live "id.00" [])])
           (with_channels [Demo.color] (Demo.live "id.00" [])) (Demo.tree []));
    reflexivity.
Defined.

(** X11. The assignment of a channel as the active channel, on a layer whose
    first channel of that name is at [k], sets the active index to [k], which
    is in bounds and changes nothing else; the active channel read
    afterwards is the channel of the layer at [k], which has that name. *)
Theorem active_channel_set_get (i : nat) (w : World) (l : MaterialLayer) (c : Channel)
    (k : nat) :
  layers w !! i = Some l ->
  coll_find ch_name (ch_name c) (channels l) = Some k ->
  exists c',
    set_active_channel i c w
    = Ret tt (upd i (with_active_channel_index (Z.of_nat k) l) w)
    /\ active_channel i (upd i (with_active_channel_index (Z.of_nat k) l) w)
       = Ret (Some c') (upd i (with_active_channel_index (Z.of_nat k) l) w)
    /\ channels l !! k = Some c' /\ ch_name c' = ch_name c
    /\ index_ok (with_active_channel_index (Z.of_nat k) l).
Proof.
  intros Hl Hk. assert (Hi : i < length (layers w)) by (by eapply lookup_lt_Some).
  destruct (coll_find_Some _ _ _ _ Hk) as (c' & Hc' & Hn & _).
  exists c'. split_and!; try done.
  - unfold set_active_channel. rewrite <- (upd_id i l w Hl) at 1. repeat mstep.
    by rewrite Hk, modify_upd.
  - unfold active_channel. repeat mstep. simpl.
    destruct (channels l) as [|x chs] eqn:Hc; [done|].
    unfold py_getitem. rewrite bind_unfold.
    replace (Z.max (Z.of_nat k) 0 <? 0)%Z with false by (symmetry; apply Z.ltb_ge; lia).
    replace (Z.max (Z.of_nat k) 0 <? 0)%Z with false by (symmetry; apply Z.ltb_ge; lia).
    replace (Z.to_nat (Z.max (Z.of_nat k) 0)) with k by lia.
    by rewrite Hc'.
  - unfold index_ok. simpl. apply lookup_lt_Some in Hc'.
    destruct (channels l); simpl in *; lia.
Qed.

Lemma active_channel_set_get_witness :
  exists c',
    set_active_channel 0 Demo.roughness
      (Demo.world [with_channels [Demo.color; Demo.roughness] default_layer])
    = Ret tt (upd 0 (with_active_channel_index (Z.of_nat 1)
                       (with_channels [Demo.color; Demo.roughness] default_layer))
                (Demo.world [with_channels [Demo.color; Demo.roughness] default_layer]))
    /\ active_channel 0
         (upd 0 (with_active_channel_index (Z.of_nat 1)
                   (with_channels [Demo.color; Demo.roughness] default_layer))
            (Demo.world [with_channels [Demo.color; Demo.roughness] default_layer]))
       = Ret (Some c')
           (upd 0 (with_active_channel_index (Z.of_nat 1)
                     (with_channels [Demo.color; Demo.roughness] default_layer))
              (Demo.world [with_channels [Demo.color; Demo.roughness] default_layer]))
    /\ channels (with_channels [Demo.color; Demo.roughness] default_layer) !! 1 = Some c'
    /\ ch_name c' = ch_name Demo.roughness
    /\ index_ok (with_active_channel_index (Z.of_nat 1)
                   (with_channels [Demo.color; Demo.roughness] default_layer)).
Proof.
  apply (active_channel_set_get 0
           (Demo.world [with_channels [Demo.color; Demo.roughness] default_layer])
           (with_channels [Demo.color; Demo.roughness] default_layer) Demo.roughness 1);
    reflexivity.
Defined.

(** X12. With the active index in bounds, reading the active channel does not
    raise: it gives [None] on a layer without channels and the channel at
    the index otherwise, and there is one. The document is not changed. *)
Theorem active_channel_in_bounds (i : nat) (w : World) (l : MaterialLayer) :
  layers w !! i = Some l -> index_ok l ->
  active_channel i w
  = Ret (match channels l with
         | [] => None
         | _ :: _ => channels l !! Z.to_nat (active_channel_index l)
         end) w
  /\ (channels l <> [] -> is_Some (channels l !! Z.to_nat (active_channel_index l))).
Proof.
  intros Hl Hok. unfold active_channel. rewrite bind_unfold. unfold self_layer.
  rewrite Hl. unfold index_ok in Hok.
  destruct (channels l) as [|x chs] eqn:Hc; [done|].
  assert (Hlt : Z.to_nat (active_channel_index l) < length (x :: chs)) by lia.
  apply lookup_lt_is_Some in Hlt. split; [|done]. destruct Hlt as [c Hlook].
  unfold py_getitem. rewrite bind_unfold.
  replace (active_channel_index l <? 0)%Z with false by (symmetry; apply Z.ltb_ge; lia).
  replace (active_channel_index l <? 0)%Z with false by (symmetry; apply Z.ltb_ge; lia).
  by rewrite Hlook.
Qed.

Lemma active_channel_in_bounds_witness :
  active_channel 0 (Demo.world [with_channels [Demo.color; Demo.roughness] default_layer])
  = Ret (match channels (with_channels [Demo.color; Demo.roughness] default_layer) with
         | [] => None
         | _ :: _ =>
             channels (with_channels [Demo.color; Demo.roughness] default_layer)
               !! Z.to_nat (active_channel_index
                              (with_channels [Demo.color; Demo.roughness] default_layer))
         end)
      (Demo.world [with_channels [Demo.color; Demo.roughness] default_layer])
  /\ (channels (with_channels [Demo.color; Demo.roughness] default_layer) <> [] ->
      is_Some (channels (with_channels [Demo.color; Demo.roughness] default_layer)
                 !! Z.to_nat (active_channel_index
                                (with_channels [Demo.color; Demo.roughness] default_layer)))).
Proof.
  apply (active_channel_in_bounds 0
           (Demo.world [with_channels [Demo.color; Demo.roughness] default_layer])
           (with_channels [Demo.color; Demo.roughness] default_layer)).
  - reflexivity.
  - vm_compute. split; discriminate.
Defined.

(** ** Baked channels *)

Lemma free_bake_names (chs : list Channel) :
  ch_name <$> ((fun ch => if ch_is_baked ch then Channel_free_bake ch else ch) <$> chs)
  = ch_name <$> chs.
Proof.
  induction chs as [|c chs IH]; [done|]. rewrite !fmap_cons, IH.
  by destruct (ch_is_baked c).
Qed.

Lemma free_bake_unbaked (chs : list Channel) :
  existsb ch_is_baked chs = false ->
  (fun ch => if ch_is_baked ch then Channel_free_bake ch else ch) <$> chs = chs.
Proof.
  induction chs as [|c chs IH]; [done|]. intros H. simpl in H.
  apply orb_false_elim in H as [Hc Hchs]. rewrite fmap_cons, Hc. f_equal. by apply IH.
Qed.

(** X13. [free_bake] returns on every layer. Afterwards the layer is not
    baked and none of its channels is; the channels have the names they had,
    in the same order, and are the same channels when none was baked;
    nothing else changes. *)
Theorem free_bake_frees (i : nat) (w : World) (l : MaterialLayer) :
  layers w !! i = Some l ->
  exists chs,
    free_bake i w = Ret tt (upd i (with_is_baked false (with_channels chs l)) w)
    /\ any_channel_baked (with_is_baked false (with_channels chs l)) = false
    /\ (ch_name <$> chs) = (ch_name <$> channels l)
    /\ (any_channel_baked l = false -> chs = channels l).
Proof.
  intros Hl. assert (Hi : i < length (layers w)) by (by eapply lookup_lt_Some).
  eexists. split; [|split_and!].
  - rewrite <- (upd_id i l w Hl) at 1. by apply free_bake_run.
  - apply free_bake_none.
  - apply free_bake_names.
  - apply free_bake_unbaked.
Qed.

Lemma free_bake_frees_witness :
  exists chs,
    free_bake 0 (Demo.world [with_channels [Demo.color] default_layer])
    = Ret tt (upd 0 (with_is_baked false
                       (with_channels chs (with_channels [Demo.color] default_layer)))
                (Demo.world [with_channels [Demo.color] default_layer]))
    /\ any_channel_baked
         (with_is_baked false
            (with_channels chs (with_channels [Demo.color] default_layer))) = false
    /\ (ch_name <$> chs)
       = (ch_name <$> channels (with_channels [Demo.color] default_layer))
    /\ (any_channel_baked (with_channels [Demo.color] default_layer) = false ->
        chs = channels (with_channels [Demo.color] default_layer)).
Proof.
  apply (free_bake_frees 0 (Demo.world [with_channels [Demo.color] default_layer])
           (with_channels [Demo.color] default_layer)).
  reflexivity.
Defined.

(** ** Converting a layer *)

Lemma with_layer_type_id l : with_layer_type (layer_type l) l = l.
Proof. by destruct l. Qed.

(** X14. [convert_to] with a string that is no layer type raises
    [ValueError] and changes nothing. With a layer type, in a document with
    a stack, it returns and the layer has that type. Only the type changes,
    the image of the layer included, unless the layer had another type and
    no image and is converted to a paint layer: then the image that the
    image manager allocates is set as well. Converting again to the same
    type changes nothing. *)
Theorem convert_to_converts (host : Host) (i : nat) (ty : string) (w : World)
    (l : MaterialLayer) (s : LayerStack) :
  layers w !! i = Some l -> pml_layer_stack w = Some s ->
  ty ∈ _VALID_LAYER_TYPES ->
  (forall ty', ty' ∉ _VALID_LAYER_TYPES -> convert_to host i ty' w = Raise ValueError w)
  /\ exists l1,
    convert_to host i ty w = Ret tt (upd i l1 w)
    /\ layer_type l1 = ty
    /\ (has_image l = true \/ ty <> "MATERIAL_PAINT" \/ layer_type l = ty ->
        l1 = with_layer_type ty l)
    /\ (has_image l = false -> ty = "MATERIAL_PAINT" -> layer_type l <> ty ->
        l1 = with_layer_type ty
               (with_image (Some (allocate_image_to_layer host w i).1)
                  (allocate_image_to_layer host w i).2 l))
    /\ convert_to host i ty (upd i l1 w) = Ret tt (upd i l1 w).
Proof.
  intros Hl Hs Hty. assert (Hi : i < length (layers w)) by (by eapply lookup_lt_Some).
  split.
  { intros ty' Hty'. unfold convert_to. by rewrite (bool_decide_eq_false_2 _ Hty'). }
  assert (Hidem : forall l1, layer_type l1 = ty ->
            convert_to host i ty (upd i l1 w) = Ret tt (upd i l1 w)).
  { intros l1 H1. unfold convert_to. rewrite (bool_decide_eq_true_2 _ Hty). cbn [negb].
    repeat mstep. by rewrite H1, String.eqb_refl. }
  assert (Hrun : convert_to host i ty w
                 = Ret tt (upd i
                     (if String.eqb ty (layer_type l) then l
                      else if String.eqb ty "MATERIAL_PAINT" && negb (has_image l)
                           then with_layer_type ty
                                  (with_image (Some (allocate_image_to_layer host w i).1)
                                     (allocate_image_to_layer host w i).2 l)
                           else with_layer_type ty l) w)).
  { unfold convert_to. rewrite (bool_decide_eq_true_2 _ Hty). cbn [negb].
    rewrite bind_unfold. unfold self_layer. rewrite Hl.
    destruct (String.eqb ty (layer_type l)); [by rewrite upd_id|].
    rewrite bind_unfold. unfold layer_stack. rewrite Hs. cbv beta iota.
    destruct (String.eqb ty "MATERIAL_PAINT" && negb (has_image l)).
    - rewrite !bind_unfold, get_world_unfold. cbv beta iota.
      destruct (allocate_image_to_layer host w i) as [img c].
      rewrite <- (upd_id i l w Hl) at 1. by rewrite !modify_upd.
    - rewrite bind_unfold, mret_unfold. rewrite <- (upd_id i l w Hl) at 1.
      by rewrite modify_upd. }
  eexists. split; [exact Hrun|].
  destruct (String.eqb ty (layer_type l)) eqn:Esame.
  - apply String.eqb_eq in Esame. split_and!; [done| | |by apply Hidem].
    + intros _. by rewrite Esame, with_layer_type_id.
    + intros _ _ Hne. by rewrite Esame in Hne.
  - apply String.eqb_neq in Esame.
    destruct (String.eqb ty "MATERIAL_PAINT") eqn:Epaint;
      [destruct (has_image l) eqn:Eimg|]; cbn [andb negb].
    + split_and!; [done|done|done|by apply Hidem].
    + apply String.eqb_eq in Epaint.
      split_and!; [done| |done|by apply Hidem]. intros [?|[?|?]]; congruence.
    + apply String.eqb_neq in Epaint.
      split_and!; [done|done| |by apply Hidem]. intros _ Hp. done.
Qed.

Lemma convert_to_converts_witness :
  (forall ty', ty' ∉ _VALID_LAYER_TYPES ->
     convert_to Demo.host 0 ty' (Demo.world [Demo.live "id.00" []])
     = Raise ValueError (Demo.world [Demo.live "id.00" []]))
  /\ exists l1,
    convert_to Demo.host 0 "MATERIAL_FILL" (Demo.world [Demo.live "id.00" []])
    = Ret tt (upd 0 l1 (Demo.world [Demo.live "id.00" []]))
    /\ layer_type l1 = "MATERIAL_FILL"
    /\ (has_image (Demo.live "id.00" []) = true \/ "MATERIAL_FILL" <> "MATERIAL_PAINT"
        \/ layer_type (Demo.live "id.00" []) = "MATERIAL_FILL" ->
        l1 = with_layer_type "MATERIAL_FILL" (Demo.live "id.00" []))
    /\ (has_image (Demo.live "id.00" []) = false -> "MATERIAL_FILL" = "MATERIAL_PAINT" ->
        layer_type (Demo.live "id.00" []) <> "MATERIAL_FILL" ->
        l1 = with_layer_type "MATERIAL_FILL"
               (with_image
                  (Some (allocate_image_to_layer Demo.host
                           (Demo.world [Demo.live "id.00" []]) 0).1)
                  (allocate_image_to_layer Demo.host
                     (Demo.world [Demo.live "id.00" []]) 0).2
                  (Demo.live "id.00" [])))
    /\ convert_to Demo.host 0 "MATERIAL_FILL" (upd 0 l1 (Demo.world [Demo.live "id.00" []]))
       = Ret tt (upd 0 l1 (Demo.world [Demo.live "id.00" []])).
Proof.
  apply (convert_to_converts Demo.host 0 "MATERIAL_FILL" (Demo.world [Demo.live "id.00" []])
           (Demo.live "id.00" []) Demo.stack).
  - reflexivity.
  - reflexivity.
  - apply (bool_decide_unpack _). vm_compute. exact I.
Defined.

(** ** The output of a channel *)

Lemma coll_find_keys {A} (key : A -> string) (n : string) (l l' : list A) :
  key <$> l = key <$> l' -> coll_find key n l = coll_find key n l'.
Proof.
  revert l'. induction l as [|a l IH]; intros [|a' l'] H; try done.
  rewrite !fmap_cons in H. injection H as Ha Hl. simpl. rewrite Ha.
  by rewrite (IH l' Hl).
Qed.

Lemma ensure_output_exact (host : Host) i c w l t s :
  i < length (layers w) -> pml_layer_stack w = Some s -> node_tree l = Some t ->
  exists k o,
    _ensure_node_tree_output host i c (upd i l w)
    = Ret tt (upd i (with_node_tree
                (Some {| nt_name := nt_name t;
                         nt_outputs :=
                           match coll_find sock_name (ch_name c) (nt_outputs t) with
                           | Some k => alter (ensured_socket host s c) k (nt_outputs t)
                           | None => nt_outputs t ++ [o]
                           end;
                         nt_nodes := group_output_link_default host o (nt_nodes t) |}) l) w)
    /\ match coll_find sock_name (ch_name c) (nt_outputs t) with
       | Some k' => k = k' /\ exists o0, nt_outputs t !! k = Some o0
                                         /\ o = ensured_socket host s c o0
       | None => k = length (nt_outputs t)
                 /\ o = ensured_socket host s c
                          (new_socket (ch_name c) (socket_type_bl_enum host (ch_socket_type c)))
       end.
Proof.
  intros Hi Hs Ht. unfold _ensure_node_tree_output. repeat mstep.
  destruct (coll_find sock_name (ch_name c) (nt_outputs t)) as [k|] eqn:Hf.
  - destruct (coll_find_Some _ _ _ _ Hf) as (o0 & Ho0 & _).
    exists k, (ensured_socket host s c o0). split; [|split; [done|by exists o0]].
    repeat mstep. unfold ensured_socket.
    destruct (String.eqb (ch_socket_type c) "VECTOR");
      [|destruct (String.eqb (ch_socket_type c) "FLOAT_FACTOR")];
      repeat mstep;
      (destruct (get_channel_default_value host s c); repeat mstep;
       simpl; rewrite ?Ht; simpl; rewrite ?list_alter_alter_eq;
       rewrite list_lookup_alter_eq, Ho0; simpl; repeat mstep; simpl; rewrite ?Ht; simpl;
       reflexivity).
  - eexists (length (nt_outputs t)), _. split; [|split; reflexivity].
    repeat mstep. unfold ensured_socket. cbn [new_socket sock_type].
    rewrite String.eqb_refl. cbn [negb].
    destruct (String.eqb (ch_socket_type c) "VECTOR");
      [|destruct (String.eqb (ch_socket_type c) "FLOAT_FACTOR")];
      repeat mstep;
      (destruct (get_channel_default_value host s c); repeat mstep;
       simpl; rewrite ?Ht; simpl; rewrite ?alter_app_last;
       rewrite lookup_app_r, Nat.sub_diag by done; simpl;
       repeat mstep; simpl; rewrite ?Ht; simpl; rewrite ?alter_app_last;
       reflexivity).
Qed.

Lemma ensured_socket_facts (host : Host) s c o :
  sock_name (ensured_socket host s c o) = sock_name o
  /\ sock_type (ensured_socket host s c o) = socket_type_bl_enum host (ch_socket_type c)
  /\ (ch_socket_type c = "VECTOR" -> hide_value (ensured_socket host s c o) = true)
  /\ (ch_socket_type c = "FLOAT_FACTOR" ->
      min_value (ensured_socket host s c o) = Some 0%Q
      /\ max_value (ensured_socket host s c o) = Some 1%Q)
  /\ (forall v, get_channel_default_value host s c = Some v ->
      default_value (ensured_socket host s c o) = Some v).
Proof.
  unfold ensured_socket.
  destruct (String.eqb (sock_type o) _) eqn:Ety; cbn [negb];
    [apply String.eqb_eq in Ety|];
    (destruct (String.eqb (ch_socket_type c) "VECTOR") eqn:Ev;
       [apply String.eqb_eq in Ev
       |apply String.eqb_neq in Ev;
        destruct (String.eqb (ch_socket_type c) "FLOAT_FACTOR") eqn:Ef;
          [apply String.eqb_eq in Ef|apply String.eqb_neq in Ef]]);
    (destruct (get_channel_default_value host s c) as [v|]; simpl;
     split_and!; try done; try (intros ? [= <-]; done); try congruence;
     try (intros E; rewrite E in *; done)).
Qed.

(** X15. On a layer with a node tree, in a document with a stack,
    [_ensure_node_tree_output] returns, and the tree then has an output of
    the name of the channel, the first of that name being at [k]. If the
    tree had one already, that output now has the socket type of the
    channel. The value is hidden for a vector channel, the range is 0 to 1
    for a factor channel, and the default value is that of the stack when it
    gives one. The outputs at other positions are as before, one output is
    added exactly when none had the name, and the name of the tree is
    kept. *)
Theorem ensure_node_tree_output_typed (host : Host) (i : nat) (c : Channel) (w : World)
    (l : MaterialLayer) (t : NodeTree) (s : LayerStack) :
  layers w !! i = Some l -> pml_layer_stack w = Some s -> node_tree l = Some t ->
  exists t1 k o,
    _ensure_node_tree_output host i c w = Ret tt (upd i (with_node_tree (Some t1) l) w)
    /\ coll_find sock_name (ch_name c) (nt_outputs t1) = Some k
    /\ nt_outputs t1 !! k = Some o
    /\ (coll_contains sock_name (ch_name c) (nt_outputs t) = true ->
        sock_type o = socket_type_bl_enum host (ch_socket_type c))
    /\ (ch_socket_type c = "VECTOR" -> hide_value o = true)
    /\ (ch_socket_type c = "FLOAT_FACTOR" ->
        min_value o = Some 0%Q /\ max_value o = Some 1%Q)
    /\ (forall v, get_channel_default_value host s c = Some v -> default_value o = Some v)
    /\ (forall j, j <> k -> j < length (nt_outputs t) -> nt_outputs t1 !! j = nt_outputs t !! j)
    /\ length (nt_outputs t1)
       = (if coll_contains sock_name (ch_name c) (nt_outputs t)
          then length (nt_outputs t) else S (length (nt_outputs t)))
    /\ nt_name t1 = nt_name t.
Proof.
  intros Hl Hs Ht. assert (Hi : i < length (layers w)) by (by eapply lookup_lt_Some).
  destruct (ensure_output_exact host i c w l t s Hi Hs Ht) as (k & o & Hrun & Hko).
  rewrite (upd_id i l w Hl) in Hrun at 1.
  eexists _, k, o. split; [exact Hrun|]. cbn [nt_outputs nt_name]. unfold coll_contains.
  destruct (coll_find sock_name (ch_name c) (nt_outputs t)) as [k'|] eqn:Hf.
  - destruct Hko as (<- & o0 & Ho0 & ->).
    destruct (ensured_socket_facts host s c o0) as (Hn & Hty & Hv & Hff & Hd).
    split_and!; try done.
    + rewrite <- Hf. apply coll_find_keys. apply fmap_alter_key.
      intros x. apply ensured_socket_facts.
    + by rewrite list_lookup_alter_eq, Ho0.
    + intros j Hj _. by rewrite list_lookup_alter_ne.
    + by rewrite length_alter.
  - destruct Hko as (-> & ->).
    destruct (ensured_socket_facts host s c
                (new_socket (ch_name c) (socket_type_bl_enum host (ch_socket_type c))))
      as (Hn & Hty & Hv & Hff & Hd).
    split_and!; try done.
    + apply coll_find_app_new; [by apply coll_find_None|done].
    + by rewrite lookup_app_r, Nat.sub_diag.
    + intros j _ Hj. by rewrite lookup_app_l.
    + rewrite length_app. simpl. lia.
Qed.

Lemma ensure_node_tree_output_typed_witness :
  exists t1 k o,
    _ensure_node_tree_output Demo.host 0 Demo.roughness
      (Demo.world [Demo.live "id.00" [new_socket "Roughness" "VALUE"]])
    = Ret tt (upd 0 (with_node_tree (Some t1)
                       (Demo.live "id.00" [new_socket "Roughness" "VALUE"]))
                (Demo.world [Demo.live "id.00" [new_socket "Roughness" "VALUE"]]))
    /\ coll_find sock_name (ch_name Demo.roughness) (nt_outputs t1) = Some k
    /\ nt_outputs t1 !! k = Some o
    /\ (coll_contains sock_name (ch_name Demo.roughness)
          (nt_outputs (Demo.tree [new_socket "Roughness" "VALUE"])) = true ->
        sock_type o = socket_type_bl_enum Demo.host (ch_socket_type Demo.roughness))
    /\ (ch_socket_type Demo.roughness = "VECTOR" -> hide_value o = true)
    /\ (ch_socket_type Demo.roughness = "FLOAT_FACTOR" ->
        min_value o = Some 0%Q /\ max_value o = Some 1%Q)
    /\ (forall v, get_channel_default_value Demo.host Demo.stack Demo.roughness = Some v ->
        default_value o = Some v)
    /\ (forall j, j <> k ->
        j < length (nt_outputs (Demo.tree [new_socket "Roughness" "VALUE"])) ->
        nt_outputs t1 !! j
        = nt_outputs (Demo.tree [new_socket "Roughness" "VALUE"]) !! j)
    /\ length (nt_outputs t1)
       = (if coll_contains sock_name (ch_name Demo.roughness)
               (nt_outputs (Demo.tree [new_socket "Roughness" "VALUE"]))
          then length (nt_outputs (Demo.tree [new_socket "Roughness" "VALUE"]))
          else S (length (nt_outputs (Demo.tree [new_socket "Roughness" "VALUE"]))))
    /\ nt_name t1 = nt_name (Demo.tree [new_socket "Roughness" "VALUE"]).
Proof.
  apply (ensure_node_tree_output_typed Demo.host 0 Demo.roughness
           (Demo.world [Demo.live "id.00" [new_socket "Roughness" "VALUE"]])
           (Demo.live "id.00" [new_socket "Roughness" "VALUE"])
           (Demo.tree [new_socket "Roughness" "VALUE"]) Demo.stack); reflexivity.
Defined.

(** ** The layer above *)

(** X16. [get_layer_above] raises [RuntimeError] on a layer that is not in
    use; on a layer in use without parent, in a document with a stack, it
    returns what the stack answers; on a layer in use whose parent resolves
    it raises [TypeError], at the call of the collection of children. The
    document is not changed. *)
Theorem get_layer_above_outcomes (host : Host) (i : nat) (w : World) (l : MaterialLayer) :
  layers w !! i = Some l ->
  (is_initialized l = false -> get_layer_above host i w = Raise RuntimeError w)
  /\ (is_initialized l = true -> ref_bool (parent l) = false ->
      forall s, pml_layer_stack w = Some s ->
      get_layer_above host i w = Ret (stack_get_layer_above host w i) w)
  /\ (is_initialized l = true ->
      forall p lp, resolve_layer (parent l) w = Ret p w -> layers w !! p = Some lp ->
      get_layer_above host i w = Raise TypeError w).
Proof.
  intros Hl. unfold get_layer_above.
  rewrite (bind_Ret _ _ _ _ _ (self_layer_Some _ _ _ Hl)). split_and!.
  - by intros ->.
  - intros -> -> s Hs. cbn [negb]. rewrite bind_unfold. unfold the_layer_stack.
    rewrite bind_unfold. unfold layer_stack. rewrite Hs. cbv beta iota.
    by rewrite mret_unfold.
  - intros -> p lp Hr Hlp. destruct (resolve_layer_Ret _ _ _ _ Hr) as (-> & _).
    cbn [negb]. rewrite (bind_Ret _ _ _ _ _ Hr), (bind_Ret _ _ _ _ _ (self_layer_Some _ _ _ Hlp)).
    reflexivity.
Qed.

Lemma get_layer_above_outcomes_witness :
  (is_initialized (Demo.chain_layer 1) = false ->
   get_layer_above Demo.host 1 (Demo.world (Demo.chain 2))
   = Raise RuntimeError (Demo.world (Demo.chain 2)))
  /\ (is_initialized (Demo.chain_layer 1) = true ->
      ref_bool (parent (Demo.chain_layer 1)) = false ->
      forall s, pml_layer_stack (Demo.world (Demo.chain 2)) = Some s ->
      get_layer_above Demo.host 1 (Demo.world (Demo.chain 2))
      = Ret (stack_get_layer_above Demo.host (Demo.world (Demo.chain 2)) 1)
          (Demo.world (Demo.chain 2)))
  /\ (is_initialized (Demo.chain_layer 1) = true ->
      forall p lp,
        resolve_layer (parent (Demo.chain_layer 1)) (Demo.world (Demo.chain 2))
        = Ret p (Demo.world (Demo.chain 2)) ->
        layers (Demo.world (Demo.chain 2)) !! p = Some lp ->
        get_layer_above Demo.host 1 (Demo.world (Demo.chain 2))
        = Raise TypeError (Demo.world (Demo.chain 2))).
Proof.
  apply (get_layer_above_outcomes Demo.host 1 (Demo.world (Demo.chain 2))
           (Demo.chain_layer 1)).
  reflexivity.
Defined.

(** ** The preview material *)

Lemma elem_of_List_filter {A} (f : A -> bool) (l : list A) (x : A) :
  x ∈ List.filter f l <-> x ∈ l /\ f x = true.
Proof. rewrite !list_elem_of_In. apply filter_In. Qed.

Lemma recreated_links (host : Host) (s : LayerStack) (outs : list string) (n : string) :
  n ∈ List.filter (fun n =>
        bool_decide (n ∈ shader_inputs host)
        && match coll_get ch_name n (stack_channels s) with
           | Some c => ch_enabled c
           | None => false
           end) outs
  <-> n ∈ outs /\ n ∈ shader_inputs host
      /\ exists c, coll_get ch_name n (stack_channels s) = Some c /\ ch_enabled c = true.
Proof.
  rewrite elem_of_List_filter, andb_true_iff, bool_decide_eq_true.
  destruct (coll_get ch_name n (stack_channels s)) as [c|].
  - split; [intros (? & ? & ?); eauto|].
    intros (? & ? & c' & [= <-] & ?). done.
  - split; [intros (? & ? & ?); done|]. intros (? & ? & c' & ? & ?). done.
Qed.

Lemma refresh_preview_exact (host : Host) i w l s ma t :
  i < length (layers w) -> pml_layer_stack w = Some s ->
  preview_material l = Some ma -> node_tree l = Some t ->
  exists ma' ws,
    _refresh_preview_material host i (upd i l w)
    = Ret tt (upd i (with_preview_material (Some ma') l) (with_warnings ws w))
    /\ ma_name ma' = ma_name ma
    /\ if bool_decide (_PREVIEW_MA_NODE_NAME ∈ ma_nodes ma)
          && bool_decide (_PREVIEW_SHADER_NODE_NAME ∈ ma_nodes ma)
       then ws = warnings w /\ ma_nodes ma' = ma_nodes ma
            /\ ma_links ma'
               = list_union (ma_links ma)
                   (List.filter (fun n => bool_decide (n ∈ shader_inputs host))
                      (sock_name <$> nt_outputs t))
       else length ws = S (length (warnings w))
            /\ ma_nodes ma' = [_PREVIEW_MA_NODE_NAME; _PREVIEW_SHADER_NODE_NAME;
                               "Material Output"]
            /\ ma_links ma'
               = List.filter (fun n =>
                   bool_decide (n ∈ shader_inputs host)
                   && match coll_get ch_name n (stack_channels s) with
                      | Some c => ch_enabled c
                      | None => false
                      end) (sock_name <$> nt_outputs t).
Proof.
  intros Hi Hs Hm Ht.
  unfold _refresh_preview_material. repeat mstep. rewrite Hm.
  destruct (bool_decide _ && bool_decide _) eqn:Hb.
  - repeat mstep. rewrite Ht. eexists _, (warnings w). rewrite with_warnings_id.
    split; [reflexivity|]. done.
  - repeat mstep. unfold _create_preview_material. repeat mstep. rewrite Ht, Hm.
    repeat mstep. simpl. rewrite Hm. simpl.
    eexists _, _. split; [reflexivity|]. simpl. split_and!; try done.
    rewrite length_app. simpl. lia.
Qed.

Lemma create_preview_exact (host : Host) i w l s t :
  i < length (layers w) -> pml_layer_stack w = Some s -> node_tree l = Some t ->
  _create_preview_material host i (upd i l w)
  = Ret tt (upd i (with_preview_material
       (Some {| ma_name := match preview_material l with
                           | Some old => ma_name old
                           | None => _preview_material_name s l
                           end;
                ma_nodes := [_PREVIEW_MA_NODE_NAME; _PREVIEW_SHADER_NODE_NAME;
                             "Material Output"];
                ma_links := List.filter (fun n =>
                   bool_decide (n ∈ shader_inputs host)
                   && match coll_get ch_name n (stack_channels s) with
                      | Some c => ch_enabled c
                      | None => false
                      end) (sock_name <$> nt_outputs t) |}) l) w).
Proof.
  intros Hi Hs Ht. unfold _create_preview_material. repeat mstep. rewrite Ht.
  destruct (preview_material l) as [old|] eqn:Hm; repeat mstep; simpl; rewrite ?Hm; simpl;
    reflexivity.
Qed.

(** X17. [_create_preview_material] does nothing on a layer without node
    tree. On a layer with a node tree, in a document with a stack, it
    returns with a preview material of exactly the three nodes of a preview;
    a material that was there keeps its name and a new one has the preview
    name of the layer; the outputs linked are those named like an input of
    the shader and like an enabled channel of the stack. A call of
    [_refresh_preview_material] after it keeps the nodes and the name and
    warns of nothing. *)
Theorem create_preview_builds (host : Host) (i : nat) (w : World) (l : MaterialLayer)
    (s : LayerStack) :
  layers w !! i = Some l -> pml_layer_stack w = Some s ->
  (node_tree l = None -> _create_preview_material host i w = Ret tt w)
  /\ (forall t, node_tree l = Some t ->
      exists ma ma',
        _create_preview_material host i w
        = Ret tt (upd i (with_preview_material (Some ma) l) w)
        /\ ma_nodes ma = [_PREVIEW_MA_NODE_NAME; _PREVIEW_SHADER_NODE_NAME;
                          "Material Output"]
        /\ ma_name ma = match preview_material l with
                        | Some old => ma_name old
                        | None => _preview_material_name s l
                        end
        /\ (forall n, n ∈ ma_links ma <->
              n ∈ (sock_name <$> nt_outputs t) /\ n ∈ shader_inputs host
              /\ exists c, coll_get ch_name n (stack_channels s) = Some c
                           /\ ch_enabled c = true)
        /\ _refresh_preview_material host i (upd i (with_preview_material (Some ma) l) w)
           = Ret tt (upd i (with_preview_material (Some ma') l) w)
        /\ ma_nodes ma' = ma_nodes ma /\ ma_name ma' = ma_name ma).
Proof.
  intros Hl Hs. assert (Hi : i < length (layers w)) by (by eapply lookup_lt_Some). split.
  - intros Ht. unfold _create_preview_material. rewrite bind_unfold. unfold self_layer.
    by rewrite Hl, Ht.
  - intros t Ht. pose proof (create_preview_exact host i w l s t Hi Hs Ht) as Hrun.
    rewrite (upd_id i l w Hl) in Hrun at 1.
    destruct (refresh_preview_exact host i w
                (with_preview_material
                   (Some {| ma_name := match preview_material l with
                                       | Some old => ma_name old
                                       | None => _preview_material_name s l
                                       end;
                            ma_nodes := [_PREVIEW_MA_NODE_NAME; _PREVIEW_SHADER_NODE_NAME;
                                         "Material Output"];
                            ma_links := List.filter (fun n =>
                               bool_decide (n ∈ shader_inputs host)
                               && match coll_get ch_name n (stack_channels s) with
                                  | Some c => ch_enabled c
                                  | None => false
                                  end) (sock_name <$> nt_outputs t) |}) l)
                s _ t Hi Hs eq_refl Ht) as (ma' & ws & Hrun2 & Hname & Hcase).
    cbn [ma_nodes ma_name ma_links] in Hcase, Hname.
    change (bool_decide (_PREVIEW_MA_NODE_NAME ∈
              [_PREVIEW_MA_NODE_NAME; _PREVIEW_SHADER_NODE_NAME; "Material Output"])
            && bool_decide (_PREVIEW_SHADER_NODE_NAME ∈
              [_PREVIEW_MA_NODE_NAME; _PREVIEW_SHADER_NODE_NAME; "Material Output"]))
      with true in Hcase.
    destruct Hcase as (-> & Hnodes & _). rewrite with_warnings_id in Hrun2.
    eexists _, ma'. split; [exact Hrun|]. split; [done|]. split; [done|].
    split; [intros n; apply recreated_links|].
    split; [|done].
    rewrite Hrun2. reflexivity.
Qed.

Lemma create_preview_builds_witness :
  (node_tree (Demo.live "id.00" []) = None ->
   _create_preview_material Demo.host 0 (Demo.world [Demo.live "id.00" []])
   = Ret tt (Demo.world [Demo.live "id.00" []]))
  /\ (forall t, node_tree (Demo.live "id.00" []) = Some t ->
      exists ma ma',
        _create_preview_material Demo.host 0 (Demo.world [Demo.live "id.00" []])
        = Ret tt (upd 0 (with_preview_material (Some ma) (Demo.live "id.00" []))
                    (Demo.world [Demo.live "id.00" []]))
        /\ ma_nodes ma = [_PREVIEW_MA_NODE_NAME; _PREVIEW_SHADER_NODE_NAME;
                          "Material Output"]
        /\ ma_name ma = match preview_material (Demo.live "id.00" []) with
                        | Some old => ma_name old
                        | None => _preview_material_name Demo.stack (Demo.live "id.00" [])
                        end
        /\ (forall n, n ∈ ma_links ma <->
              n ∈ (sock_name <$> nt_outputs t) /\ n ∈ shader_inputs Demo.host
              /\ exists c, coll_get ch_name n (stack_channels Demo.stack) = Some c
                           /\ ch_enabled c = true)
        /\ _refresh_preview_material Demo.host 0
             (upd 0 (with_preview_material (Some ma) (Demo.live "id.00" []))
                (Demo.world [Demo.live "id.00" []]))
           = Ret tt (upd 0 (with_preview_material (Some ma') (Demo.live "id.00" []))
                       (Demo.world [Demo.live "id.00" []]))
        /\ ma_nodes ma' = ma_nodes ma /\ ma_name ma' = ma_name ma).
Proof.
  apply (create_preview_builds Demo.host 0 (Demo.world [Demo.live "id.00" []])
           (Demo.live "id.00" []) Demo.stack); reflexivity.
Defined.

(** X18. On a layer with a node tree and a preview material, in a document
    with a stack, [_refresh_preview_material] returns with a material of the
    same name that has the group node and the shader node. When both were
    there, nothing is warned of, the nodes are kept and the links are those
    from before and the outputs named like an input of the shader. When one
    was missing, one warning is issued and the material has the three nodes
    of a preview, with links as [_create_preview_material] makes them. *)
Theorem refresh_preview_restores_nodes (host : Host) (i : nat) (w : World)
    (l : MaterialLayer) (s : LayerStack) (ma : Material) (t : NodeTree) :
  layers w !! i = Some l -> pml_layer_stack w = Some s ->
  preview_material l = Some ma -> node_tree l = Some t ->
  exists ma' ws,
    _refresh_preview_material host i w
    = Ret tt (upd i (with_preview_material (Some ma') l) (with_warnings ws w))
    /\ _PREVIEW_MA_NODE_NAME ∈ ma_nodes ma'
    /\ _PREVIEW_SHADER_NODE_NAME ∈ ma_nodes ma'
    /\ ma_name ma' = ma_name ma
    /\ ((_PREVIEW_MA_NODE_NAME ∈ ma_nodes ma /\ _PREVIEW_SHADER_NODE_NAME ∈ ma_nodes ma) ->
        ws = warnings w /\ ma_nodes ma' = ma_nodes ma
        /\ (forall n, n ∈ ma_links ma' <->
              n ∈ ma_links ma
              \/ (n ∈ (sock_name <$> nt_outputs t) /\ n ∈ shader_inputs host)))
    /\ (~ (_PREVIEW_MA_NODE_NAME ∈ ma_nodes ma /\ _PREVIEW_SHADER_NODE_NAME ∈ ma_nodes ma) ->
        length ws = S (length (warnings w))
        /\ ma_nodes ma' = [_PREVIEW_MA_NODE_NAME; _PREVIEW_SHADER_NODE_NAME; "Material Output"]
        /\ (forall n, n ∈ ma_links ma' <->
              n ∈ (sock_name <$> nt_outputs t) /\ n ∈ shader_inputs host
              /\ exists c, coll_get ch_name n (stack_channels s) = Some c
                           /\ ch_enabled c = true)).
Proof.
  intros Hl Hs Hm Ht. assert (Hi : i < length (layers w)) by (by eapply lookup_lt_Some).
  destruct (refresh_preview_exact host i w l s ma t Hi Hs Hm Ht)
    as (ma' & ws & Hrun & Hname & Hcase).
  rewrite (upd_id i l w Hl) in Hrun at 1.
  exists ma', ws. split; [done|].
  destruct (bool_decide (_PREVIEW_MA_NODE_NAME ∈ ma_nodes ma)) eqn:Ea;
    [destruct (bool_decide (_PREVIEW_SHADER_NODE_NAME ∈ ma_nodes ma)) eqn:Eb|];
    cbn [andb] in Hcase; destruct Hcase as (Hws & Hnodes & Hlinks).
  - apply bool_decide_eq_true_1 in Ea, Eb. rewrite Hnodes.
    split_and!; [done|done|done| |].
    + intros _. split_and!; [done|done|]. intros n. rewrite Hlinks, list_elem_of_union.
      rewrite elem_of_List_filter, bool_decide_eq_true. tauto.
    + intros Hnot. by destruct Hnot.
  - apply bool_decide_eq_false_1 in Eb. rewrite Hnodes.
    split_and!; [apply list_elem_of_here
                |apply list_elem_of_further, list_elem_of_here|done| |].
    + by intros [_ ?].
    + intros _. split_and!; [done|done|]. intros n. by rewrite Hlinks, recreated_links.
  - apply bool_decide_eq_false_1 in Ea. rewrite Hnodes.
    split_and!; [apply list_elem_of_here
                |apply list_elem_of_further, list_elem_of_here|done| |].
    + by intros [? _].
    + intros _. split_and!; [done|done|]. intros n. by rewrite Hlinks, recreated_links.
Qed.

Lemma refresh_preview_restores_nodes_witness :
  exists ma' ws,
    _refresh_preview_material Demo.host 0 (Demo.world [Demo.damaged])
    = Ret tt (upd 0 (with_preview_material (Some ma') Demo.damaged)
                (with_warnings ws (Demo.world [Demo.damaged])))
    /\ _PREVIEW_MA_NODE_NAME ∈ ma_nodes ma'
    /\ _PREVIEW_SHADER_NODE_NAME ∈ ma_nodes ma'
    /\ ma_name ma' = ".Material.Layer.preview"
    /\ ((_PREVIEW_MA_NODE_NAME ∈ @nil string /\ _PREVIEW_SHADER_NODE_NAME ∈ @nil string) ->
        ws = warnings (Demo.world [Demo.damaged]) /\ ma_nodes ma' = []
        /\ (forall n, n ∈ ma_links ma' <->
              n ∈ @nil string
              \/ (n ∈ (sock_name <$> nt_outputs (Demo.tree []))
                  /\ n ∈ shader_inputs Demo.host)))
    /\ (~ (_PREVIEW_MA_NODE_NAME ∈ @nil string /\ _PREVIEW_SHADER_NODE_NAME ∈ @nil string) ->
        length ws = S (length (warnings (Demo.world [Demo.damaged])))
        /\ ma_nodes ma' = [_PREVIEW_MA_NODE_NAME; _PREVIEW_SHADER_NODE_NAME; "Material Output"]
        /\ (forall n, n ∈ ma_links ma' <->
              n ∈ (sock_name <$> nt_outputs (Demo.tree [])) /\ n ∈ shader_inputs Demo.host
              /\ exists c, coll_get ch_name n (stack_channels Demo.stack) = Some c
                           /\ ch_enabled c = true)).
Proof.
  apply (refresh_preview_restores_nodes Demo.host 0 (Demo.world [Demo.damaged]) Demo.damaged
           Demo.stack
           {| ma_name := ".Material.Layer.preview"; ma_nodes := []; ma_links := [] |}
           (Demo.tree [])); reflexivity.
Defined.

(** ** Initializing a free slot *)

Lemma initialize_run_image (host : Host) depth i name' ty chans eco w l s :
  2 <= depth ->
  i < length (layers w) -> pml_layer_stack w = Some s ->
  is_initialized l = false -> ty ∈ _VALID_LAYER_TYPES ->
  unique_name_in host (identifier <$> <[i:=l]> (layers w)) <> "" ->
  exists l1 ws,
    initialize host depth i name' ty chans eco (upd i l w)
    = Ret tt (upd i l1 (with_warnings ws w))
    /\ initialized_from host ty (identifier <$> <[i:=l]> (layers w)) l l1
    /\ (if String.eqb ty "MATERIAL_PAINT" then has_image l1 = true
        else image l1 = image l /\ image_channel l1 = image_channel l).
Proof.
  intros Hd Hi Hs Hun Hty Hid.
  unfold initialize. rewrite bind_unfold. unfold layer_stack at 1.
  cbn [pml_layer_stack upd with_layers]. rewrite Hs. cbv beta iota.
  repeat mstep. rewrite Hun.
  rewrite (bool_decide_eq_true_2 _ Hty). cbn [negb].
  rewrite bind_unfold, get_world_unfold. cbv beta iota.
  repeat mstep.
  match goal with
  | |- context [ set_name depth i name' (upd i ?L ?W) ] =>
      destruct (set_name_run_upd depth i name' W L s Hd Hi Hs) as (nm & Hname & _)
  end.
  rewrite Hname. repeat mstep.
  match goal with
  | |- context [ match chans with Some _ => _ | None => _ end (upd i ?L ?W) ] =>
      destruct (opt_add_channels_run host i chans eco W L
                  {| nt_name := _node_tree_name
                       (with_active_channel_index 0 (with_opacity 1 (with_enabled true
                          (with_layer_type ty (renamed nm (with_name name'
                             (with_identifier
                                (unique_name_in host (identifier <$> layers (upd i l w)))
                                l)))))));
                     nt_outputs := []; nt_nodes := [] |} s Hi Hs eq_refl)
        as (chs' & t' & pm & ws & Hloop)
  end.
  rewrite Hloop. unfold reshape. repeat mstep.
  cbn [layer_type with_preview_material with_node_tree with_channels
       with_active_channel_index with_opacity with_enabled with_layer_type].
  assert (Hinit : forall l', identifier l' = unique_name_in host (identifier <$> <[i:=l]> (layers w)) ->
                    is_initialized l' = true).
  { intros l' Hl'. unfold is_initialized. rewrite Hl'. by apply str_bool_true. }
  destruct (String.eqb ty "MATERIAL_PAINT") eqn:Hpaint.
  - rewrite bind_unfold, get_world_unfold. cbv beta iota.
    destruct (allocate_image_to_layer host _ i) as [img c]. repeat mstep.
    cbn [node_tree with_image with_preview_material with_node_tree fmap option_fmap option_map].
    destruct (show_previews host).
    + match goal with
      | |- context [ _create_preview_material host i (upd i ?L ?W) ] =>
          destruct (create_preview_run host i W L s) as (pm' & Hprev & _); [done..|]
      end.
      rewrite Hprev. repeat mstep. rewrite Hinit by reflexivity.
      rewrite assert_true_unfold. eexists _, ws. split; [reflexivity|].
      unfold initialized_from. simpl. rewrite ?Hpaint; split_and!; try done; by left.
    + repeat mstep. rewrite Hinit by reflexivity.
      rewrite assert_true_unfold. eexists _, ws. split; [reflexivity|].
      unfold initialized_from. simpl. rewrite ?Hpaint; split_and!; try done; by left.
  - repeat mstep.
    cbn [node_tree with_image with_preview_material with_node_tree fmap option_fmap option_map].
    destruct (show_previews host).
    + match goal with
      | |- context [ _create_preview_material host i (upd i ?L ?W) ] =>
          destruct (create_preview_run host i W L s) as (pm' & Hprev & _); [done..|]
      end.
      rewrite Hprev. repeat mstep. rewrite Hinit by reflexivity.
      rewrite assert_true_unfold. eexists _, ws. split; [reflexivity|].
      unfold initialized_from. simpl. rewrite ?Hpaint; split_and!; try done; by right.
    + repeat mstep. rewrite Hinit by reflexivity.
      rewrite assert_true_unfold. eexists _, ws. split; [reflexivity|].
      unfold initialized_from. simpl. rewrite ?Hpaint; split_and!; try done; by right.
Qed.


(** X19. On a free slot of a document with a stack, with a layer type and
    an identifier from [unique_name_in] that is not empty, [initialize]
    returns. The layer is then in use under that identifier, of the type
    asked for, enabled, of opacity 1 and active index 0; its parent and
    children are as before; a paint layer has an image, a layer of another
    type the image and image channel from before; the other slots are as
    before. *)
Theorem initialize_succeeds (host : Host) (depth i : nat) (name' ty : string)
    (chans : option (list Channel)) (eco : bool) (w : World) (l : MaterialLayer)
    (s : LayerStack) :
  2 <= depth ->
  layers w !! i = Some l -> pml_layer_stack w = Some s ->
  is_initialized l = false -> ty ∈ _VALID_LAYER_TYPES ->
  unique_name_in host (identifier <$> layers w) <> "" ->
  exists l1 ws,
    initialize host depth i name' ty chans eco w = Ret tt (upd i l1 (with_warnings ws w))
    /\ is_initialized l1 = true
    /\ identifier l1 = unique_name_in host (identifier <$> layers w)
    /\ layer_type l1 = ty /\ enabled l1 = true /\ opacity l1 = 1%Q
    /\ active_channel_index l1 = 0%Z
    /\ parent l1 = parent l /\ children l1 = children l
    /\ (ty = "MATERIAL_PAINT" -> has_image l1 = true)
    /\ (ty <> "MATERIAL_PAINT" -> image l1 = image l /\ image_channel l1 = image_channel l).
Proof.
  intros Hd Hl Hs Hun Hty Hid.
  assert (Hi : i < length (layers w)) by (by eapply lookup_lt_Some).
  assert (Hins : <[i:=l]> (layers w) = layers w) by (by apply list_insert_id).
  destruct (initialize_run_image host depth i name' ty chans eco w l s Hd Hi Hs Hun Hty)
    as (l1 & ws & Hrun & Hfrom & Himg); [by rewrite Hins|].
  rewrite (upd_id i l w Hl) in Hrun at 1. rewrite Hins in Hfrom.
  destruct Hfrom as (Hid1 & Hen & Hop & Hlt & Hidx & Hpar & Hkids & _ & _ & _).
  exists l1, ws. split; [done|].
  split; [unfold is_initialized; rewrite Hid1; by apply str_bool_true|].
  split_and!; try done.
  - intros ->. by rewrite String.eqb_refl in Himg.
  - intros Hne. apply String.eqb_neq in Hne. by rewrite Hne in Himg.
Qed.

Lemma initialize_succeeds_witness :
  exists l1 ws,
    initialize Demo.host 2 0 "Layer" "MATERIAL_FILL" (Some [Demo.color]) true (Demo.fresh 1)
    = Ret tt (upd 0 l1 (with_warnings ws (Demo.fresh 1)))
    /\ is_initialized l1 = true
    /\ identifier l1
       = unique_name_in Demo.host (identifier <$> layers (Demo.fresh 1))
    /\ layer_type l1 = "MATERIAL_FILL" /\ enabled l1 = true /\ opacity l1 = 1%Q
    /\ active_channel_index l1 = 0%Z
    /\ parent l1 = parent default_layer /\ children l1 = children default_layer
    /\ ("MATERIAL_FILL" = "MATERIAL_PAINT" -> has_image l1 = true)
    /\ ("MATERIAL_FILL" <> "MATERIAL_PAINT" ->
        image l1 = image default_layer
        /\ image_channel l1 = image_channel default_layer).
Proof.
  apply (initialize_succeeds Demo.host 2 0 "Layer" "MATERIAL_FILL" (Some [Demo.color]) true
           (Demo.fresh 1) default_layer Demo.stack).
  - lia.
  - reflexivity.
  - reflexivity.
  - reflexivity.
  - apply (bool_decide_unpack _). vm_compute. exact I.
  - vm_compute. discriminate.
Defined.

(** ** Naming a layer again *)

Lemma renamed_renamed nm l : renamed nm (with_name nm (renamed nm l)) = renamed nm l.
Proof. unfold renamed. destruct l as [? ? ? ? ? ? ? ? [t|] ? ? ? ? ? ?]; reflexivity. Qed.

Lemma unique_name_of_settled i ls l v nm :
  i < length ls ->
  unique_name_of (<[i:=with_name v l]> ls) (with_name v l) nm ->
  ~ collides (<[i:=renamed nm (with_name v l)]> ls) (renamed nm (with_name v l)).
Proof.
  intros Hi Hun (x & Hin & Hn & Hne & Hinit). simpl in Hn, Hne.
  apply list_elem_of_lookup in Hin as [j Hj].
  destruct (decide (j = i)) as [->|Hji].
  { rewrite list_lookup_insert_eq in Hj by done. injection Hj as <-. by simpl in Hne. }
  rewrite list_lookup_insert_ne in Hj by done.
  assert (Hx : x ∈ <[i:=with_name v l]> ls).
  { apply list_elem_of_lookup. exists j. by rewrite list_lookup_insert_ne. }
  destruct Hun as [[Hfresh ->]|[_ (k & (_ & Hnot & _) & ->)]]; simpl in *.
  - apply Hfresh. by exists x.
  - apply Hnot. apply list_elem_of_fmap. by exists x.
Qed.

(** X20. Giving a layer a name, in a document with a stack, returns; the
    node tree of the layer, if it has one, is then named after the name the
    layer ends with, and giving the layer that name once more changes
    nothing. *)
Theorem set_name_settled (depth i : nat) (v : string) (w : World) (l : MaterialLayer)
    (s : LayerStack) :
  2 <= depth -> layers w !! i = Some l -> pml_layer_stack w = Some s ->
  exists l1,
    set_name depth i v w = Ret tt (upd i l1 w)
    /\ (forall t, node_tree l1 = Some t -> nt_name t = _node_tree_name l1)
    /\ set_name depth i (name l1) (upd i l1 w) = Ret tt (upd i l1 w).
Proof.
  intros Hd Hl Hs. assert (Hi : i < length (layers w)) by (by eapply lookup_lt_Some).
  destruct (set_name_run depth i v w l s Hd Hl Hs) as (nm & Hrun & Hun).
  exists (renamed nm (with_name v l)). split; [done|]. split.
  - intros t. unfold renamed, _node_tree_name. simpl.
    destruct (node_tree l); simpl; [|done]. by intros [= <-].
  - destruct (set_name_run_upd depth i (name (renamed nm (with_name v l))) w
                (renamed nm (with_name v l)) s Hd Hi Hs) as (nm' & Hrun' & Hun').
    rewrite Hrun'. simpl in Hun'.
    assert (Hsame : with_name nm (renamed nm (with_name v l)) = renamed nm (with_name v l)).
    { unfold renamed. by destruct l. }
    simpl. rewrite Hsame in *.
    assert (nm' = nm) as ->.
    { apply (unique_name_of_fresh _ _) in Hun'; [done|].
      by apply unique_name_of_settled. }
    by rewrite <- Hsame at 1; rewrite renamed_renamed.
Qed.

Lemma set_name_settled_witness :
  exists l1,
    set_name 2 1 "Layer"
      (Demo.world [with_identifier "id.00" default_layer; with_identifier "id.01" default_layer])
    = Ret tt (upd 1 l1
                (Demo.world [with_identifier "id.00" default_layer;
                             with_identifier "id.01" default_layer]))
    /\ (forall t, node_tree l1 = Some t -> nt_name t = _node_tree_name l1)
    /\ set_name 2 1 (name l1)
         (upd 1 l1 (Demo.world [with_identifier "id.00" default_layer;
                                with_identifier "id.01" default_layer]))
       = Ret tt (upd 1 l1 (Demo.world [with_identifier "id.00" default_layer;
                                       with_identifier "id.01" default_layer])).
Proof.
  apply (set_name_settled 2 1 "Layer"
           (Demo.world [with_identifier "id.00" default_layer;
                        with_identifier "id.01" default_layer])
           (with_identifier "id.01" default_layer) Demo.stack).
  - lia.
  - reflexivity.
  - reflexivity.
Defined.

(** ** Deleting a layer and its children *)

Ltac frame_id :=
  cbv beta in *; unfold layer_at in *;
  cbn [layers with_layers with_warnings pml_layer_stack warnings] in *;
  repeat (apply slot_at_alter_any;
          [|let l := fresh in let H := fresh in
            intros l H; unfold blank_or in *; simpl; first [exact H | by right]]);
  eassumption.

Lemma update_name_frame_id depth j k id0 w :
  layer_at k (blank_or id0) w ->
  wlp (_update_name depth j) (fun _ => layer_at k (blank_or id0)) w.
Proof.
  revert w. induction depth as [|depth IH]; intros w H; [apply wlp_raise|].
  rewrite update_name_unfold. apply wlp_bind.
  eapply wlp_mono; [apply get_unique_name_pure|]. intros nm w' ->. cbv beta.
  repeat wlp_step; try frame_id.
  apply IH. frame_id.
Qed.

(** [delete] assigns no identifier but the empty one, to any slot. *)
Lemma delete_frame_id depth j k id0 w :
  layer_at k (blank_or id0) w ->
  wlp (delete depth j) (fun _ => layer_at k (blank_or id0)) w.
Proof.
  revert j w. induction depth as [|depth IH]; intros j w H; [apply wlp_raise|].
  rewrite delete_unfold. unfold free_bake, deallocate_layer_image, _delete_preview_material,
    set_name.
  repeat wlp_step; try frame_id.
  all: try (eapply wlp_mono;
            [apply (wlp_for_each _ _ (layer_at k (blank_or id0)));
             [frame_id
             |let child := fresh "child" in let w1 := fresh "w" in
              let Hinv := fresh "Hinv" in let p := fresh "p" in let w2 := fresh "w" in
              intros child w1 Hinv; apply wlp_bind; eapply wlp_mono;
              [apply resolve_layer_wlp|]; intros p w2 ->; by apply IH]
            |intros ? ? ?; cbv beta]).
  all: repeat wlp_step.
  all: try (eapply wlp_mono;
            [apply (update_name_frame_id depth j k id0); frame_id|];
            intros ? ? ?; cbv beta; repeat wlp_step).
  all: frame_id.
Qed.

Lemma wlp_seq_any {A B} (m : M A) (f : A -> M B) (Q : B -> World -> Prop) w :
  (forall a w1, wlp (f a) Q w1) -> wlp (m ≫= f) Q w.
Proof. intros H. apply wlp_bind. intros a w1 _. apply H. Qed.

(** When [delete] returns, the layer has no identifier. *)
Lemma delete_post depth i w :
  wlp (delete depth i) (fun _ => layer_at i (fun l => is_initialized l = false)) w.
Proof.
  destruct depth as [|depth]; [apply wlp_raise|]. rewrite delete_unfold.
  apply wlp_bind, wlp_self_layer. intros l Hl.
  destruct (is_initialized l) eqn:Hinit; cbn [negb].
  - do 15 (apply wlp_seq_any; intros ? ?).
    repeat wlp_step. eapply slot_at_lookup; [eassumption|]. by apply negb_true_iff.
  - apply wlp_ret. by exists l.
Qed.

Lemma blank_or_empty l : blank_or "" l <-> is_initialized l = false.
Proof.
  unfold blank_or, is_initialized. rewrite str_bool_false. tauto.
Qed.

Lemma blanked_refl w : blanked w w.
Proof. intros k l Hl. exists l. split; [done|by left]. Qed.

Lemma blanked_trans w w1 w2 : blanked w w1 -> blanked w1 w2 -> blanked w w2.
Proof.
  intros H1 H2 k l Hl. destruct (H1 k l Hl) as (l1 & Hl1 & Hid1).
  destruct (H2 k l1 Hl1) as (l2 & Hl2 & Hid2). exists l2. split; [done|].
  unfold blank_or in *. destruct Hid1 as [<-|E1]; [done|]. right.
  rewrite E1 in Hid2. by destruct Hid2.
Qed.

Lemma blanked_alter w w1 i f :
  blanked w w1 ->
  (forall l, identifier (f l) = identifier l \/ identifier (f l) = "") ->
  blanked w (with_layers (alter f i (layers w1)) w1).
Proof.
  intros H Hf k l Hl. unfold layer_at. cbn [layers with_layers].
  apply slot_at_alter_any; [by apply H|].
  intros l' [E|E]; unfold blank_or; destruct (Hf l') as [E'|E']; rewrite E'; auto.
Qed.

Lemma blanked_warn w w1 ws : blanked w w1 -> blanked w (with_warnings ws w1).
Proof. intros H k l Hl. by apply H. Qed.

Lemma blanked_blank w w1 k :
  blanked w w1 -> layer_at k (blank_or "") w -> layer_at k (blank_or "") w1.
Proof.
  intros H (l & Hl & Hb). destruct (H k l Hl) as (l1 & Hl1 & Hb1). exists l1.
  split; [done|]. unfold blank_or in *. destruct Hb as [E|E]; rewrite E in Hb1; tauto.
Qed.

Lemma delete_blanked depth j w : wlp (delete depth j) (fun _ w' => blanked w w') w.
Proof.
  intros a w' Hrun k l Hl.
  apply (delete_frame_id depth j k (identifier l) w) with (a := a); [|done].
  exists l. split; [done|by left].
Qed.

Lemma get_layer_by_id_blanked w w1 id j :
  blanked w w1 -> get_layer_by_id w id = Some j ->
  layer_at j (blank_or "") w1 \/ get_layer_by_id w1 id = Some j.
Proof.
  intros Hb Hget. unfold get_layer_by_id in *.
  destruct (coll_find_Some _ _ _ _ Hget) as (x & Hx & Hid & Hbefore).
  destruct (Hb j x Hx) as (x1 & Hx1 & Hb1). unfold blank_or in Hb1.
  destruct Hb1 as [E|E]; [|left; exists x1; split; [done|by right]].
  destruct (decide (id = "")) as [->|Hne].
  { left. exists x1. split; [done|]. left. congruence. }
  right. apply (coll_find_first identifier _ _ j x1); [done|congruence|].
  intros k y Hk Hy Hyid.
  assert (Hkl : is_Some (layers w !! k)).
  { apply lookup_lt_is_Some. apply lookup_lt_Some in Hx. lia. }
  destruct Hkl as [z Hz]. destruct (Hb k z Hz) as (y' & Hy' & Hby).
  assert (y' = y) as -> by congruence. unfold blank_or in Hby.
  destruct Hby as [E'|E']; [|congruence].
  apply (Hbefore k z Hk Hz). congruence.
Qed.

Lemma delete_children_loop depth (rs : list MaterialLayerRef) :
  forall w w',
    for_each rs (fun child => j ← resolve_layer child; delete depth j) w = Ret tt w' ->
    blanked w w'
    /\ forall r j, r ∈ rs -> get_layer_by_id w (ref_name r) = Some j ->
                   layer_at j (blank_or "") w'.
Proof.
  induction rs as [|r rs IH]; intros w w' Hrun.
  - injection Hrun as <-. split; [apply blanked_refl|]. intros r j Hr. by apply elem_of_nil in Hr.
  - cbn [for_each] in Hrun. rewrite bind_unfold in Hrun.
    destruct ((j ← resolve_layer r; delete depth j) w) as [[] w1| |] eqn:Hbody; [|done..].
    rewrite bind_unfold in Hbody.
    destruct (resolve_layer r w) as [j0 w0| |] eqn:Hres; [|done..].
    destruct (resolve_layer_Ret _ _ _ _ Hres) as (_ & _ & -> & Hget0).
    destruct (IH w1 w' Hrun) as (Hb1 & Hkids).
    assert (Hb0 : blanked w w1) by (by eapply delete_blanked).
    split; [by eapply blanked_trans|].
    intros r' j Hr' Hget. apply elem_of_cons in Hr' as [->|Hr'].
    + assert (j = j0) as -> by congruence.
      apply (blanked_blank w1 w' j0 Hb1).
      destruct (delete_post depth j0 w tt w1 Hbody) as (x & Hx & Hi).
      exists x. split; [done|]. by apply blank_or_empty.
    + destruct (get_layer_by_id_blanked w w1 _ j Hb0 Hget) as [Hblank|Hget1].
      * by apply (blanked_blank w1 w' j Hb1).
      * by apply (Hkids r' j).
Qed.

Lemma with_layers_with_layers a b w : with_layers a (with_layers b w) = with_layers a w.
Proof. reflexivity. Qed.

Lemma update_name_frame_ids depth j (T : nat -> Prop) w :
  (forall k, T k -> layer_at k (blank_or "") w) ->
  wlp (_update_name depth j) (fun _ w' => forall k, T k -> layer_at k (blank_or "") w') w.
Proof.
  intros H a w' Hrun k Hk.
  by apply (update_name_frame_id depth j k "" w (H k Hk) a w' Hrun).
Qed.

Lemma delete_children_loop_wlp depth (rs : list MaterialLayerRef) w :
  wlp (for_each rs (fun child => j ← resolve_layer child; delete depth j))
      (fun _ w' => blanked w w'
                   /\ forall r j, r ∈ rs -> get_layer_by_id w (ref_name r) = Some j ->
                                  layer_at j (blank_or "") w') w.
Proof. intros [] w' Hrun. by apply (delete_children_loop depth). Qed.

Lemma delete_cascade_wlp depth i w l :
  layers w !! i = Some l -> is_initialized l = true ->
  wlp (delete depth i)
      (fun _ w' => forall j, (exists r, r ∈ children l
                                /\ get_layer_by_id w (ref_name r) = Some j) ->
                             layer_at j (blank_or "") w') w.
Proof.
  intros Hl Hinit. destruct depth as [|depth]; [apply wlp_raise|].
  rewrite delete_unfold. unfold free_bake, deallocate_layer_image, _delete_preview_material,
    set_name.
  apply wlp_bind, wlp_self_layer. intros l0 Hl0.
  assert (l0 = l) as -> by congruence. rewrite Hinit. cbn [negb].
  repeat wlp_step.
  all: cbn [layers with_layers] in *; rewrite ?with_layers_with_layers in *;
    rewrite ?list_alter_alter_eq in *.
  all: repeat match goal with
       | H : alter _ ?k (layers ?v) !! ?k = Some _ |- _ =>
           rewrite list_lookup_alter_eq, Hl in H; simpl in H; injection H as <-
       end.
  all: cbn [children with_image with_is_baked with_channels with_parent with_identifier
            compose].
  all: match goal with
       | |- wlp _ _ ?W =>
           assert (HbW : blanked w W)
             by (apply blanked_alter; [apply blanked_refl|intros ?; simpl; auto])
       end.
  all: eapply wlp_mono; [apply delete_children_loop_wlp|].
  all: intros [] w2 [Hb2 Hkids]; cbv beta.
  all: assert (Hbase : forall j, (exists r, r ∈ children l
                                    /\ get_layer_by_id w (ref_name r) = Some j) ->
                         layer_at j (blank_or "") w2)
    by (intros j (r & Hr & Hget);
        destruct (get_layer_by_id_blanked w _ _ j HbW Hget) as [Hblank|Hget1];
        [by apply (blanked_blank _ w2 j Hb2)|by apply (Hkids r j)]).
  all: repeat wlp_step.
  all: (eapply wlp_mono;
        [apply (update_name_frame_ids depth i
                  (fun j => exists r, r ∈ children l
                                      /\ get_layer_by_id w (ref_name r) = Some j));
         let j := fresh "j" in let Hj := fresh "Hj" in
         intros j Hj; specialize (Hbase j Hj); frame_id
        |]).
  all: intros ? w3 Hinv; cbv beta; repeat wlp_step; exact Hinv.
Qed.

Lemma slot_at_alter_ne k j f (P : MaterialLayer -> Prop) ls :
  j <> k -> slot_at k P ls -> slot_at k P (alter f j ls).
Proof.
  intros Hne (l & Hl & HP). exists l. split; [|done]. by rewrite list_lookup_alter_ne.
Qed.

Ltac frame_ne :=
  cbv beta in *; unfold layer_at in *;
  cbn [layers with_layers with_warnings pml_layer_stack warnings] in *;
  repeat (apply slot_at_alter_ne; [done|]);
  eassumption.

Lemma update_name_frame_ne depth j k (P : MaterialLayer -> Prop) w :
  j <> k -> layer_at k P w ->
  wlp (_update_name depth j) (fun _ => layer_at k P) w.
Proof.
  intros Hne. revert w. induction depth as [|depth IH]; intros w H; [apply wlp_raise|].
  rewrite update_name_unfold. apply wlp_bind.
  eapply wlp_mono; [apply get_unique_name_pure|]. intros nm w' ->. cbv beta.
  repeat wlp_step; try frame_ne.
  apply IH. frame_ne.
Qed.

(** A slot without identifier is out of reach of [delete], of any slot. *)
Lemma delete_frame_blank_slot depth j k (P : MaterialLayer -> Prop) w :
  (forall l, P l -> identifier l = "") ->
  layer_at k P w ->
  wlp (delete depth j) (fun _ => layer_at k P) w.
Proof.
  intros HP. revert j w. induction depth as [|depth IH]; intros j w H; [apply wlp_raise|].
  rewrite delete_unfold. destruct (decide (j = k)) as [->|Hne].
  - apply wlp_bind, wlp_self_layer. intros l Hl.
    assert (Hid : identifier l = "") by (apply HP; by eapply layer_at_lookup).
    unfold is_initialized. rewrite (proj2 (str_bool_false _) Hid). cbn [negb].
    by apply wlp_ret.
  - unfold free_bake, deallocate_layer_image, _delete_preview_material, set_name.
    repeat wlp_step; try frame_ne.
    all: try (eapply wlp_mono;
              [apply (wlp_for_each _ _ (layer_at k P));
               [frame_ne
               |let child := fresh "child" in let w1 := fresh "w" in
                let Hinv := fresh "Hinv" in let p := fresh "p" in let w2 := fresh "w" in
                intros child w1 Hinv; apply wlp_bind; eapply wlp_mono;
                [apply resolve_layer_wlp|]; intros p w2 ->; by apply IH]
              |intros ? ? ?; cbv beta]).
    all: repeat wlp_step.
    all: try (eapply wlp_mono;
              [apply (update_name_frame_ne depth j k P); [done|frame_ne]|];
              intros ? ? ?; cbv beta; repeat wlp_step).
    all: frame_ne.
Qed.

Lemma update_name_stable depth i (P : MaterialLayer -> Prop) w :
  (forall l nm, P l -> P (with_name nm l)) ->
  (forall l t x, P l -> node_tree l = Some t -> P (with_node_tree x l)) ->
  layer_at i P w ->
  wlp (_update_name depth i) (fun _ => layer_at i P) w.
Proof.
  intros Hname Htree. revert w. induction depth as [|depth IH]; intros w H;
    [apply wlp_raise|].
  rewrite update_name_unfold. apply wlp_bind.
  eapply wlp_mono; [apply get_unique_name_pure|]. intros nm w' ->. cbv beta.
  repeat wlp_step.
  - apply IH. eapply layer_at_alter; [exact H|]. intros l0 Hl0. by apply Hname.
  - eapply layer_at_alter_lookup; [eassumption|].
    eapply Htree; [|eassumption]. by eapply layer_at_lookup.
  - done.
Qed.

Lemma delete_cleared depth i w l :
  layers w !! i = Some l -> is_initialized l = true ->
  wlp (delete depth i) (fun _ => layer_at i cleared) w.
Proof.
  intros Hl Hinit. destruct depth as [|depth]; [apply wlp_raise|].
  rewrite delete_unfold. unfold free_bake, deallocate_layer_image, _delete_preview_material,
    set_name.
  apply wlp_bind, wlp_self_layer. intros l0 Hl0.
  assert (l0 = l) as -> by congruence. rewrite Hinit. cbn [negb].
  repeat wlp_step.
  all: cbn [layers with_layers] in *; rewrite ?with_layers_with_layers in *;
    rewrite ?list_alter_alter_eq in *.
  all: repeat match goal with
       | H : alter _ ?k (layers ?v) !! ?k = Some _ |- _ =>
           rewrite list_lookup_alter_eq, Hl in H; simpl in H; injection H as <-
       end.
  all: eapply wlp_mono;
    [apply (wlp_for_each _ _
              (layer_at i (fun l' => identifier l' = "" /\ ref_bool (parent l') = false
                                     /\ is_baked l' = false)));
     [eapply layer_at_alter_lookup; [exact Hl|done]
     |let child := fresh "child" in let w1 := fresh "w" in
      let Hinv := fresh "Hinv" in let p := fresh "p" in let w2 := fresh "w" in
      intros child w1 Hinv; apply wlp_bind; eapply wlp_mono;
      [apply resolve_layer_wlp|]; intros p w2 ->;
      apply delete_frame_blank_slot; [by intros ? [? _]|done]]
    |].
  all: intros [] wk (lk & Hl2 & Hid2 & Hpar2 & Hbaked2); cbv beta.
  all: repeat wlp_step.
  all: cbn [layers with_layers] in *; rewrite ?with_layers_with_layers in *;
    rewrite ?list_alter_alter_eq in *.
  all: repeat match goal with
       | H : alter _ ?k (layers ?v) !! ?k = Some _ |- _ =>
           rewrite list_lookup_alter_eq, Hl2 in H; simpl in H; injection H as <-
       end.
  all: simpl in *.
  all: (eapply wlp_mono;
        [apply (update_name_stable depth i
                  (fun l' => identifier l' = "" /\ ref_bool (parent l') = false
                             /\ is_baked l' = false /\ children l' = []
                             /\ channels l' = [] /\ node_tree l' = None
                             /\ node_mask l' = None /\ preview_material l' = None));
         [by intros ? ? ?
         |intros ? ? ? (_ & _ & _ & _ & _ & Hnone & _) Hsome; congruence
         |eapply layer_at_alter_lookup; [exact Hl2|]; simpl; split_and!; done]
        |]).
  all: intros [] w3 (l3 & Hl3 & Hid3 & Hpar3 & Hbaked3 & Hkids3 & Hch3 & Htree3
                     & Hmask3 & Hprev3);
    cbv beta; repeat wlp_step.
  all: match goal with
       | H : layers ?v !! _ = Some ?x, H' : negb (is_initialized ?x) = true |- _ =>
           assert (x = l3) as -> by congruence
       end.
  all: exists l3; split; [done|]; unfold cleared; split_and!; try done.
  all: try (unfold has_image in *; by destruct (image l3)).
  all: by apply Z.eqb_eq.
Qed.

(** X21. When [delete] returns from a layer in use, whatever its children,
    the layer has no identifier, no image and the image channel -1, no
    channel, no child, no parent, no node tree, node mask or preview
    material, and is not baked. *)
Theorem delete_resets_layer (depth i : nat) (w w' : World) (l : MaterialLayer) :
  delete depth i w = Ret tt w' ->
  layers w !! i = Some l -> is_initialized l = true ->
  layer_at i cleared w'.
Proof.
  intros Hrun Hl Hinit. exact (delete_cleared depth i w l Hl Hinit tt w' Hrun).
Qed.

Lemma delete_resets_layer_witness :
  layer_at 0 cleared (Demo.world (replicate 3 (recycled "MATERIAL_PAINT"))).
Proof.
  apply (delete_resets_layer 3 0 (Demo.world Demo.brood)
           (Demo.world (replicate 3 (recycled "MATERIAL_PAINT")))
           (Demo.node "root" ["A"; "B"])).
  - vm_compute. reflexivity.
  - reflexivity.
  - reflexivity.
Defined.

(** X22. When [delete] returns, the layer is not in use; when it was not in
    use before, nothing has changed; and [delete] once more returns and
    changes nothing. *)
Theorem delete_twice (depth depth' i : nat) (w w' : World) (l : MaterialLayer) :
  delete depth i w = Ret tt w' -> layers w !! i = Some l ->
  layer_at i (fun l' => is_initialized l' = false) w'
  /\ (is_initialized l = false -> w' = w)
  /\ delete (S depth') i w' = Ret tt w'.
Proof.
  intros Hrun Hl.
  assert (Hpost := delete_post depth i w tt w' Hrun).
  split_and!.
  - done.
  - intros Hinit. destruct depth as [|depth]; [done|]. rewrite delete_unfold in Hrun.
    rewrite bind_unfold in Hrun. unfold self_layer in Hrun. rewrite Hl, Hinit in Hrun.
    by injection Hrun.
  - destruct Hpost as (x & Hx & Hb). rewrite delete_unfold, bind_unfold.
    unfold self_layer. by rewrite Hx, Hb.
Qed.

Lemma delete_twice_witness :
  layer_at 0 (fun l' => is_initialized l' = false)
    (Demo.world (replicate 3 (recycled "MATERIAL_PAINT")))
  /\ (is_initialized (Demo.node "root" ["A"; "B"]) = false ->
      Demo.world (replicate 3 (recycled "MATERIAL_PAINT")) = Demo.world Demo.brood)
  /\ delete 1 0 (Demo.world (replicate 3 (recycled "MATERIAL_PAINT")))
     = Ret tt (Demo.world (replicate 3 (recycled "MATERIAL_PAINT"))).
Proof.
  apply (delete_twice 3 0 0 (Demo.world Demo.brood)
           (Demo.world (replicate 3 (recycled "MATERIAL_PAINT")))
           (Demo.node "root" ["A"; "B"])).
  - vm_compute. reflexivity.
  - reflexivity.
Defined.

(** X23. When [delete] returns from a layer in use, every layer that a child
    reference of it resolved to before the call is not in use afterwards;
    and every slot of the document is still there, with the identifier it
    had or none. *)
Theorem delete_cascades (depth i : nat) (w w' : World) (l : MaterialLayer) :
  delete depth i w = Ret tt w' ->
  layers w !! i = Some l -> is_initialized l = true ->
  blanked w w'
  /\ forall r j, r ∈ children l -> get_layer_by_id w (ref_name r) = Some j ->
                 layer_at j (fun l' => is_initialized l' = false) w'.
Proof.
  intros Hrun Hl Hinit. split.
  - by apply (delete_blanked depth i w tt w').
  - intros r j Hr Hget.
    destruct (delete_cascade_wlp depth i w l Hl Hinit tt w' Hrun j) as (x & Hx & Hb);
      [by exists r|].
    exists x. split; [done|]. by apply blank_or_empty.
Qed.

Lemma delete_cascades_witness :
  blanked (Demo.world Demo.brood) (Demo.world (replicate 3 (recycled "MATERIAL_PAINT")))
  /\ forall r j, r ∈ children (Demo.node "root" ["A"; "B"]) ->
                 get_layer_by_id (Demo.world Demo.brood) (ref_name r) = Some j ->
                 layer_at j (fun l' => is_initialized l' = false)
                   (Demo.world (replicate 3 (recycled "MATERIAL_PAINT"))).
Proof.
  apply (delete_cascades 3 0 (Demo.world Demo.brood)
           (Demo.world (replicate 3 (recycled "MATERIAL_PAINT")))
           (Demo.node "root" ["A"; "B"])).
  - vm_compute. reflexivity.
  - reflexivity.
  - reflexivity.
Defined.

(** ** The names of the channels of a layer *)

Lemma add_channel_names (host : Host) i c ns w :
  layer_at i (on_channels (fun chs _ => (ch_name <$> chs) = ns)) w ->
  wlp (add_channel host i (ArgChannel c))
      (fun _ => layer_at i (on_channels (fun chs _ => (ch_name <$> chs) = add_names ns [c])))
      w.
Proof.
  intros H. unfold add_channel, add_names. cbn [foldl].
  apply wlp_bind, wlp_self_layer. intros self Hself.
  assert (Hns : (ch_name <$> channels self) = ns) by (by eapply (layer_at_lookup _ _ _ _ H)).
  destruct (coll_get ch_name (ch_name c) (channels self)) as [existing|] eqn:Hget.
  - assert (Hin : ch_name c ∈ ns).
    { rewrite <- Hns. destruct (coll_get_Some _ _ _ _ Hget) as [Hex Hn].
      apply list_elem_of_fmap. by exists existing. }
    rewrite (bool_decide_eq_true_2 _ Hin). repeat wlp_step. exact H.
  - assert (Hnin : ch_name c ∉ ns).
    { rewrite <- Hns. intros Hin. apply (coll_get_is_Some ch_name) in Hin as [? Hin].
      congruence. }
    rewrite (bool_decide_eq_false_2 _ Hnin). repeat wlp_step.
    eapply wlp_mono.
    { apply (ensure_output_frame host i c
               (fun chs _ => (ch_name <$> chs) = ns ++ [ch_name c])).
      eapply layer_at_alter; [exact H|]. intros l0 Hl0. unfold on_channels in *. simpl.
      by rewrite fmap_app, Hl0. }
    intros ? w1 H1. cbv beta. repeat wlp_step. eapply wlp_mono.
    { apply refresh_preview_frame, H1. }
    intros ? w2 H2. cbv beta. repeat wlp_step. exact H2.
Qed.

Lemma add_names_snoc ns cs c : add_names ns (cs ++ [c]) = add_names (add_names ns cs) [c].
Proof. unfold add_names. by rewrite foldl_snoc. Qed.

Lemma add_names_cons ns cs c : add_names ns (c :: cs) = add_names (add_names ns [c]) cs.
Proof. reflexivity. Qed.

Lemma add_channels_names (host : Host) i eco (cs : list Channel) :
  forall ns w,
  layer_at i (on_channels (fun chs _ => (ch_name <$> chs) = ns)) w ->
  wlp (for_each cs (fun ch =>
         if ch_enabled ch || negb eco
         then add_channel host i (ArgChannel ch);; mret tt
         else mret tt))
      (fun _ => layer_at i (on_channels (fun chs _ =>
                  (ch_name <$> chs) = add_names ns (requested (Some cs) eco)))) w.
Proof.
  induction cs as [|c cs IH]; intros ns w H; cbn [for_each requested List.filter].
  - by apply wlp_ret.
  - apply wlp_bind. destruct (ch_enabled c || negb eco).
    + apply wlp_bind. eapply wlp_mono; [by apply add_channel_names|].
      intros ? w1 H1. cbv beta. apply wlp_ret. rewrite add_names_cons. by apply IH.
    + apply wlp_ret. by apply IH.
Qed.

Lemma initialize_channel_names (host : Host) depth i name' ty chans eco ns w :
  layer_at i (on_channels (fun chs _ => (ch_name <$> chs) = ns)) w ->
  wlp (initialize host depth i name' ty chans eco)
      (fun _ => layer_at i (on_channels (fun chs _ =>
                  (ch_name <$> chs) = add_names ns (requested chans eco)))) w.
Proof.
  intros H. unfold initialize. repeat wlp_step.
  eapply wlp_mono.
  { apply (set_name_frame depth i name' (fun chs _ => (ch_name <$> chs) = ns)). frame_done. }
  intros ? w1 H1. cbv beta in H1. repeat wlp_step.
  all: try (eapply wlp_mono;
            [apply (add_channels_names host i eco _ ns); frame_done
            |intros ? ? ?; cbv beta]).
  all: repeat wlp_step.
  all: try (eapply wlp_mono;
            [apply (create_preview_frame host i
                      (fun chs _ => (ch_name <$> chs) = add_names ns (requested chans eco)));
             subst chans; frame_done|];
            intros ? ? ?; cbv beta; repeat wlp_step).
  all: subst chans; frame_done.
Qed.

Lemma remove_channel_names i arg ns w :
  layer_at i (on_channels (fun chs _ => (ch_name <$> chs) = ns)) w ->
  wlp (remove_channel i arg)
      (fun _ => layer_at i (on_channels (fun chs _ =>
                  exists k, k < length ns /\ (ch_name <$> chs) = coll_remove k ns))) w.
Proof.
  intros H. unfold remove_channel. repeat wlp_step.
  all: cbn [layers with_layers] in *; rewrite ?with_layers_with_layers in *;
    rewrite ?list_alter_alter_eq in *.
  all: match goal with
       | Hf : coll_find ch_name _ (channels ?self) = Some ?k,
         Hs : layers _ !! _ = Some ?self |- _ =>
           assert (Hk : k < length ns)
             by (rewrite <- (layer_at_lookup _ _ _ _ H Hs), length_fmap;
                 by eapply coll_find_lt);
           eapply layer_at_alter; [exact H|];
           let l0 := fresh "l" in let Hl0 := fresh "Hl" in
           intros l0 Hl0; unfold on_channels in *; simpl; exists k; split; [done|];
           unfold coll_remove; rewrite list_fmap_delete, fmap_alter_key by done;
           by rewrite Hl0
       end.
Qed.

Lemma NoDup_coll_remove {A} (k : nat) (l : list A) : NoDup l -> NoDup (coll_remove k l).
Proof. intros H. eapply sublist_NoDup; [exact H|apply sublist_delete]. Qed.

Lemma add_names_NoDup ns cs : NoDup ns -> NoDup (add_names ns cs).
Proof.
  revert ns. induction cs as [|c cs IH]; intros ns H; [done|].
  rewrite add_names_cons. apply IH. unfold add_names. cbn [foldl].
  destruct (bool_decide (ch_name c ∈ ns)) eqn:E; [done|].
  apply bool_decide_eq_false_1 in E. apply NoDup_app. split_and!; [done| |apply NoDup_singleton].
  intros x Hx Hx'. apply list_elem_of_singleton in Hx'. by subst.
Qed.

Lemma elem_of_add_names ns cs n :
  n ∈ add_names ns cs <-> n ∈ ns \/ n ∈ (ch_name <$> cs).
Proof.
  revert ns. induction cs as [|c cs IH]; intros ns.
  - rewrite fmap_nil, elem_of_nil. unfold add_names. simpl. tauto.
  - rewrite add_names_cons, IH, fmap_cons, elem_of_cons. unfold add_names. cbn [foldl].
    destruct (bool_decide (ch_name c ∈ ns)) eqn:E.
    + apply bool_decide_eq_true_1 in E. split; [tauto|]. intros [?|[->|?]]; tauto.
    + rewrite elem_of_app, list_elem_of_singleton. tauto.
Qed.

Lemma add_names_prefix ns cs : ns `prefix_of` add_names ns cs.
Proof.
  revert ns. induction cs as [|c cs IH]; intros ns; [done|].
  rewrite add_names_cons. etrans; [|apply IH]. unfold add_names. cbn [foldl].
  destruct (bool_decide (ch_name c ∈ ns)); [done|]. by apply prefix_app_r.
Qed.

Lemma add_channel_unique (host : Host) i arg w :
  layer_at i unique_names w ->
  wlp (add_channel host i arg) (fun _ => layer_at i unique_names) w.
Proof.
  intros (l & Hl & Hnd). destruct arg as [c| |]; [|apply wlp_raise..].
  eapply wlp_mono.
  { apply (add_channel_names host i c (ch_name <$> channels l)). by exists l. }
  intros ? w1 (l1 & Hl1 & Hn). exists l1. split; [done|].
  unfold unique_names, on_channels in *. rewrite Hn. by apply add_names_NoDup.
Qed.

Lemma remove_channel_unique i arg w :
  layer_at i unique_names w ->
  wlp (remove_channel i arg) (fun _ => layer_at i unique_names) w.
Proof.
  intros (l & Hl & Hnd). eapply wlp_mono.
  { apply (remove_channel_names i arg (ch_name <$> channels l)). by exists l. }
  intros ? w1 (l1 & Hl1 & k & Hk & Hn). exists l1. split; [done|].
  unfold unique_names, on_channels in *. rewrite Hn. by apply NoDup_coll_remove.
Qed.

Lemma clear_channels_unique i w :
  layer_at i unique_names w ->
  wlp (clear_channels i) (fun _ => layer_at i unique_names) w.
Proof.
  intros H. unfold clear_channels. repeat wlp_step.
  apply wlp_for_each; [done|]. intros n w1 H1. by apply remove_channel_unique.
Qed.

Lemma initialize_unique (host : Host) depth i name' ty chans eco w :
  layer_at i unique_names w ->
  wlp (initialize host depth i name' ty chans eco) (fun _ => layer_at i unique_names) w.
Proof.
  intros (l & Hl & Hnd). eapply wlp_mono.
  { apply (initialize_channel_names host depth i name' ty chans eco
             (ch_name <$> channels l)). by exists l. }
  intros ? w1 (l1 & Hl1 & Hn). exists l1. split; [done|].
  unfold unique_names, on_channels in *. rewrite Hn. by apply add_names_NoDup.
Qed.

(** X24. From a layer whose channels have distinct names, every run of
    [initialize], [add_channel], [remove_channel] and [clear_channels] in
    which each call returns ends with a layer whose channels have distinct
    names. *)
Theorem channel_names_stay_unique (host : Host) (depth i : nat) (ops : list Op)
    (w w' : World) :
  layer_at i unique_names w ->
  for_each ops (run_op host depth i) w = Ret tt w' ->
  layer_at i unique_names w'.
Proof.
  intros Hu Hrun.
  refine (wlp_for_each ops (run_op host depth i) (layer_at i unique_names) w Hu _ tt w' Hrun).
  intros op w1 H1. destruct op; simpl.
  - by apply initialize_unique.
  - apply wlp_bind. eapply wlp_mono; [by apply add_channel_unique|].
    intros ? w2 H2. by apply wlp_ret.
  - by apply remove_channel_unique.
  - by apply clear_channels_unique.
Qed.

Lemma channel_names_stay_unique_witness :
  layer_at 0 unique_names
    (Demo.world [with_active_channel_index 0
                   (with_channels [Demo.color] (Demo.live "id.00" []))]).
Proof.
  apply (channel_names_stay_unique Demo.host 2 0
           [OpRemoveChannel (ArgStr "Roughness")]
           (Demo.world [with_active_channel_index 1
                          (with_channels [Demo.color; Demo.roughness]
                             (Demo.live "id.00" []))])).
  - eexists. split; [reflexivity|]. apply (bool_decide_unpack _). vm_compute. exact I.
  - vm_compute. reflexivity.
Defined.

(** X25. When [initialize] returns, the names of the channels of the layer
    are the names from before, in order, followed by the names of the
    channels given that are enabled, or of all of them when
    [enabled_channels_only] is false, in order and each name once; and the
    active index is 0. *)
Theorem initialize_channel_list (host : Host) (depth i : nat) (name' ty : string)
    (chans : option (list Channel)) (eco : bool) (w w' : World) (l : MaterialLayer) :
  layers w !! i = Some l ->
  initialize host depth i name' ty chans eco w = Ret tt w' ->
  exists l',
    layers w' !! i = Some l'
    /\ (ch_name <$> channels l')
       = add_names (ch_name <$> channels l) (requested chans eco)
    /\ (forall n, n ∈ (ch_name <$> channels l') <->
          n ∈ (ch_name <$> channels l)
          \/ exists c, c ∈ default [] chans /\ (ch_enabled c || negb eco) = true
                       /\ ch_name c = n)
    /\ (ch_name <$> channels l) `prefix_of` (ch_name <$> channels l')
    /\ active_channel_index l' = 0%Z.
Proof.
  intros Hl Hrun.
  destruct (initialize_channel_names host depth i name' ty chans eco
              (ch_name <$> channels l) w) with (a := tt) (w' := w')
    as (l' & Hl' & Hn); [by exists l|done|].
  destruct (initialize_index host depth i name' ty chans eco w tt w' Hrun)
    as (l'' & Hl'' & Hidx).
  assert (l'' = l') as -> by congruence.
  unfold on_channels in *. exists l'. split; [done|]. split; [done|].
  split; [|split; [rewrite Hn; apply add_names_prefix|done]].
  intros n. rewrite Hn, elem_of_add_names. apply or_iff_compat_l.
  rewrite list_elem_of_fmap. unfold requested.
  destruct chans as [chs|]; simpl.
  - split.
    + intros (c & -> & Hc). apply elem_of_List_filter in Hc as [Hc He]. by exists c.
    + intros (c & Hc & He & <-). exists c. split; [done|]. by apply elem_of_List_filter.
  - split; [intros (c & _ & Hc); by apply elem_of_nil in Hc|].
    intros (c & Hc & _). by apply elem_of_nil in Hc.
Qed.

Lemma initialize_channel_list_witness :
  exists l',
    layers Demo.painted !! 0 = Some l'
    /\ (ch_name <$> channels l')
       = add_names (ch_name <$> channels default_layer)
           (requested (Some [Demo.color; Demo.roughness; Demo.normal]) true)
    /\ (forall n, n ∈ (ch_name <$> channels l') <->
          n ∈ (ch_name <$> channels default_layer)
          \/ exists c, c ∈ default [] (Some [Demo.color; Demo.roughness; Demo.normal])
                       /\ (ch_enabled c || negb true) = true
                       /\ ch_name c = n)
    /\ (ch_name <$> channels default_layer) `prefix_of` (ch_name <$> channels l')
    /\ active_channel_index l' = 0%Z.
Proof.
  apply (initialize_channel_list Demo.host 2 0 "Layer" "MATERIAL_PAINT"
           (Some [Demo.color; Demo.roughness; Demo.normal]) true
           (Demo.fresh 1) Demo.painted default_layer).
  - reflexivity.
  - vm_compute. reflexivity.
Defined.

(** ** Replacing the node tree *)

Lemma for_each_app {A} (xs ys : list A) (body : A -> M unit) w :
  for_each (xs ++ ys) body w = (for_each xs body;; for_each ys body) w.
Proof.
  revert w. induction xs as [|x xs IH]; intros w; cbn [for_each app].
  - by rewrite bind_unfold, mret_unfold.
  - rewrite !bind_unfold. destruct (body x w) as [[] w1| |]; [|done..].
    rewrite IH. by rewrite bind_unfold.
Qed.

Lemma ensured_names c t t' :
  ensured c t t' ->
  nt_name t' = nt_name t
  /\ (sock_name <$> nt_outputs t') = add_names (sock_name <$> nt_outputs t) [c].
Proof.
  intros (Hname & Hcase). split; [done|]. unfold add_names. cbn [foldl].
  destruct Hcase as [[Hin Hsame]|[Hnin (o & Hout & Ho)]].
  - by rewrite (bool_decide_eq_true_2 _ Hin).
  - rewrite (bool_decide_eq_false_2 _ Hnin), Hout, fmap_app. simpl. by rewrite Ho.
Qed.

Lemma add_names_app ns cs ds : add_names ns (cs ++ ds) = add_names (add_names ns cs) ds.
Proof. unfold add_names. by rewrite foldl_app. Qed.

Lemma sync_enabled_name s c : ch_name (sync_enabled s c) = ch_name c.
Proof. unfold sync_enabled. by destruct (coll_get _ _ _). Qed.

Lemma with_tree_channels_id l t :
  node_tree l = Some t -> with_node_tree (Some t) (with_channels (channels l) l) = l.
Proof. intros H. destruct l; simpl in *. by subst. Qed.

Lemma sync_step s (chs : list Channel) n c (f : Channel -> Channel) :
  chs !! n = Some c -> f c = sync_enabled s c ->
  alter f n ((sync_enabled s <$> take n chs) ++ drop n chs)
  = (sync_enabled s <$> take (S n) chs) ++ drop (S n) chs.
Proof.
  intros Hc Hf.
  assert (Hlen : length (sync_enabled s <$> take n chs) = n).
  { rewrite length_fmap, length_take. apply lookup_lt_Some in Hc. lia. }
  rewrite alter_app_r_alt by lia. rewrite Hlen, Nat.sub_diag.
  rewrite (drop_S _ _ _ Hc), (take_S_r _ _ _ Hc), fmap_app, <- app_assoc. simpl.
  by rewrite Hf.
Qed.

Lemma sync_loop_run (host : Host) i w l t s (n : nat) :
  i < length (layers w) -> pml_layer_stack w = Some s -> node_tree l = Some t ->
  n <= length (channels l) ->
  exists t',
    for_each (seq 0 n) (fun k =>
      self ← self_layer i;
      match channels self !! k with
      | Some ch =>
          _ensure_node_tree_output host i ch;;
          match coll_get ch_name (ch_name ch) (stack_channels s) with
          | Some stack_ch =>
              modify i (fun l => with_channels
                (alter (channel_enable (ch_enabled stack_ch)) k (channels l)) l)
          | None => mret tt
          end
      | None => raise IndexError
      end) (upd i l w)
    = Ret tt (upd i (with_node_tree (Some t')
                (with_channels ((sync_enabled s <$> take n (channels l))
                                ++ drop n (channels l)) l)) w)
    /\ nt_name t' = nt_name t
    /\ (sock_name <$> nt_outputs t')
       = add_names (sock_name <$> nt_outputs t) (take n (channels l)).
Proof.
  intros Hi Hs Ht. induction n as [|n IH]; intros Hn.
  - exists t. simpl. rewrite drop_0, (with_tree_channels_id _ _ Ht). done.
  - destruct IH as (tn & Hrun & Hname & Houts); [lia|].
    assert (Hc : is_Some (channels l !! n)) by (apply lookup_lt_is_Some; lia).
    destruct Hc as [c Hc].
    rewrite seq_S, for_each_app, bind_unfold, Hrun. cbn [for_each plus].
    repeat mstep. cbn [channels with_node_tree with_channels].
    assert (Hlen : length (sync_enabled s <$> take n (channels l)) = n).
    { rewrite length_fmap, length_take. lia. }
    rewrite lookup_app_r by lia. rewrite Hlen, Nat.sub_diag, lookup_drop, Nat.add_0_r, Hc.
    repeat mstep.
    match goal with
    | |- context [ _ensure_node_tree_output host i c (upd i ?L ?W) ] =>
        destruct (ensure_output_run host i c W L tn s) as (t' & Hens & Hensured);
          [done..|]
    end.
    rewrite Hens. apply ensured_names in Hensured as [Hname' Houts'].
    exists t'. split; [|split].
    + destruct (coll_get ch_name (ch_name c) (stack_channels s)) as [sc|] eqn:Hsc;
        repeat mstep; cbn [channels with_node_tree with_channels].
      * rewrite (sync_step s (channels l) n c (channel_enable (ch_enabled sc)) Hc);
          [reflexivity|]. unfold sync_enabled. by rewrite Hsc.
      * rewrite <- (sync_step s (channels l) n c id Hc);
          [|unfold sync_enabled; by rewrite Hsc].
        rewrite list_alter_id by done. reflexivity.
    + congruence.
    + rewrite (take_S_r _ _ _ Hc), add_names_app, <- Houts. done.
Qed.

(** X26. [replace_node_tree] with a tree and without [update_channels], in
    a document with a stack, returns. The layer has the channels it had,
    each with the [enabled] of the channel of its name in the stack when
    there is one; its node tree has the name of the tree of the layer, and
    its outputs are named like those of the tree given, in order, followed
    by the names of the channels that had no output, so that every channel
    has an output and every output of the tree given is kept. With [None]
    for the tree, the layer just has no node tree afterwards. *)
Theorem replace_node_tree_keeps_channels (host : Host)
    (base_layer : World -> option MaterialLayer) (set_iter : list string -> list string)
    (i : nat) (t : NodeTree) (w : World) (l : MaterialLayer) (s : LayerStack) :
  layers w !! i = Some l -> pml_layer_stack w = Some s ->
  exists t1 pm ws,
    replace_node_tree host base_layer set_iter i (Some t) false w
    = Ret tt (upd i (with_preview_material pm
                       (with_node_tree (Some t1)
                          (with_channels (sync_enabled s <$> channels l) l)))
                (with_warnings ws w))
    /\ nt_name t1 = _node_tree_name l
    /\ (sock_name <$> nt_outputs t1) = add_names (sock_name <$> nt_outputs t) (channels l)
    /\ (forall c, c ∈ channels l -> ch_name c ∈ (sock_name <$> nt_outputs t1))
    /\ (forall n, n ∈ (sock_name <$> nt_outputs t) -> n ∈ (sock_name <$> nt_outputs t1))
    /\ replace_node_tree host base_layer set_iter i None false w
       = Ret tt (upd i (with_node_tree None l) w).
Proof.
  intros Hl Hs. assert (Hi : i < length (layers w)) by (by eapply lookup_lt_Some).
  assert (Hnone : replace_node_tree host base_layer set_iter i None false (upd i l w)
                  = Ret tt (upd i (with_node_tree None l) w)).
  { unfold replace_node_tree. repeat mstep.
    destruct (node_tree l); repeat mstep; reflexivity. }
  assert (Hrun : exists t1 pm ws,
    replace_node_tree host base_layer set_iter i (Some t) false (upd i l w)
    = Ret tt (upd i (with_preview_material pm
                       (with_node_tree (Some t1)
                          (with_channels (sync_enabled s <$> channels l) l)))
                (with_warnings ws w))
    /\ nt_name t1 = _node_tree_name l
    /\ (sock_name <$> nt_outputs t1) = add_names (sock_name <$> nt_outputs t) (channels l)).
  { unfold replace_node_tree. repeat mstep.
    destruct (node_tree l) eqn:Hold; repeat mstep;
      cbn [name with_node_tree node_tree fmap option_fmap option_map channels].
    all: match goal with
         | |- context [ for_each _ _ (upd _ ?L ?W) ] =>
             destruct (sync_loop_run host i W L (rename_tree (_node_tree_name l) t) s
                         (length (channels l)) Hi Hs eq_refl (le_n _))
               as (tn & Hloop & Hname & Houts)
         end.
    all: cbn [channels with_node_tree] in Hloop; rewrite Hloop.
    all: rewrite firstn_all, drop_all, app_nil_r in *; repeat mstep.
    all: cbn [node_tree with_node_tree fmap option_fmap option_map].
    all: match goal with
         | |- context [ _refresh_preview_material _ _ (upd _ ?L ?W) ] =>
             destruct (refresh_preview_run host i W L s Hi Hs) as (pm & ws & Hrefresh & _)
         end.
    all: rewrite Hrefresh; eexists _, pm, ws; split; [reflexivity|]; simpl; done. }
  rewrite (upd_id i l w Hl) in Hnone, Hrun.
  destruct Hrun as (t1 & pm & ws & Hrun & Hname & Houts).
  exists t1, pm, ws. split_and!; try done.
  - intros c Hc. rewrite Houts. apply elem_of_add_names. right.
    apply list_elem_of_fmap. by exists c.
  - intros n Hn. rewrite Houts. apply elem_of_add_names. by left.
Qed.

Lemma replace_node_tree_keeps_channels_witness :
  exists t1 pm ws,
    replace_node_tree Demo.host (fun _ => None) (fun ns => ns) 0
      (Some (Demo.tree [])) false
      (Demo.world [with_channels [Demo.color] (Demo.live "id.00" [])])
    = Ret tt (upd 0 (with_preview_material pm
                       (with_node_tree (Some t1)
                          (with_channels
                             (sync_enabled Demo.stack
                                <$> channels (with_channels [Demo.color]
                                                (Demo.live "id.00" [])))
                             (with_channels [Demo.color] (Demo.live "id.00" [])))))
                (with_warnings ws
                   (Demo.world [with_channels [Demo.color] (Demo.live "id.00" [])])))
    /\ nt_name t1 = _node_tree_name (with_channels [Demo.color] (Demo.live "id.00" []))
    /\ (sock_name <$> nt_outputs t1)
       = add_names (sock_name <$> nt_outputs (Demo.tree []))
           (channels (with_channels [Demo.color] (Demo.live "id.00" [])))
    /\ (forall c, c ∈ channels (with_channels [Demo.color] (Demo.live "id.00" [])) ->
        ch_name c ∈ (sock_name <$> nt_outputs t1))
    /\ (forall n, n ∈ (sock_name <$> nt_outputs (Demo.tree [])) ->
        n ∈ (sock_name <$> nt_outputs t1))
    /\ replace_node_tree Demo.host (fun _ => None) (fun ns => ns) 0 None false
         (Demo.world [with_channels [Demo.color] (Demo.live "id.00" [])])
       = Ret tt (upd 0 (with_node_tree None
                          (with_channels [Demo.color] (Demo.live "id.00" [])))
                   (Demo.world [with_channels [Demo.color] (Demo.live "id.00" [])])).
Proof.
  apply (replace_node_tree_keeps_channels Demo.host (fun _ => None) (fun ns => ns) 0
           (Demo.tree []) (Demo.world [with_channels [Demo.color] (Demo.live "id.00" [])])
           (with_channels [Demo.color] (Demo.live "id.00" [])) Demo.stack); reflexivity.
Defined.


Section Counting.
Context (good : string -> Prop) `{Hdec : !forall n, Decision (good n)}.



End Counting.









